(** * Uploader_maramihan: fax PDF metadata extraction and bulk upload

    A shallow embedding of the six Node.js programs of the repository:

    - [SentExamDate]         src/sent.js, first program  (Sent, date only)
    - [ReceivedNameOnly]     src/sent.js, second program (Received, dynamic [to])
    - [SentTimestamp]        src/unnamed/part_000, first program  (Sent, date + time)
    - [SentTimestampPrevDay] src/unnamed/part_000, second program (Sent, date + time, one day earlier)
    - [ReceivedFrom]         src/unnamed/part_001 (Received, dynamic [from])
    - [ReceivedTo]           src/received.js      (Received, dynamic [to])

    JavaScript strings are sequences of UTF-16 code units; regular
    expressions are run by a backtracking matcher with the ECMAScript
    greedy, leftmost semantics; [Math.random] is a stream of doubles; the
    three directories are finite maps from file names to contents. *)

From Stdlib Require Import ZArith NArith Lia Bool List String Ascii.
From stdpp Require Import base option list gmap.
Import ListNotations.

Set Default Proof Using "Type".

(** ** JavaScript strings *)

(** A string is the list of its UTF-16 code units. *)
Abbreviation jsstring := (list N).

(** The code units of an ASCII literal. *)
Definition js (s : string) : jsstring :=
  map N_of_ascii (list_ascii_of_string s).

Definition ch (a : ascii) : N := N_of_ascii a.

Definition jsstring_eqb (a b : jsstring) : bool := bool_decide (a = b).

(** [s.slice(i, j)] and [s.slice(i)] for in-range, non-negative indices. *)
Definition slice {A} (i j : nat) (s : list A) : list A := take (j - i) (drop i s).
Definition slice_from {A} (i : nat) (s : list A) : list A := drop i s.

(** [s.padStart(n, '0')]. *)
Definition padStart0 (n : nat) (s : jsstring) : jsstring :=
  replicate (n - length s) (ch "0") ++ s.

(** [s.endsWith(suffix)]. *)
Definition endsWith (suffix s : jsstring) : bool :=
  bool_decide (drop (length s - length suffix) s = suffix).

(** Truthiness of a string-or-null value: [null] and [''] are falsy. *)
Definition truthy (v : option jsstring) : bool :=
  match v with
  | Some (_ :: _) => true
  | _ => false
  end.

(** *** Character classes *)

Definition is_digit (c : N) : bool := ((48 <=? c) && (c <=? 57))%N.
Definition is_upper (c : N) : bool := ((65 <=? c) && (c <=? 90))%N.
Definition is_lower (c : N) : bool := ((97 <=? c) && (c <=? 122))%N.

(** [\s]: the WhiteSpace and LineTerminator code points of ECMAScript. *)
Definition is_space (c : N) : bool :=
  ((9 <=? c) && (c <=? 13) || (c =? 32) || (c =? 160) || (c =? 5760)
   || (8192 <=? c) && (c <=? 8202) || (c =? 8232) || (c =? 8233)
   || (c =? 8239) || (c =? 8287) || (c =? 12288) || (c =? 65279))%N.

(** Canonicalize of the [i] flag without [u]: a code unit is compared through
    its upper case, and a code unit above 127 never becomes an ASCII one, so
    against the ASCII characters of the patterns below only the ASCII
    letters fold. *)
Definition canonicalize (c : N) : N := if is_lower c then (c - 32)%N else c.

Definition is_char (a : ascii) (c : N) : bool := (c =? ch a)%N.
Definition is_char_i (a : ascii) (c : N) : bool :=
  (canonicalize c =? canonicalize (ch a))%N.

(** *** Numbers and strings *)

(** [Number(s)] and [parseInt(s)] on a string of decimal digits. *)
Definition Number_of_digits (s : jsstring) : Z :=
  fold_left (fun acc c => (10 * acc + (Z.of_N c - 48))%Z) s 0%Z.

Fixpoint digits_of_N (fuel : nat) (n : N) (acc : jsstring) : jsstring :=
  let acc' := (48 + n mod 10)%N :: acc in
  match fuel with
  | O => acc'
  | S fuel' => if (n / 10 =? 0)%N then acc' else digits_of_N fuel' (n / 10)%N acc'
  end.

(** [String(n)] for an integer [n]. *)
Definition String_of_Z (n : Z) : jsstring :=
  let m := Z.to_N (Z.abs n) in
  let ds := digits_of_N (N.to_nat (N.log2 m)) m [] in
  if (n <? 0)%Z then ch "-" :: ds else ds.

(** [text.replace(/\s+/g, ' ')]: every maximal run of white space becomes
    one space.  [in_run] tells that the previous code unit was white space. *)
Fixpoint collapse_spaces (in_run : bool) (s : jsstring) : jsstring :=
  match s with
  | [] => []
  | c :: s' =>
      if is_space c
      then (if in_run then collapse_spaces true s' else ch " " :: collapse_spaces true s')
      else c :: collapse_spaces false s'
  end.

Definition normalize (text : jsstring) : jsstring := collapse_spaces false text.

(** [s.replace(/\D/g, '')]. *)
Definition strip_non_digits (s : jsstring) : jsstring := filter (fun c => is_digit c = true) s.

(** [s.trim()]. *)
Fixpoint trimStart (s : jsstring) : jsstring :=
  match s with
  | c :: s' => if is_space c then trimStart s' else s
  | [] => []
  end.
Definition trim (s : jsstring) : jsstring := reverse (trimStart (reverse (trimStart s))).

(** [s.split(sep)] for a one-character separator. *)
Fixpoint split_on (sep : N) (cur : jsstring) (s : jsstring) : list jsstring :=
  match s with
  | [] => [reverse cur]
  | c :: s' => if (c =? sep)%N then reverse cur :: split_on sep [] s' else split_on sep (c :: cur) s'
  end.
Definition split (sep : ascii) (s : jsstring) : list jsstring := split_on (ch sep) [] s.

(** [file.toLowerCase()], on the ASCII letters.  The programs only ask
    whether the result ends with ['.pdf']; JavaScript maps the other code
    units to code units that are none of the four of ['.pdf'] (U+0130 to
    [i] and U+0307, U+212A to [k], the rest outside ASCII), so the answer
    is the same on this string. *)
Definition toLowerCase (s : jsstring) : jsstring :=
  map (fun c => if is_upper c then (c + 32)%N else c) s.

(** ** Regular expressions *)

(** The fragment the programs use.  Every quantifier of the source patterns
    stands on a single character or character class, so [Rep] takes a
    class. Quantifiers are greedy, alternatives are tried left to right. *)
Inductive regex :=
| Eps
| Chr (c : N -> bool)
| Cat (r1 r2 : regex)
| Alt (r1 r2 : regex)
| Rep (c : N -> bool) (lo : nat) (hi : option nat)
| Cap (i : nat) (r : regex).

Definition captures := list (nat * jsstring).

(** Greedy repetition: take as many as allowed, give back one at a time. *)
Fixpoint rep {A} (c : N -> bool) (lo : nat) (hi : option nat) (s : jsstring)
    (k : jsstring -> option A) : option A :=
  match s with
  | x :: s' =>
      if c x && negb (bool_decide (hi = Some 0%nat)) then
        match rep c (pred lo) (pred <$> hi) s' k with
        | Some a => Some a
        | None => if bool_decide (lo = 0%nat) then k s else None
        end
      else if bool_decide (lo = 0%nat) then k s else None
  | [] => if bool_decide (lo = 0%nat) then k [] else None
  end.

(** Backtracking matcher in continuation-passing style: [k] receives the
    rest of the input and the captures so far. *)
Fixpoint rmatch {A} (r : regex) (s : jsstring) (caps : captures)
    (k : jsstring -> captures -> option A) : option A :=
  match r with
  | Eps => k s caps
  | Chr c =>
      match s with
      | x :: s' => if c x then k s' caps else None
      | [] => None
      end
  | Cat r1 r2 => rmatch r1 s caps (fun s' caps' => rmatch r2 s' caps' k)
  | Alt r1 r2 =>
      match rmatch r1 s caps k with
      | Some a => Some a
      | None => rmatch r2 s caps k
      end
  | Rep c lo hi => rep c lo hi s (fun s' => k s' caps)
  | Cap i r1 =>
      rmatch r1 s caps
        (fun s' caps' => k s' ((i, take (length s - length s') s) :: caps'))
  end.

(** The array [String.prototype.match] returns for a pattern without [g]:
    the whole match and the groups. *)
Record MatchResult := { whole : jsstring; groups : captures }.

Definition match_here (r : regex) (s : jsstring) : option MatchResult :=
  rmatch r s []
    (fun s' caps => Some {| whole := take (length s - length s') s; groups := caps |}).

(** Leftmost match. *)
Fixpoint match_ (r : regex) (s : jsstring) : option MatchResult :=
  match match_here r s with
  | Some m => Some m
  | None =>
      match s with
      | [] => None
      | _ :: s' => match_ r s'
      end
  end.

(** [m[i]] for a group that took part in the match. *)
Fixpoint capture (i : nat) (caps : captures) : jsstring :=
  match caps with
  | [] => []
  | (j, s) :: caps' => if bool_decide (j = i) then s else capture i caps'
  end.
Definition group (i : nat) (m : MatchResult) : jsstring := capture i (groups m).

(** Pattern builders. *)
Fixpoint cat (rs : list regex) : regex :=
  match rs with
  | [] => Eps
  | [r] => r
  | r :: rs' => Cat r (cat rs')
  end.
Fixpoint alt (rs : list regex) : regex :=
  match rs with
  | [] => Eps
  | [r] => r
  | r :: rs' => Alt r (alt rs')
  end.
Definition lit (s : string) : regex := cat (map (fun a => Chr (is_char a)) (list_ascii_of_string s)).
Definition lit_i (s : string) : regex := cat (map (fun a => Chr (is_char_i a)) (list_ascii_of_string s)).

Definition digits (lo hi : nat) : regex := Rep is_digit lo (Some hi).
Definition spaces : regex := Rep is_space 0 None.


(** ** Numbers *)

Local Open Scope Z_scope.

(** *** The doubles of [getRandomTime]

    [Math.random()] returns a double in [0, 1).  The engines build it from
    52 or 53 random bits, so it is [k / 2^53] for an integer [0 <= k < 2^53].
    All the numbers [getRandomTime] computes are multiples of [2^-53]: a
    number is represented by the integer [x] with value [x / 2^53]. *)
Definition one : Z := 2 ^ 53.

(** IEEE 754 binary64 rounding to nearest, ties to even, of the exact value
    [x / 2^53] ([x >= 0]): a double keeps 53 significant bits, so beyond
    [2^53] units the doubles are [2 ^ (log2 x - 52)] units apart. *)
Definition ulp (x : Z) : Z := 2 ^ Z.max 0 (Z.log2 x - 52).

Definition round_double (x : Z) : Z :=
  let u := ulp x in
  let q := x / u in
  let r := x mod u in
  if 2 * r <? u then q * u
  else if u <? 2 * r then (q + 1) * u
  else if Z.even q then q * u else (q + 1) * u.

(** [a * n] and [a + n] for a double [a] and a small integer [n]. *)
Definition double_mul (a : Z) (n : Z) : Z := round_double (a * n).
Definition double_add (a : Z) (n : Z) : Z := round_double (a + n * one).
Definition Math_floor (a : Z) : Z := a / one.

(** The source of randomness: the doubles the successive calls of
    [Math.random] return, and how many were drawn. *)
Record Rng := { draws : nat -> Z; drawn : nat }.

Definition Math_random (g : Rng) : Z * Rng :=
  (draws g (drawn g) mod one, {| draws := draws g; drawn := S (drawn g) |}).

(** sent.js:42-49 *)
Definition getRandomTime (g : Rng) : (Z * Z * Z) * Rng :=
  let startHour := 8 in
  let endHour := 17 in
  let '(r1, g1) := Math_random g in
  let randomHour := Math_floor (double_add (double_mul r1 (endHour - startHour)) startHour) in
  let '(r2, g2) := Math_random g1 in
  let randomMinute := Math_floor (double_mul r2 60) in
  let '(r3, g3) := Math_random g2 in
  let randomSecond := Math_floor (double_mul r3 60) in
  ((randomHour, randomMinute, randomSecond), g3).

(** *** Dates

    The [Date] objects of the programs are read and written through their
    local-time fields only; a date is its local time value in milliseconds,
    in a time zone without daylight-saving transitions.  The calendar is
    the proleptic Gregorian one of ECMAScript.  The conversion to UTC and
    back, where a change of the clock can move the hour, is in [InZone],
    after the second program of part_000. *)
Module Date.

Definition msPerDay : Z := 86400000.
Definition msPerHour : Z := 3600000.
Definition msPerMinute : Z := 60000.
Definition msPerSecond : Z := 1000.

(** Day number (days since 1970-01-01) of the civil date [y]-[m]-[d],
    [m] from 1 to 12. *)
Definition days_from_civil (y m d : Z) : Z :=
  let y' := if m <=? 2 then y - 1 else y in
  let era := y' / 400 in
  let yoe := y' - era * 400 in
  let doy := (153 * (if 2 <? m then m - 3 else m + 9) + 2) / 5 + d - 1 in
  let doe := yoe * 365 + yoe / 4 - yoe / 100 + doy in
  era * 146097 + doe - 719468.

(** The civil date (year, month from 1 to 12, day) of a day number. *)
Definition civil_from_days (z : Z) : Z * Z * Z :=
  let z' := z + 719468 in
  let era := z' / 146097 in
  let doe := z' - era * 146097 in
  let yoe := (doe - doe / 1460 + doe / 36524 - doe / 146096) / 365 in
  let doy := doe - (365 * yoe + yoe / 4 - yoe / 100) in
  let mp := (5 * doy + 2) / 153 in
  let d := doy - (153 * mp + 2) / 5 + 1 in
  let m := if mp <? 10 then mp + 3 else mp - 9 in
  (if m <=? 2 then yoe + era * 400 + 1 else yoe + era * 400, m, d).

(** MakeDay, MakeTime and MakeDate of ECMAScript; the month index
    starts at 0 and overflows into the years. *)
Definition MakeDay (year month date : Z) : Z :=
  days_from_civil (year + month / 12) (month mod 12 + 1) 1 + date - 1.
Definition MakeTime (hour min sec : Z) : Z :=
  hour * msPerHour + min * msPerMinute + sec * msPerSecond.
Definition MakeDate (day time : Z) : Z := day * msPerDay + time.

(** [new Date(year, monthIndex, day, hours, minutes)], as a local time
    value: a year from 0 to 99 means 1900 + year.  ([InZone.make] converts
    it to UTC.) *)
Definition MakeFullYear (year : Z) : Z :=
  if (0 <=? year) && (year <=? 99) then 1900 + year else year.
Definition make (year month day hours minutes : Z) : Z :=
  MakeDate (MakeDay (MakeFullYear year) month day) (MakeTime hours minutes 0).

Definition getFullYear (t : Z) : Z := fst (fst (civil_from_days (t / msPerDay))).
(** from 0 to 11 *)
Definition getMonth (t : Z) : Z := snd (fst (civil_from_days (t / msPerDay))) - 1.
Definition getDate (t : Z) : Z := snd (civil_from_days (t / msPerDay)).
Definition getHours (t : Z) : Z := (t mod msPerDay) / msPerHour.
Definition getMinutes (t : Z) : Z := (t mod msPerHour) / msPerMinute.
Definition getSeconds (t : Z) : Z := (t mod msPerMinute) / msPerSecond.

(** [d.setDate(dt)] on the local time value of [d].  ([InZone.setDate]
    converts from and to UTC.) *)
Definition setDate (dt : Z) (t : Z) : Z :=
  MakeDate (MakeDay (getFullYear t) (getMonth t) dt) (t mod msPerDay).

End Date.

(** The Gregorian calendar, for the statements. *)
Definition leap_year (y : Z) : bool :=
  ((y mod 4 =? 0) && negb (y mod 100 =? 0) || (y mod 400 =? 0))%Z.

Definition days_in_month (y m : Z) : Z :=
  if (m =? 2)%Z then (if leap_year y then 29 else 28)
  else if (m =? 4) || (m =? 6) || (m =? 9) || (m =? 11) then 30
  else 31.

Local Close Scope Z_scope.

(** ** Records *)

(** The object [parsePdfText] builds and [prepareRecordsForUpload]
    completes; [None] is [null] (or a property not yet set). *)
Record record := {
  type : jsstring;
  to : option jsstring;
  from : option jsstring;
  subject : jsstring;
  sender : option jsstring;
  createdAt : option jsstring;
  attachment : option jsstring;
  file_extension : option jsstring
}.

(** The same function in every program (sent.js:34-39 and 243-248,
    received.js:32-37, part_000:34-39 and 218-223, part_001:28-33). *)
Definition formatPhoneNumber (phone : jsstring) : jsstring :=
  if bool_decide (length phone = 10%nat)
  then js "(" ++ slice 0 3 phone ++ js ") " ++ slice 3 6 phone ++ js " - " ++ slice_from 6 phone
  else phone.

(** [`${yyyy}-${mm}-${dd} ${hh}:${min}:${ss}`] *)
Definition timestamp (yyyy mm dd hh min ss : jsstring) : jsstring :=
  yyyy ++ js "-" ++ mm ++ js "-" ++ dd ++ js " " ++ hh ++ js ":" ++ min ++ js ":" ++ ss.


(** ** Files and the upload pipeline *)

(** A parser reads the text and may draw random numbers. *)
Definition Parser := jsstring -> Rng -> option record * Rng.

Abbreviation filename := (list N).
Abbreviation content := (list N).

(** The three directories: [pdf_files/], [processed/] and the folder of
    failed uploads, each a finite map from file names to contents. *)
Record FileSystem := {
  pdf_files : gmap filename content;
  processed : gmap filename content;
  failed_uploads : gmap filename content
}.

Inductive Folder := processedFolder | failedFolder.

(** Whether the operating system carries out a given move. *)
Definition Relocation := Folder -> filename -> bool.

(** [fs.renameSync(path.join(pdfFolder, file), path.join(folder, file))].
    Every call stands in a [try] whose [catch] only logs, so a move that
    throws (no such file, or refused by the system) leaves the files as
    they were. *)
Definition renameSync (ok : Relocation) (folder : Folder) (file : filename)
    (fs : FileSystem) : FileSystem :=
  match pdf_files fs !! file with
  | Some c =>
      if ok folder file then
        match folder with
        | processedFolder =>
            {| pdf_files := delete file (pdf_files fs);
               processed := <[file := c]> (processed fs);
               failed_uploads := failed_uploads fs |}
        | failedFolder =>
            {| pdf_files := delete file (pdf_files fs);
               processed := processed fs;
               failed_uploads := <[file := c]> (failed_uploads fs) |}
        end
      else fs
  | None => fs
  end.

(** [fs.readdirSync(pdfFolder)]: the names, in the order of the system. *)
Definition readdirSync (fs : FileSystem) : list filename := (map_to_list (pdf_files fs)).*1.

Definition pdf_listing (fs : FileSystem) : list filename :=
  filter (fun file => endsWith (js ".pdf") file = true) (readdirSync fs).

(** [countProcessedPDFs] (part_000:353-361; written out in [main] at
    sent.js:203 and part_000:182): the number the program logs as
    [Total processed PDF files]. *)
Definition countProcessedPDFs (fs : FileSystem) : nat :=
  let processedFiles := (map_to_list (processed fs)).*1 in
  length (filter (fun file => endsWith (js ".pdf") (toLowerCase file) = true) processedFiles).

(** [batchUpload] (sent.js:168-188 and 381-397, part_000:147-167 and
    330-350): the request bodies, in the order they are posted.  The answer
    to a request is only logged.  [fuel] bounds the iterations of the [for]
    loop; [None] means that they were not enough. *)
Fixpoint batchUpload_from (fuel : nat) (records : list record) (batchSize i : nat)
    : option (list (list record)) :=
  if bool_decide (i < length records) then
    match fuel with
    | O => None
    | S fuel' =>
        let batch := slice i (i + batchSize) records in
        (batch ::.) <$> batchUpload_from fuel' records batchSize (i + batchSize)
    end
  else Some [].

Definition batchUpload (fuel : nat) (records : list record) (batchSize : nat)
    : option (list (list record)) :=
  batchUpload_from fuel records batchSize 0.

(** [bulkUpload] (received.js:169-183, part_001:146-160): one request. *)
Definition bulkUpload (records : list record) : list (list record) := [records].

(** What a run leaves: the requests posted and the files. *)
Record Outcome := { uploads : list (list record); files : FileSystem }.

Section Pipeline.

(** [pdf-parse] on the bytes of a file: the text, or [None] when it throws. *)
Variable pdfParse : content -> option jsstring.
(** [Buffer.from(fileContent).toString('base64')] *)
Variable toBase64 : content -> jsstring.
Variable parsePdfText : Parser.
Variable ok : Relocation.

(** [extractPdfText]: [null] when reading or parsing throws. *)
Definition extractPdfText (fs : FileSystem) (file : filename) : option jsstring :=
  match pdf_files fs !! file with
  | Some dataBuffer => pdfParse dataBuffer
  | None => None
  end.

(** [fileToBase64].  It reads the path [extractPdfText] has just read. *)
Definition fileToBase64 (fs : FileSystem) (file : filename) : option jsstring :=
  toBase64 <$> pdf_files fs !! file.

Definition complete_record (r : record) (attachment : option jsstring) : record :=
  {| type := type r; to := to r; from := from r; subject := subject r;
     sender := sender r; createdAt := createdAt r;
     attachment := attachment; file_extension := Some (js "pdf") |}.

(** The variables of the loop of [prepareRecordsForUpload]. *)
Record Loop := {
  fs : FileSystem;
  records : list record;
  failedFiles : list filename;
  rng : Rng
}.

(** One iteration of the first loop (sent.js:119-145 and 330-358,
    part_000:98-124 and 281-307). received.js:118-142 and part_001:110-134
    are the same without [failedFiles]: there the field is written and
    never read. *)
Definition process_file (file : filename) (st : Loop) : Loop :=
  match extractPdfText (fs st) file with
  | Some ((_ :: _) as pdfText) =>
      match parsePdfText pdfText (rng st) with
      | (Some record, g) =>
          let record := complete_record record (fileToBase64 (fs st) file) in
          {| fs := renameSync ok processedFolder file (fs st);
             records := records st ++ [record];
             failedFiles := failedFiles st;
             rng := g |}
      | (None, g) =>
          {| fs := fs st; records := records st;
             failedFiles := failedFiles st ++ [file]; rng := g |}
      end
  | _ =>
      {| fs := fs st; records := records st;
         failedFiles := failedFiles st ++ [file]; rng := rng st |}
  end.

Definition process_files (pdfFiles : list filename) (st : Loop) : Loop :=
  foldl (fun st file => process_file file st) st pdfFiles.

(** The second loop (sent.js:148-156 and 361-369, part_000:127-135 and
    310-318), and the loop of [moveFailedFiles] (received.js:151-159). *)
Definition move_to_failed (files : list filename) (fs : FileSystem) : FileSystem :=
  foldl (fun fs file => renameSync ok failedFolder file fs) fs files.

(** [prepareRecordsForUpload] of the programs that keep [failedFiles]
    (sent.js:115-159 and 326-372, part_000:94-138 and 277-321). *)
Definition prepareRecordsForUpload (pdfFiles : list filename) (fs0 : FileSystem) (g : Rng)
    : list record * FileSystem * Rng :=
  let st := process_files pdfFiles {| fs := fs0; records := []; failedFiles := []; rng := g |} in
  (records st, move_to_failed (failedFiles st) (fs st), rng st).

(** [prepareRecordsForUpload] of the programs that do not
    (received.js:115-145, part_001:107-137). *)
Definition prepareRecordsForUpload_no_list (pdfFiles : list filename) (fs0 : FileSystem) (g : Rng)
    : list record * FileSystem * Rng :=
  let st := process_files pdfFiles {| fs := fs0; records := []; failedFiles := []; rng := g |} in
  (records st, fs st, rng st).

(** [moveFailedFiles] (received.js:148-160) *)
Definition moveFailedFiles (fs : FileSystem) : FileSystem :=
  let remainingFiles := pdf_listing fs in
  move_to_failed remainingFiles fs.

(** [main] with [batchUpload] (sent.js:191-207, part_000:170-186 and
    364-381; in sent.js:400-419 the call of [moveFailedFiles], which that
    program does not define, throws into the [catch] of [main]).  The
    loop of [batchUpload] runs at most once per record. *)
Definition main_batch (fs0 : FileSystem) (g : Rng) : option Outcome :=
  let pdfFiles := pdf_listing fs0 in
  let '(recordsForUpload, fs1, _) := prepareRecordsForUpload pdfFiles fs0 g in
  if bool_decide (0 < length recordsForUpload) then
    posted ← batchUpload (length recordsForUpload) recordsForUpload 100;
    Some {| uploads := posted; files := fs1 |}
  else Some {| uploads := []; files := fs1 |}.

(** [main] of received.js:186-203 *)
Definition main_sweep (fs0 : FileSystem) (g : Rng) : Outcome :=
  let pdfFiles := pdf_listing fs0 in
  let '(recordsForUpload, fs1, _) := prepareRecordsForUpload_no_list pdfFiles fs0 g in
  let posted := if bool_decide (0 < length recordsForUpload) then bulkUpload recordsForUpload else [] in
  {| uploads := posted; files := moveFailedFiles fs1 |}.

(** [main] of part_001:163-177 *)
Definition main_no_failed_folder (fs0 : FileSystem) (g : Rng) : Outcome :=
  let pdfFiles := pdf_listing fs0 in
  let '(recordsForUpload, fs1, _) := prepareRecordsForUpload_no_list pdfFiles fs0 g in
  let posted := if bool_decide (0 < length recordsForUpload) then bulkUpload recordsForUpload else [] in
  {| uploads := posted; files := fs1 |}.

End Pipeline.

(** A parser that draws no random number. *)
Definition pure_parser (parse : jsstring -> option record) : Parser :=
  fun text g => (parse text, g).

(** ** Patterns shared by several programs *)

(** [/(\d{1,2}\/\d{1,2}\/\d{4} \d{1,2}:\d{2} [AP]M)/]
    (sent.js:268, received.js:57, part_000:54 and 238) *)
Definition re_timestamp : regex :=
  Cap 1 (cat [digits 1 2; lit "/"; digits 1 2; lit "/"; digits 4 4; lit " ";
              digits 1 2; lit ":"; digits 2 2; lit " ";
              Chr (fun c => is_char "A" c || is_char "P" c); lit "M"]).

(** [/(\d{1,2})\/(\d{1,2})\/(\d{4}) (\d{1,2}):(\d{2}) ([AP]M)/]
    (sent.js:271, received.js:60, part_000:56 and 240) *)
Definition re_timestamp_fields : regex :=
  cat [Cap 1 (digits 1 2); lit "/"; Cap 2 (digits 1 2); lit "/"; Cap 3 (digits 4 4); lit " ";
       Cap 4 (digits 1 2); lit ":"; Cap 5 (digits 2 2); lit " ";
       Cap 6 (Cat (Chr (fun c => is_char "A" c || is_char "P" c)) (lit "M"))].

(** [/Fax:\s*([0-9-]+)/i] (sent.js:95, part_000:74 and 262, part_001:72) *)
Definition re_fax : regex :=
  cat [lit_i "Fax:"; spaces; Cap 1 (Rep (fun c => is_digit c || is_char "-" c) 1 None)].

(** [/(?:Fax:|To:|FAX:|TO:)\s*([0-9\s\-]+)/i] (sent.js:291, received.js:80) *)
Definition re_to : regex :=
  cat [alt [lit_i "Fax:"; lit_i "To:"; lit_i "FAX:"; lit_i "TO:"]; spaces;
       Cap 1 (Rep (fun c => is_digit c || is_space c || is_char "-" c) 1 None)].

(** The class [[A-Z\s,\.]] under the [i] flag. *)
Definition name_char (c : N) : bool :=
  is_upper (canonicalize c) || is_space c || is_char "," c || is_char "." c.

(** [/PHYSICIAN NAME\s*[:\-]?\s*([A-Z\s,\.]+)/i]
    (sent.js:306, received.js:97, part_001:88) *)
Definition re_physician_name : regex :=
  cat [lit_i "PHYSICIAN NAME"; spaces;
       Rep (fun c => is_char ":" c || is_char "-" c) 0 (Some 1%nat); spaces;
       Cap 1 (Rep name_char 1 None)].

(** The credential suffixes of the pattern below, in its order. *)
Definition credentials : list string :=
  ["MD"; "M.D."; "DO"; "D.O."; "APN"; "N.P."; "M.D"; "D.O"; "APRN"; "M.D"; "APRN."]%string.

(** [/PHYSICIAN INFORMATION\s*([A-Z\s,\.]+(?:MD|M\.D\.|DO|D\.O\.|APN|N\.P\.|M\.D|D\.O|APRN|M\.D|APRN\.))/i]
    (received.js:91, part_001:81) *)
Definition re_physician_information : regex :=
  cat [lit_i "PHYSICIAN INFORMATION"; spaces;
       Cap 1 (Cat (Rep name_char 1 None) (alt (map lit_i credentials)))].

(** The conversion to the 24-hour clock, written out in each program
    (sent.js:274-276, received.js:64-66, part_000:58-60 and 243-245). *)
Definition adjustedHour (hour : jsstring) (period : jsstring) : Z :=
  let adjustedHour := Number_of_digits hour in
  let adjustedHour :=
    if bool_decide (period = js "PM") && negb (adjustedHour =? 12)%Z
    then (adjustedHour + 12)%Z else adjustedHour in
  let adjustedHour :=
    if bool_decide (period = js "AM") && (adjustedHour =? 12)%Z
    then 0%Z else adjustedHour in
  adjustedHour.

(** [createdAt] from a date with a 12-hour time, the date kept
    (sent.js:268-288, received.js:57-76, part_000:54-71). The second
    pattern is the first one with more groups: it always matches here. *)
Definition createdAt_of_timestamp (normalizedText : jsstring) : option jsstring :=
  match match_ re_timestamp normalizedText with
  | Some createdAtMatch =>
      match match_ re_timestamp_fields (group 1 createdAtMatch) with
      | Some fields =>
          let month := group 1 fields in
          let day := group 2 fields in
          let year := group 3 fields in
          let hour := group 4 fields in
          let minute := group 5 fields in
          let period := group 6 fields in
          let yyyy := year in
          let mm := padStart0 2 month in
          let dd := padStart0 2 day in
          let hh := padStart0 2 (String_of_Z (adjustedHour hour period)) in
          let min := padStart0 2 minute in
          let ss := js "00" in
          Some (timestamp yyyy mm dd hh min ss)
      | None => None
      end
  | None => None
  end.

(** The fax number kept whatever its length
    (sent.js:95-101, part_000:74-80 and 262-266, part_001:72-76). *)
Definition fax_any_length (normalizedText : jsstring) : option jsstring :=
  match match_ re_fax normalizedText with
  | Some fromMatch =>
      let cleanedFrom := strip_non_digits (group 1 fromMatch) in
      Some (formatPhoneNumber cleanedFrom)
  | None => None
  end.

(** The fax number kept only with ten digits (sent.js:291-302, received.js:80-86). *)
Definition fax_ten_digits (normalizedText : jsstring) : option jsstring :=
  match match_ re_to normalizedText with
  | Some toMatch =>
      let cleanedTo := strip_non_digits (group 1 toMatch) in
      if bool_decide (length cleanedTo = 10%nat)
      then Some (formatPhoneNumber cleanedTo)
      else None
  | None => None
  end.

(** The physician after the label only (sent.js:305-313). *)
Definition physician_name_only (normalizedText : jsstring) : option jsstring :=
  match match_ re_physician_name normalizedText with
  | Some senderMatch => Some (trim (group 1 senderMatch))
  | None => None
  end.

(** The physician of the information block, else after the label
    (received.js:90-101, part_001:80-92). *)
Definition physician_with_fallback (normalizedText : jsstring) : option jsstring :=
  match match_ re_physician_information normalizedText with
  | Some senderMatch => Some (trim (group 1 senderMatch))
  | None =>
      match match_ re_physician_name normalizedText with
      | Some fallbackMatch => Some (trim (group 1 fallbackMatch))
      | None => None
      end
  end.

(** The validity test that ends every [parsePdfText]:
    [if (record.createdAt && record.<party> && record.sender)]. *)
Definition complete (party : record -> option jsstring) (r : record) : bool :=
  truthy (createdAt r) && truthy (party r) && truthy (sender r).

Definition SUBJECT : jsstring := js "PRIOR AUTHORIZATION PRESCRIPTION REQUEST".
Definition FIXED_NUMBER : jsstring := js "(207) 261 - 0798".

(** ** src/sent.js, first program: Sent, date only *)
Module SentExamDate.

(** [/Exam Date: (\d{1,2}\/\d{1,2}\/\d{4})/] (sent.js:64) *)
Definition re_createdAt : regex :=
  Cat (lit "Exam Date: ") (Cap 1 (cat [digits 1 2; lit "/"; digits 1 2; lit "/"; digits 4 4])).

(** sent.js:68-77: the date one day earlier, as (month, day, year). *)
Definition dayBefore (month day year : Z) : Z * Z * Z :=
  let day := (day - 1)%Z in
  if (day <=? 0)%Z then
    let month := (month - 1)%Z in
    let '(year, month) := if (month <=? 0)%Z then ((year - 1)%Z, 12%Z) else (year, month) in
    let day := Date.getDate (Date.make year month 0 0 0) in
    (month, day, year)
  else (month, day, year).

(** sent.js:64-92 *)
Definition extract_createdAt (normalizedText : jsstring) (g : Rng) : option jsstring * Rng :=
  match match_ re_createdAt normalizedText with
  | Some createdAtMatch =>
      match map Number_of_digits (split "/" (group 1 createdAtMatch)) with
      | month :: day :: year :: _ =>
          let '(month, day, year) := dayBefore month day year in
          let '((randomHour, randomMinute, randomSecond), g') := getRandomTime g in
          let yyyy := padStart0 4 (String_of_Z year) in
          let mm := padStart0 2 (String_of_Z month) in
          let dd := padStart0 2 (String_of_Z day) in
          let hh := padStart0 2 (String_of_Z randomHour) in
          let min := padStart0 2 (String_of_Z randomMinute) in
          let ss := padStart0 2 (String_of_Z randomSecond) in
          (Some (timestamp yyyy mm dd hh min ss), g')
      | _ => (None, g)
      end
  | None => (None, g)
  end.

(** The record object before the validity test (sent.js:53-103). *)
Definition candidate (text : jsstring) (g : Rng) : record * Rng :=
  let normalizedText := normalize text in
  let '(createdAt, g') := extract_createdAt normalizedText g in
  ({| type := js "Sent";
      to := Some FIXED_NUMBER;
      from := fax_any_length normalizedText;
      subject := SUBJECT;
      sender := Some (js "RIGHT CHOICE MEDICAL SUPPLY");
      createdAt := createdAt;
      attachment := None;
      file_extension := None |}, g').

(** sent.js:52-112 *)
Definition parsePdfText : Parser := fun text g =>
  let '(record, g') := candidate text g in
  if complete from record then (Some record, g') else (None, g').


Definition prepareRecordsForUpload pdfParse toBase64 ok :=
  prepareRecordsForUpload pdfParse toBase64 parsePdfText ok.

Definition main pdfParse toBase64 ok :=
  main_batch pdfParse toBase64 parsePdfText ok.

End SentExamDate.

(** ** src/unnamed/part_000, first program: Sent, date and time *)
Module SentTimestamp.

(** part_000:43-82 *)
Definition candidate (text : jsstring) : record :=
  let normalizedText := normalize text in
  {| type := js "Sent";
     to := Some FIXED_NUMBER;
     from := fax_any_length normalizedText;
     subject := SUBJECT;
     sender := Some (js "RIGHT CHOICE MEDICAL SUPPLY");
     createdAt := createdAt_of_timestamp normalizedText;
     attachment := None;
     file_extension := None |}.

(** part_000:42-91 *)
Definition parsePdfText (text : jsstring) : option record :=
  let record := candidate text in
  if complete from record then Some record else None.


Definition prepareRecordsForUpload pdfParse toBase64 ok :=
  prepareRecordsForUpload pdfParse toBase64 (pure_parser parsePdfText) ok.

Definition main pdfParse toBase64 ok :=
  main_batch pdfParse toBase64 (pure_parser parsePdfText) ok.

End SentTimestamp.

(** ** src/unnamed/part_000, second program: Sent, date and time, one day earlier *)
Module SentTimestampPrevDay.

(** part_000:238-259, on local time values: the program where the clock
    of the zone does not change.  [InZone.extract_createdAt], below, has
    the time zone. *)
Definition extract_createdAt (normalizedText : jsstring) : option jsstring :=
  match match_ re_timestamp normalizedText with
  | Some createdAtMatch =>
      match match_ re_timestamp_fields (group 1 createdAtMatch) with
      | Some fields =>
          let month := group 1 fields in
          let day := group 2 fields in
          let year := group 3 fields in
          let hour := group 4 fields in
          let minute := group 5 fields in
          let period := group 6 fields in
          let dateObj :=
            Date.make (Number_of_digits year) (Number_of_digits month - 1)
              (Number_of_digits day) (adjustedHour hour period) (Number_of_digits minute) in
          let dateObj := Date.setDate (Date.getDate dateObj - 1) dateObj in
          let yyyy := String_of_Z (Date.getFullYear dateObj) in
          let mm := padStart0 2 (String_of_Z (Date.getMonth dateObj + 1)) in
          let dd := padStart0 2 (String_of_Z (Date.getDate dateObj)) in
          let hh := padStart0 2 (String_of_Z (Date.getHours dateObj)) in
          let min := padStart0 2 (String_of_Z (Date.getMinutes dateObj)) in
          let ss := padStart0 2 (String_of_Z (Date.getSeconds dateObj)) in
          Some (timestamp yyyy mm dd hh min ss)
      | None => None
      end
  | None => None
  end.

(** part_000:227-266 *)
Definition candidate (text : jsstring) : record :=
  let normalizedText := normalize text in
  {| type := js "Sent";
     to := Some FIXED_NUMBER;
     from := fax_any_length normalizedText;
     subject := SUBJECT;
     sender := Some (js "RIGHT CHOICE MEDICAL SUPPLY");
     createdAt := extract_createdAt normalizedText;
     attachment := None;
     file_extension := None |}.

(** part_000:226-274 *)
Definition parsePdfText (text : jsstring) : option record :=
  let record := candidate text in
  if complete from record then Some record else None.


Definition prepareRecordsForUpload pdfParse toBase64 ok :=
  prepareRecordsForUpload pdfParse toBase64 (pure_parser parsePdfText) ok.

Definition main pdfParse toBase64 ok :=
  main_batch pdfParse toBase64 (pure_parser parsePdfText) ok.

End SentTimestampPrevDay.

(** *** The second program of part_000 in a time zone *)

(** [Date.make], [Date.setDate] and the getters above work on local time
    values.  A [Date] object holds a UTC time value: the constructor and
    [setDate] convert their local time with [UTC], the getters convert back
    with [LocalTime], and where the clock of the zone changes the two do
    not undo each other. *)
Module InZone.

(** The offset of local time from UTC, in milliseconds: at a UTC time
    value, and at a local time value.  At a local time the clock skips or
    repeats, the second is the offset before the change, as ECMAScript
    has it. *)
Record TimeZone := {
  offset_at : Z -> Z;
  offset_at_local : Z -> Z
}.

Local Open Scope Z_scope.

Definition LocalTime (tz : TimeZone) (t : Z) : Z := t + offset_at tz t.
Definition UTC (tz : TimeZone) (t : Z) : Z := t - offset_at_local tz t.

(** [new Date(year, monthIndex, day, hours, minutes)] *)
Definition make (tz : TimeZone) (year month day hours minutes : Z) : Z :=
  UTC tz (Date.make year month day hours minutes).

Definition getFullYear (tz : TimeZone) (t : Z) : Z := Date.getFullYear (LocalTime tz t).
Definition getMonth (tz : TimeZone) (t : Z) : Z := Date.getMonth (LocalTime tz t).
Definition getDate (tz : TimeZone) (t : Z) : Z := Date.getDate (LocalTime tz t).
Definition getHours (tz : TimeZone) (t : Z) : Z := Date.getHours (LocalTime tz t).
Definition getMinutes (tz : TimeZone) (t : Z) : Z := Date.getMinutes (LocalTime tz t).
Definition getSeconds (tz : TimeZone) (t : Z) : Z := Date.getSeconds (LocalTime tz t).

(** [d.setDate(dt)] *)
Definition setDate (tz : TimeZone) (dt : Z) (t : Z) : Z :=
  UTC tz (Date.setDate dt (LocalTime tz t)).

(** part_000:238-259 *)
Definition extract_createdAt (tz : TimeZone) (normalizedText : jsstring) : option jsstring :=
  match match_ re_timestamp normalizedText with
  | Some createdAtMatch =>
      match match_ re_timestamp_fields (group 1 createdAtMatch) with
      | Some fields =>
          let month := group 1 fields in
          let day := group 2 fields in
          let year := group 3 fields in
          let hour := group 4 fields in
          let minute := group 5 fields in
          let period := group 6 fields in
          let dateObj :=
            make tz (Number_of_digits year) (Number_of_digits month - 1)
              (Number_of_digits day) (adjustedHour hour period) (Number_of_digits minute) in
          let dateObj := setDate tz (getDate tz dateObj - 1) dateObj in
          let yyyy := String_of_Z (getFullYear tz dateObj) in
          let mm := padStart0 2 (String_of_Z (getMonth tz dateObj + 1)) in
          let dd := padStart0 2 (String_of_Z (getDate tz dateObj)) in
          let hh := padStart0 2 (String_of_Z (getHours tz dateObj)) in
          let min := padStart0 2 (String_of_Z (getMinutes tz dateObj)) in
          let ss := padStart0 2 (String_of_Z (getSeconds tz dateObj)) in
          Some (timestamp yyyy mm dd hh min ss)
      | None => None
      end
  | None => None
  end.

(** The local time [t] is on the clock of the zone: converted to UTC and
    back it is [t] again.  A time in the hour that a change to summer time
    skips is not. *)
Definition on_the_clock (tz : TimeZone) (t : Z) : Prop := LocalTime tz (UTC tz t) = t.

(** A zone whose offset never changes. *)
Definition fixed_offset (tz : TimeZone) : Prop :=
  exists offset, forall t, offset_at tz t = offset /\ offset_at_local tz t = offset.

Definition utc : TimeZone := {| offset_at := fun _ => 0; offset_at_local := fun _ => 0 |}.

(** The clock of America/New_York in 2024: five hours behind UTC, and four
    from 10 March, 2:00, when it goes to 3:00, to 3 November, 2:00, when it
    goes back to 1:00. *)
Definition new_york_2024 : TimeZone :=
  let spring := Date.days_from_civil 2024 3 10 * Date.msPerDay in
  let autumn := Date.days_from_civil 2024 11 3 * Date.msPerDay in
  {| offset_at := fun t =>
       if (spring + 7 * Date.msPerHour <=? t) && (t <? autumn + 6 * Date.msPerHour)
       then -4 * Date.msPerHour else -5 * Date.msPerHour;
     offset_at_local := fun t =>
       if (spring + 3 * Date.msPerHour <=? t) && (t <? autumn + 2 * Date.msPerHour)
       then -4 * Date.msPerHour else -5 * Date.msPerHour |}.

End InZone.

(** ** src/sent.js, second program: Received, the recipient extracted *)
Module ReceivedNameOnly.

(** sent.js:253-313 *)
Definition candidate (text : jsstring) : record :=
  let normalizedText := normalize text in
  {| type := js "Received";
     from := Some FIXED_NUMBER;
     to := fax_ten_digits normalizedText;
     subject := SUBJECT;
     sender := physician_name_only normalizedText;
     createdAt := createdAt_of_timestamp normalizedText;
     attachment := None;
     file_extension := None |}.

(** sent.js:251-323 *)
Definition parsePdfText (text : jsstring) : option record :=
  let record := candidate text in
  if complete to record then Some record else None.


Definition prepareRecordsForUpload pdfParse toBase64 ok :=
  prepareRecordsForUpload pdfParse toBase64 (pure_parser parsePdfText) ok.

Definition main pdfParse toBase64 ok :=
  main_batch pdfParse toBase64 (pure_parser parsePdfText) ok.

End ReceivedNameOnly.

(** ** src/received.js: Received, the recipient extracted *)
Module ReceivedTo.

(** received.js:42-102 *)
Definition candidate (text : jsstring) : record :=
  let normalizedText := normalize text in
  {| type := js "Received";
     from := Some FIXED_NUMBER;
     to := fax_ten_digits normalizedText;
     subject := SUBJECT;
     sender := physician_with_fallback normalizedText;
     createdAt := createdAt_of_timestamp normalizedText;
     attachment := None;
     file_extension := None |}.

(** received.js:40-112 *)
Definition parsePdfText (text : jsstring) : option record :=
  let record := candidate text in
  if complete to record then Some record else None.


Definition prepareRecordsForUpload pdfParse toBase64 ok :=
  prepareRecordsForUpload_no_list pdfParse toBase64 (pure_parser parsePdfText) ok.

Definition main pdfParse toBase64 ok :=
  main_sweep pdfParse toBase64 (pure_parser parsePdfText) ok.

End ReceivedTo.

(** ** src/unnamed/part_001: Received, the sender's number extracted *)
Module ReceivedFrom.

(** [/(\d{1,2}\/\d{1,2}\/\d{4} \d{1,2}:\d{2} [P]M)/] (part_001:53) *)
Definition re_createdAt : regex :=
  Cap 1 (cat [digits 1 2; lit "/"; digits 1 2; lit "/"; digits 4 4; lit " ";
              digits 1 2; lit ":"; digits 2 2; lit " ";
              Chr (fun c => is_char "P" c); lit "M"]).

Section host.

(** [new Date(dateStr)] on a string that is not in the ISO format is left
    to the implementation by ECMAScript: the local time value it
    yields, or [None] for an invalid date. *)
Variable Date_parse : jsstring -> option Z.

(** part_001:53-68 *)
Definition extract_createdAt (normalizedText : jsstring) : option jsstring :=
  match match_ re_createdAt normalizedText with
  | Some createdAtMatch =>
      let dateStr := group 1 createdAtMatch in
      match Date_parse dateStr with
      | Some dateObj =>
          let yyyy := String_of_Z (Date.getFullYear dateObj) in
          let mm := padStart0 2 (String_of_Z (Date.getMonth dateObj + 1)) in
          let dd := padStart0 2 (String_of_Z (Date.getDate dateObj)) in
          let hh := padStart0 2 (String_of_Z (Date.getHours dateObj)) in
          let min := padStart0 2 (String_of_Z (Date.getMinutes dateObj)) in
          let ss := padStart0 2 (String_of_Z (Date.getSeconds dateObj)) in
          Some (timestamp yyyy mm dd hh min ss)
      | None => None
      end
  | None => None
  end.

(** part_001:38-94 *)
Definition candidate (text : jsstring) : record :=
  let normalizedText := normalize text in
  {| type := js "Received";
     from := fax_any_length normalizedText;
     to := Some FIXED_NUMBER;
     subject := SUBJECT;
     sender := physician_with_fallback normalizedText;
     createdAt := extract_createdAt normalizedText;
     attachment := None;
     file_extension := None |}.

(** part_001:36-104 *)
Definition parsePdfText (text : jsstring) : option record :=
  let record := candidate text in
  if complete from record then Some record else None.

End host.


Definition prepareRecordsForUpload pdfParse toBase64 Date_parse ok :=
  prepareRecordsForUpload_no_list pdfParse toBase64 (pure_parser (parsePdfText Date_parse)) ok.

Definition main pdfParse toBase64 Date_parse ok :=
  main_no_failed_folder pdfParse toBase64 (pure_parser (parsePdfText Date_parse)) ok.

End ReceivedFrom.

(** * The six programs, side by side *)

Inductive Program :=
| sent_js_1      (* src/sent.js, first program *)
| sent_js_2      (* src/sent.js, second program *)
| part_000_1     (* src/unnamed/part_000, first program *)
| part_000_2     (* src/unnamed/part_000, second program *)
| part_001       (* src/unnamed/part_001 *)
| received_js.   (* src/received.js *)

Section Programs.

Variable pdfParse : content -> option jsstring.
Variable toBase64 : content -> jsstring.
Variable Date_parse : jsstring -> option Z.

Definition parser_of (p : Program) : Parser :=
  match p with
  | sent_js_1 => SentExamDate.parsePdfText
  | sent_js_2 => pure_parser ReceivedNameOnly.parsePdfText
  | part_000_1 => pure_parser SentTimestamp.parsePdfText
  | part_000_2 => pure_parser SentTimestampPrevDay.parsePdfText
  | part_001 => pure_parser (ReceivedFrom.parsePdfText Date_parse)
  | received_js => pure_parser ReceivedTo.parsePdfText
  end.

Definition prepare_of (p : Program) (ok : Relocation)
    : list filename -> FileSystem -> Rng -> list record * FileSystem * Rng :=
  match p with
  | sent_js_1 => SentExamDate.prepareRecordsForUpload pdfParse toBase64 ok
  | sent_js_2 => ReceivedNameOnly.prepareRecordsForUpload pdfParse toBase64 ok
  | part_000_1 => SentTimestamp.prepareRecordsForUpload pdfParse toBase64 ok
  | part_000_2 => SentTimestampPrevDay.prepareRecordsForUpload pdfParse toBase64 ok
  | part_001 => ReceivedFrom.prepareRecordsForUpload pdfParse toBase64 Date_parse ok
  | received_js => ReceivedTo.prepareRecordsForUpload pdfParse toBase64 ok
  end.

Definition main_of (p : Program) (ok : Relocation) (fs0 : FileSystem) (g : Rng) : option Outcome :=
  match p with
  | sent_js_1 => SentExamDate.main pdfParse toBase64 ok fs0 g
  | sent_js_2 => ReceivedNameOnly.main pdfParse toBase64 ok fs0 g
  | part_000_1 => SentTimestamp.main pdfParse toBase64 ok fs0 g
  | part_000_2 => SentTimestampPrevDay.main pdfParse toBase64 ok fs0 g
  | part_001 => Some (ReceivedFrom.main pdfParse toBase64 Date_parse ok fs0 g)
  | received_js => Some (ReceivedTo.main pdfParse toBase64 ok fs0 g)
  end.

(** part_001 has no folder for the failed files. *)
Definition has_failed_folder (p : Program) : bool :=
  match p with
  | part_001 => false
  | _ => true
  end.

End Programs.

(** The programs whose records have [type: 'Received']. *)
Definition is_received (p : Program) : bool :=
  match p with
  | sent_js_2 | part_001 | received_js => true
  | _ => false
  end.

(** The party a program extracts. *)
Definition party_of (p : Program) : record -> option jsstring :=
  match p with
  | sent_js_1 | part_000_1 | part_000_2 | part_001 => from
  | sent_js_2 | received_js => to
  end.

(** * The vocabulary of the statements *)

(** ** Records and parsers *)

(** A parser accepts exactly the complete candidates: it returns the
    candidate record when [createdAt], the extracted party and [sender] are
    all truthy, that is neither [null] nor the empty string, and [null]
    otherwise, in particular when one of the three is [null]. *)
Definition accepts_complete (party : record -> option jsstring)
    (parse : jsstring -> option record) (candidate : jsstring -> record) : Prop :=
  forall text,
    (forall r, parse text = Some r <-> r = candidate text /\ complete party r = true)
    /\ (createdAt (candidate text) = None \/ party (candidate text) = None
        \/ sender (candidate text) = None -> parse text = None).

(** Every record of the upload list is complete. *)
Definition prepares_complete (party : record -> option jsstring)
    (prepare : list filename -> FileSystem -> Rng -> list record * FileSystem * Rng) : Prop :=
  forall pdfFiles fs0 g,
    Forall (fun r => complete party r = true) (prepare pdfFiles fs0 g).1.1.

(** The number of batches: [Math.ceil(n / b)]. *)
Definition ceil_div (n b : nat) : nat := (n + b - 1) / b.

(** ** Matches *)

(** [lang r w caps]: the pattern [r] matches exactly the string [w], and
    its groups capture [caps] (the last group first). *)
Fixpoint lang (r : regex) (w : jsstring) (caps : captures) : Prop :=
  match r with
  | Eps => w = [] /\ caps = []
  | Chr c => (exists x, w = [x] /\ c x = true) /\ caps = []
  | Cat r1 r2 =>
      exists w1 w2 c1 c2, w = w1 ++ w2 /\ caps = c2 ++ c1 /\ lang r1 w1 c1 /\ lang r2 w2 c2
  | Alt r1 r2 => lang r1 w caps \/ lang r2 w caps
  | Rep c lo hi =>
      (Forall (fun x => c x = true) w /\ (lo <= length w)%nat
       /\ match hi with Some h => (length w <= h)%nat | None => True end)
      /\ caps = []
  | Cap i r1 => exists c1, lang r1 w c1 /\ caps = (i, w) :: c1
  end.

Definition all_digits (w : jsstring) : Prop := Forall (fun x => is_digit x = true) w.

(** Equality of strings up to the case of the ASCII letters. *)
Definition equal_ignoring_case (w : jsstring) (s : string) : Prop :=
  Forall2 (fun a x => is_char_i a x = true) (list_ascii_of_string s) w.

(** [M/D/YYYY H:MM AM] or [PM], from its six fields. *)
Definition timestamp_text (month day year hour minute period : jsstring) : jsstring :=
  month ++ js "/" ++ day ++ js "/" ++ year ++ js " " ++ hour ++ js ":" ++ minute ++ js " "
  ++ period.

Definition timestamp_shape (month day year hour minute period : jsstring) : Prop :=
  (all_digits month /\ (1 <= length month <= 2)%nat)
  /\ (all_digits day /\ (1 <= length day <= 2)%nat)
  /\ (all_digits year /\ (4 <= length year <= 4)%nat)
  /\ (all_digits hour /\ (1 <= length hour <= 2)%nat)
  /\ (all_digits minute /\ (2 <= length minute <= 2)%nat)
  /\ (period = js "AM" \/ period = js "PM").

(** [M/D/YYYY], from its three fields. *)
Definition date_text (month day year : jsstring) : jsstring :=
  month ++ js "/" ++ day ++ js "/" ++ year.

Definition date_shape (month day year : jsstring) : Prop :=
  (all_digits month /\ (1 <= length month <= 2)%nat)
  /\ (all_digits day /\ (1 <= length day <= 2)%nat)
  /\ (all_digits year /\ (4 <= length year <= 4)%nat).

(** The chain of the sender: the first pattern, and the second one only
    when the first does not match. *)
Definition first_match_wins (primary fallback : regex) (normalizedText : jsstring)
    : option jsstring :=
  match match_ primary normalizedText with
  | Some m => Some (trim (group 1 m))
  | None =>
      match match_ fallback normalizedText with
      | Some m => Some (trim (group 1 m))
      | None => None
      end
  end.

(** ** Dates and times *)

(** The three numbers of [getRandomTime] as functions of the draw. *)
Definition hour_of (r : Z) : Z := Math_floor (double_add (double_mul r (17 - 8)%Z) 8%Z).
Definition sixtieth_of (r : Z) : Z := Math_floor (double_mul r 60%Z).

(** No draw is one of the two doubles at which the hour rounds to 17. *)
Definition below_tie (g : Rng) : Prop := forall n, (draws g n mod one <= one - 3)%Z.

(** [HH:MM:SS] *)
Definition clock (hh mm ss : Z) : jsstring :=
  padStart0 2 (String_of_Z hh) ++ js ":" ++ padStart0 2 (String_of_Z mm) ++ js ":"
  ++ padStart0 2 (String_of_Z ss).

(** The day before a date of the calendar, as (month, day, year): the last
    day of the previous month on the first of a month, 31 December of the
    previous year on 1 January. *)
Definition previous_day (month day year : Z) : Z * Z * Z :=
  if (1 <? day)%Z then (month, (day - 1)%Z, year)
  else if (1 <? month)%Z then ((month - 1)%Z, days_in_month year (month - 1), year)
  else (12%Z, 31%Z, (year - 1)%Z).



(** ** Files *)

(** No name is in two of the three folders. *)
Definition exclusive (fs : FileSystem) : Prop :=
  forall f,
    (is_Some (pdf_files fs !! f) -> processed fs !! f = None /\ failed_uploads fs !! f = None)
    /\ (is_Some (processed fs !! f) -> failed_uploads fs !! f = None).

(** The entries of [f] are the same in [fs] and [fs']. *)
Definition same_at (f : filename) (fs fs' : FileSystem) : Prop :=
  pdf_files fs' !! f = pdf_files fs !! f
  /\ processed fs' !! f = processed fs !! f
  /\ failed_uploads fs' !! f = failed_uploads fs !! f.

(** The outcome of extraction and parsing for a content: rejected whatever
    the random source, or accepted from a given one. *)
Definition rejected (pdfParse : content -> option jsstring) (parsePdfText : Parser)
    (c : content) : Prop :=
  match pdfParse c with
  | Some ((_ :: _) as pdfText) => forall g, (parsePdfText pdfText g).1 = None
  | _ => True
  end.

Definition accepted (pdfParse : content -> option jsstring) (parsePdfText : Parser)
    (c : content) (g : Rng) (r : record) (g' : Rng) : Prop :=
  exists pdfText,
    pdfParse c = Some pdfText /\ pdfText <> [] /\ parsePdfText pdfText g = (Some r, g').

(** The random source when the loop of [prepareRecordsForUpload] reaches a
    file, the files [before] it in the listing done. *)
Definition rng_after (pdfParse : content -> option jsstring) (toBase64 : content -> jsstring)
    (parsePdfText : Parser) (ok : Relocation) (before : list filename)
    (fs0 : FileSystem) (g : Rng) : Rng :=
  rng (process_files pdfParse toBase64 parsePdfText ok before
         {| fs := fs0; records := []; failedFiles := []; rng := g |}).


(** ** The scenario of the Sent program with a date only *)

(** The record of the scenario: the sender's number, the day before
    3/15/2024 with a time from 08:00:00 to 16:59:59, and the constants. *)
Definition scenario_record (r : record) : Prop :=
  from r = Some (js "(207) 555 - 1234")
  /\ sender r = Some (js "RIGHT CHOICE MEDICAL SUPPLY")
  /\ to r = Some (js "(207) 261 - 0798")
  /\ exists hh mm ss : Z,
       (8 <= hh <= 16)%Z /\ (0 <= mm <= 59)%Z /\ (0 <= ss <= 59)%Z
       /\ createdAt r = Some (js "2024-03-14 " ++ clock hh mm ss).

(** ** Fields, folders and runs *)

(** [(ddd) ddd - dddd] *)
Definition formatted_number (s : jsstring) : Prop :=
  exists a b c,
    (all_digits a /\ length a = 3%nat) /\ (all_digits b /\ length b = 3%nat)
    /\ (all_digits c /\ length c = 4%nat)
    /\ s = js "(" ++ a ++ js ") " ++ b ++ js " - " ++ c.

(** The programs that keep a number only when it has ten digits. *)
Definition checks_ten_digits (p : Program) : bool :=
  match p with
  | sent_js_2 | received_js => true
  | _ => false
  end.

(** The capture of the match [m] found in [text] is a run of the class
    [c] that goes as far as the class does: what follows it in the text
    does not start with a code unit of the class. *)
Definition runs_on (c : N -> bool) (text : jsstring) (m : MatchResult) : Prop :=
  exists before label after,
    text = before ++ label ++ group 1 m ++ after
    /\ whole m = label ++ group 1 m
    /\ group 1 m <> []
    /\ Forall (fun x => c x = true) (group 1 m)
    /\ match after with
       | [] => True
       | x :: _ => c x = false
       end.

(** A date of the calendar. *)
Definition calendar_date (month day year : Z) : Prop :=
  (1 <= month <= 12)%Z /\ (1 <= day <= days_in_month year month)%Z.

(** A group of [k] digits, and the form [YYYY-MM-DD HH:MM:SS]. *)
Definition digit_group (k : nat) (w : jsstring) : Prop :=
  all_digits w /\ length w = k.

Definition datetime_format (s : jsstring) : Prop :=
  exists yyyy mm dd hh min ss,
    digit_group 4 yyyy /\ digit_group 2 mm /\ digit_group 2 dd
    /\ digit_group 2 hh /\ digit_group 2 min /\ digit_group 2 ss
    /\ s = timestamp yyyy mm dd hh min ss.

(** The programs that write the date they read: the second program of
    sent.js, received.js and the first program of part_000. *)
Definition keeps_the_date (p : Program) : bool :=
  match p with
  | sent_js_2 | part_000_1 | received_js => true
  | _ => false
  end.

(** The programs that write the fields of a [Date] object: the second
    program of part_000 and part_001. *)
Definition formats_a_Date (p : Program) : bool :=
  match p with
  | part_000_2 | part_001 => true
  | _ => false
  end.

(** The programs that post through [batchUpload], and the one that ends
    with the sweep of [moveFailedFiles]. *)
Definition uses_batches (p : Program) : bool :=
  match p with
  | sent_js_1 | sent_js_2 | part_000_1 | part_000_2 => true
  | part_001 | received_js => false
  end.

Definition sweeps_up (p : Program) : bool :=
  match p with
  | received_js => true
  | _ => false
  end.

(** The content of a file, in whichever folder it is. *)
Definition whereabouts (f : filename) (fs : FileSystem) : option content :=
  match pdf_files fs !! f with
  | Some c => Some c
  | None =>
      match processed fs !! f with
      | Some c => Some c
      | None => failed_uploads fs !! f
      end
  end.

(** The state from which the loop of [prepareRecordsForUpload] starts. *)
Definition start (fs0 : FileSystem) (g : Rng) : Loop :=
  {| fs := fs0; records := []; failedFiles := []; rng := g |}.

(** The fields a program sets to a constant, with the two that
    [prepareRecordsForUpload] adds. *)
Definition fixed_fields (p : Program) (r : record) : Prop :=
  type r = (if is_received p then js "Received" else js "Sent")
  /\ subject r = SUBJECT
  /\ match p with
     | sent_js_1 | part_000_1 | part_000_2 =>
         to r = Some FIXED_NUMBER /\ sender r = Some (js "RIGHT CHOICE MEDICAL SUPPLY")
     | sent_js_2 | received_js => from r = Some FIXED_NUMBER
     | part_001 => to r = Some FIXED_NUMBER
     end
  /\ file_extension r = Some (js "pdf")
  /\ attachment r <> None.

(** The program whose parser calls [Math.random]. *)
Definition draws_random (p : Program) : bool :=
  match p with
  | sent_js_1 => true
  | _ => false
  end.

(** The record of one file of [pdf_files/], read by itself: its text
    extracted and parsed, its bytes attached. *)
Definition record_of (pdfParse : content -> option jsstring) (toBase64 : content -> jsstring)
    (parse : jsstring -> option record) (fs0 : FileSystem) (file : filename) : option record :=
  match pdf_files fs0 !! file with
  | Some c =>
      match pdfParse c with
      | Some ((_ :: _) as pdfText) =>
          match parse pdfText with
          | Some r => Some (complete_record r (Some (toBase64 c)))
          | None => None
          end
      | _ => None
      end
  | None => None
  end.

(** Every move to [processed/] is refused, every other one carried out. *)
Definition only_to_failed : Relocation :=
  fun folder _ =>
    match folder with
    | processedFolder => false
    | failedFolder => true
    end.

(** The pattern [r] matches somewhere in [s]. *)
Definition occurs (r : regex) (s : jsstring) : Prop :=
  exists before w after caps, s = before ++ w ++ after /\ lang r w caps.

(** The patterns a program looks for: the date, the number, the name. *)
Definition date_pattern (p : Program) : regex :=
  match p with
  | sent_js_1 => SentExamDate.re_createdAt
  | part_001 => ReceivedFrom.re_createdAt
  | _ => re_timestamp
  end.

Definition number_pattern (p : Program) : regex :=
  if checks_ten_digits p then re_to else re_fax.

Definition name_patterns (p : Program) : list regex :=
  match p with
  | sent_js_2 => [re_physician_name]
  | part_001 | received_js => [re_physician_information; re_physician_name]
  | _ => []
  end.

(** ** A small world for the examples *)

(** The bytes of a file are its text, the host parses no date, and every
    move is carried out, or none. *)
Definition text_files : content -> option jsstring := fun c => Some c.
Definition raw_bytes : content -> jsstring := fun c => c.
Definition no_dates : jsstring -> option Z := fun _ => None.
Definition always : Relocation := fun _ _ => true.
Definition never : Relocation := fun _ _ => false.

(** One file in [pdf_files/], the two other folders empty. *)
Definition incoming (file : filename) (c : content) : FileSystem :=
  {| pdf_files := {[ file := c ]}; processed := ∅; failed_uploads := ∅ |}.

(** A random source that always returns [k / 2^53]. *)
Definition constant_rng (k : Z) : Rng := {| draws := fun _ => k; drawn := 0 |}.

(** A random source whose first draw is [k / 2^53] and the others 0. *)
Definition first_draw (k : Z) : Rng :=
  {| draws := fun n => match n with O => k | S _ => 0%Z end; drawn := 0 |}.

(** A text with a date, a timestamp, a fax number and a physician. *)
Definition sample_text : jsstring :=
  js "Exam Date: 3/15/2024 3/15/2024 9:30 PM Fax: 207-555-1234 PHYSICIAN NAME: JOHN DOE".

Definition sample_record (n : N) : record :=
  {| type := js "Sent"; to := Some FIXED_NUMBER; from := Some (formatPhoneNumber (js "2075551234"));
     subject := SUBJECT; sender := Some (js "RIGHT CHOICE MEDICAL SUPPLY");
     createdAt := Some (js "2024-03-14 09:30:0" ++ [(48 + n)%N]);
     attachment := Some []; file_extension := Some (js "pdf") |}.

(** * Properties *)

(** ** The phone number format *)

(** C5. A string of ten code units, so every string of ten digits, is
    formatted as [(ddd) ddd - dddd] from [d[0:3]], [d[3:6]] and [d[6:10]];
    a string of any other length is returned as it is. *)
Theorem formatPhoneNumber_spec :
  (forall d : jsstring, length d = 10%nat ->
     formatPhoneNumber d
     = js "(" ++ slice 0 3 d ++ js ") " ++ slice 3 6 d ++ js " - " ++ slice 6 10 d)
  /\ (forall s : jsstring, length s <> 10%nat -> formatPhoneNumber s = s).
Proof.
  split.
  - intros d Hd. unfold formatPhoneNumber.
    rewrite bool_decide_eq_true_2 by exact Hd.
    do 5 f_equal. unfold slice_from, slice.
    symmetry. apply take_ge. rewrite length_drop. lia.
  - intros s Hs. unfold formatPhoneNumber.
    now rewrite bool_decide_eq_false_2.
Qed.

Lemma formatPhoneNumber_spec_witness :
  formatPhoneNumber (js "2075551234") = js "(207) 555 - 1234"
  /\ formatPhoneNumber (js "20755512345") = js "20755512345".
Proof.
  destruct formatPhoneNumber_spec as [H10 Hid]. split.
  - rewrite (H10 (js "2075551234")); reflexivity.
  - apply Hid. vm_compute. lia.
Defined.

(** ** The batches *)

Lemma ceil_div_step (n b : nat) :
  (0 < b)%nat -> (0 < n)%nat -> ceil_div n b = S (ceil_div (n - b) b).
Proof.
  intros Hb Hn. unfold ceil_div.
  destruct (decide (n <= b)%nat) as [Hle|Hgt].
  - replace (n - b + b - 1)%nat with (b - 1)%nat by lia.
    rewrite (Nat.div_small (b - 1) b) by lia.
    symmetry. apply (Nat.div_unique _ _ _ (n - 1)); lia.
  - replace (n + b - 1)%nat with ((n - b + b - 1) + 1 * b)%nat by lia.
    rewrite Nat.div_add by lia. lia.
Qed.

Lemma batchUpload_from_spec (records : list record) (batchSize : nat) :
  (0 < batchSize)%nat ->
  forall fuel i, (length records - i <= fuel)%nat ->
  exists batches,
    batchUpload_from fuel records batchSize i = Some batches
    /\ concat batches = drop i records
    /\ Forall (fun batch => (0 < length batch <= batchSize)%nat) batches
    /\ length batches = ceil_div (length records - i) batchSize.
Proof.
  intros HB. induction fuel as [|fuel IH]; intros i Hfuel.
  - exists []. cbn. rewrite bool_decide_eq_false_2 by lia.
    repeat split; [|constructor|].
    + rewrite drop_ge by lia. reflexivity.
    + replace (length records - i)%nat with 0%nat by lia.
      unfold ceil_div. cbn. symmetry. apply Nat.div_small. lia.
  - cbn. case_bool_decide as Hi.
    + destruct (IH (i + batchSize)%nat) as (batches & -> & Hcat & Hall & Hlen); [lia|].
      eexists; split; [reflexivity|]. repeat split.
      * cbn. rewrite Hcat. unfold slice.
        replace (i + batchSize - i)%nat with batchSize by lia.
        rewrite <- drop_drop. apply take_drop.
      * constructor; [|exact Hall]. unfold slice.
        rewrite length_take, length_drop. lia.
      * cbn. rewrite Hlen.
        rewrite (ceil_div_step (length records - i) batchSize) by lia.
        do 2 f_equal. lia.
    + exists []. repeat split; [|constructor|].
      * rewrite drop_ge by lia. reflexivity.
      * replace (length records - i)%nat with 0%nat by lia.
        unfold ceil_div. cbn. symmetry. apply Nat.div_small. lia.
Qed.

(** C3. With a positive batch size [B], [batchUpload] ends and posts
    [ceil(N / B)] batches of at most [B] records whose concatenation, in
    the order posted, is the list of records. *)
Theorem batchUpload_partition (records : list record) (B : nat) :
  (0 < B)%nat ->
  exists batches,
    batchUpload (length records) records B = Some batches
    /\ length batches = ceil_div (length records) B
    /\ Forall (fun batch => (length batch <= B)%nat) batches
    /\ concat batches = records.
Proof.
  intros HB.
  destruct (batchUpload_from_spec records B HB (length records) 0%nat)
    as (batches & Hrun & Hcat & Hall & Hlen); [lia|].
  exists batches. repeat split.
  - exact Hrun.
  - rewrite Hlen. f_equal. lia.
  - eapply Forall_impl; [exact Hall|]. cbn. intros; lia.
  - rewrite Hcat. apply drop_0.
Qed.

Lemma batchUpload_partition_witness :
  exists batches,
    batchUpload 3 [sample_record 1; sample_record 2; sample_record 3] 2 = Some batches
    /\ length batches = 2%nat
    /\ Forall (fun batch => (length batch <= 2)%nat) batches
    /\ concat batches = [sample_record 1; sample_record 2; sample_record 3].
Proof.
  apply (batchUpload_partition [sample_record 1; sample_record 2; sample_record 3] 2). lia.
Defined.

(** ** Validity of a record *)

Ltac parse_iff :=
  let E := fresh "E" in
  match goal with
  | |- context [complete ?party ?r] =>
      destruct (complete party r) eqn:E; cbn; split;
      [ intros [= <-]; auto
      | intros [-> _]; reflexivity
      | intros [=]
      | intros [-> ?]; congruence ]
  end.

Lemma SentExamDate_parse_iff text g r :
  (SentExamDate.parsePdfText text g).1 = Some r
  <-> r = (SentExamDate.candidate text g).1 /\ complete from r = true.
Proof.
  unfold SentExamDate.parsePdfText.
  destruct (SentExamDate.candidate text g) as [c g']. cbn [fst].
  parse_iff.
Qed.

Lemma SentTimestamp_parse_iff text r :
  SentTimestamp.parsePdfText text = Some r
  <-> r = SentTimestamp.candidate text /\ complete from r = true.
Proof. unfold SentTimestamp.parsePdfText. cbv zeta. parse_iff. Qed.

Lemma SentTimestampPrevDay_parse_iff text r :
  SentTimestampPrevDay.parsePdfText text = Some r
  <-> r = SentTimestampPrevDay.candidate text /\ complete from r = true.
Proof. unfold SentTimestampPrevDay.parsePdfText. cbv zeta. parse_iff. Qed.

Lemma ReceivedNameOnly_parse_iff text r :
  ReceivedNameOnly.parsePdfText text = Some r
  <-> r = ReceivedNameOnly.candidate text /\ complete to r = true.
Proof. unfold ReceivedNameOnly.parsePdfText. cbv zeta. parse_iff. Qed.

Lemma ReceivedTo_parse_iff text r :
  ReceivedTo.parsePdfText text = Some r
  <-> r = ReceivedTo.candidate text /\ complete to r = true.
Proof. unfold ReceivedTo.parsePdfText. cbv zeta. parse_iff. Qed.

Lemma ReceivedFrom_parse_iff Date_parse text r :
  ReceivedFrom.parsePdfText Date_parse text = Some r
  <-> r = ReceivedFrom.candidate Date_parse text /\ complete from r = true.
Proof. unfold ReceivedFrom.parsePdfText. cbv zeta. parse_iff. Qed.

Lemma complete_non_null party r :
  complete party r = true ->
  createdAt r <> None /\ party r <> None /\ sender r <> None.
Proof.
  unfold complete. intros H.
  apply andb_prop in H as [H Hs]. apply andb_prop in H as [Hc Hp].
  repeat split; intros E; rewrite E in *; discriminate.
Qed.

Section PipelineFacts.

Variable pdfParse : content -> option jsstring.
Variable toBase64 : content -> jsstring.
Variable parsePdfText : Parser.
Variable ok : Relocation.

Abbreviation step := (process_file pdfParse toBase64 parsePdfText ok).
Abbreviation steps := (process_files pdfParse toBase64 parsePdfText ok).

Lemma process_files_app l1 l2 st :
  steps (l1 ++ l2) st = steps l2 (steps l1 st).
Proof. apply foldl_app. Qed.

(** Only what the parser returned is pushed on [records]. *)
Lemma process_files_records (Q : record -> Prop) :
  (forall text g r a, (parsePdfText text g).1 = Some r -> Q (complete_record r a)) ->
  forall pdfFiles st,
    Forall Q (records st) -> Forall Q (records (steps pdfFiles st)).
Proof.
  intros HQ pdfFiles. induction pdfFiles as [|file l IH]; intros st Hst; [exact Hst|].
  cbn. apply IH. unfold process_file.
  destruct (extractPdfText pdfParse (fs st) file) as [[|c t]|]; cbn; try exact Hst.
  destruct (parsePdfText (c :: t) (rng st)) as [[r|] g] eqn:E; cbn; try exact Hst.
  apply Forall_app. split; [exact Hst|]. constructor; [|constructor].
  apply (HQ (c :: t) (rng st)). now rewrite E.
Qed.

Lemma main_batch_uploads fs0 g :
  exists batches,
    main_batch pdfParse toBase64 parsePdfText ok fs0 g
    = Some {| uploads := batches;
              files := (prepareRecordsForUpload pdfParse toBase64 parsePdfText ok (pdf_listing fs0) fs0 g).1.2 |}
    /\ concat batches
       = (prepareRecordsForUpload pdfParse toBase64 parsePdfText ok (pdf_listing fs0) fs0 g).1.1.
Proof.
  unfold main_batch.
  destruct (prepareRecordsForUpload pdfParse toBase64 parsePdfText ok (pdf_listing fs0) fs0 g)
    as [[recs fs1] g1]. cbn [fst snd].
  case_bool_decide as Hn.
  - destruct (batchUpload_from_spec recs 100 ltac:(lia) (length recs) 0%nat)
      as (batches & Hrun & Hcat & _); [lia|].
    unfold batchUpload. rewrite Hrun.
    exists batches. split; [reflexivity|]. now rewrite Hcat, drop_0.
  - exists []. split; [reflexivity|]. destruct recs; [reflexivity|cbn in Hn; lia].
Qed.

End PipelineFacts.

Lemma accepts_complete_intro party parse candidate :
  (forall text r, parse text = Some r <-> r = candidate text /\ complete party r = true) ->
  accepts_complete party parse candidate.
Proof.
  intros H text. split; [apply H|].
  intros Hnull. destruct (parse text) as [r|] eqn:E; [|reflexivity].
  apply H in E as [-> Hc]. apply complete_non_null in Hc. tauto.
Qed.

Lemma prepares_complete_list party pdfParse toBase64 (parse : Parser) ok :
  (forall r a, complete party (complete_record r a) = complete party r) ->
  (forall text g r, (parse text g).1 = Some r -> complete party r = true) ->
  prepares_complete party (prepareRecordsForUpload pdfParse toBase64 parse ok)
  /\ prepares_complete party (prepareRecordsForUpload_no_list pdfParse toBase64 parse ok).
Proof.
  intros Hparty Hparse.
  split; intros pdfFiles fs0 g; cbn;
    (apply process_files_records; [|constructor]);
    intros text g' r a Hr; rewrite Hparty; eauto.
Qed.

(** ** What the matcher finds *)

Lemma rep_sound {A} c (k : jsstring -> option A) a : forall s lo hi,
  rep c lo hi s k = Some a ->
  exists w s', s = w ++ s' /\ lang (Rep c lo hi) w [] /\ k s' = Some a.
Proof.
  induction s as [|x s IH]; intros lo hi H; cbn [rep] in H.
  - case_bool_decide as Hlo; [|discriminate]. subst lo.
    exists [], []. cbn. repeat split; try done; try lia. destruct hi; [lia|done].
  - assert (Hstop : (if bool_decide (lo = 0%nat) then k (x :: s) else None) = Some a ->
              exists w s', x :: s = w ++ s' /\ lang (Rep c lo hi) w [] /\ k s' = Some a).
    { intros H'. case_bool_decide as Hlo; [|discriminate]. subst lo.
      exists [], (x :: s). cbn. repeat split; try done; try lia. destruct hi; [lia|done]. }
    destruct (c x) eqn:Hx; cbn [andb] in H; [|exact (Hstop H)].
    destruct (bool_decide (hi = Some 0%nat)) eqn:Ehi; cbn [negb] in H; [exact (Hstop H)|].
    apply bool_decide_eq_false_1 in Ehi.
    destruct (rep c (pred lo) (pred <$> hi) s k) as [a'|] eqn:E; [|exact (Hstop H)].
    injection H as ->.
    destruct (IH _ _ E) as (w & s' & -> & ((Hw & Hlo & Hh) & _) & Hk).
    exists (x :: w), s'. cbn. repeat split; try done.
    + now constructor.
    + lia.
    + destruct hi as [[|h]|]; cbn in *; try done. lia.
Qed.

Lemma rep_complete {A} c (k : jsstring -> option A) s' : forall w lo hi,
  lang (Rep c lo hi) w [] -> k s' <> None -> rep c lo hi (w ++ s') k <> None.
Proof.
  induction w as [|x w IH]; intros lo hi ((Hw & Hlo & Hh) & _) Hk.
  - cbn in Hlo. assert (lo = 0%nat) as -> by lia. cbn [app].
    destruct s' as [|y s']; cbn [rep]; [now rewrite bool_decide_eq_true_2|].
    destruct (c y && negb (bool_decide (hi = Some 0%nat))); [|now rewrite bool_decide_eq_true_2].
    destruct (rep c _ _ s' k); [done|now rewrite bool_decide_eq_true_2].
  - apply Forall_cons in Hw as [Hx Hw]. cbn [app rep]. rewrite Hx. cbn [andb].
    rewrite bool_decide_eq_false_2; cbn [negb].
    + specialize (IH (pred lo) (pred <$> hi)).
      destruct (rep c (pred lo) (pred <$> hi) (w ++ s') k); [done|].
      exfalso. apply IH; [|done|done].
      cbn in *. repeat split; try done; try lia.
      destruct hi as [h|]; cbn in *; [lia|done].
    + intros ->. cbn in Hh. lia.
Qed.

(** What the matcher returns comes from a match of the pattern. *)
Lemma rmatch_sound {A} r : forall s caps (k : jsstring -> captures -> option A) a,
  rmatch r s caps k = Some a ->
  exists w s' c1, s = w ++ s' /\ lang r w c1 /\ k s' (c1 ++ caps) = Some a.
Proof.
  induction r as [|c|r1 IH1 r2 IH2|r1 IH1 r2 IH2|c lo hi|i r1 IH1]; intros s caps k a H;
    cbn [rmatch] in H.
  - exists [], s, []. cbn. done.
  - destruct s as [|x s]; [discriminate|]. destruct (c x) eqn:Hx; [|discriminate].
    exists [x], s, []. cbn. repeat split; eauto.
  - apply IH1 in H as (w1 & s1 & c1 & -> & H1 & H).
    apply IH2 in H as (w2 & s2 & c2 & -> & H2 & H).
    exists (w1 ++ w2), s2, (c2 ++ c1). rewrite <- !app_assoc. repeat split; [|done].
    cbn. eauto 10.
  - destruct (rmatch r1 s caps k) as [a'|] eqn:E.
    + injection H as ->. apply IH1 in E as (w & s' & c1 & -> & H1 & H).
      exists w, s', c1. cbn. eauto.
    + apply IH2 in H as (w & s' & c1 & -> & H2 & H).
      exists w, s', c1. cbn. eauto.
  - apply rep_sound in H as (w & s' & -> & Hw & H). exists w, s', []. done.
  - apply IH1 in H as (w & s' & c1 & -> & H1 & H).
    rewrite length_app, Nat.add_sub, take_app_length in H.
    exists w, s', ((i, w) :: c1). cbn. eauto.
Qed.

(** Where the pattern matches, the matcher returns something. *)
Lemma rmatch_complete {A} r : forall w s' c1 caps (k : jsstring -> captures -> option A),
  lang r w c1 -> k s' (c1 ++ caps) <> None -> rmatch r (w ++ s') caps k <> None.
Proof.
  induction r as [|c|r1 IH1 r2 IH2|r1 IH1 r2 IH2|c lo hi|i r1 IH1]; intros w s' c1 caps k H Hk;
    cbn [rmatch]; cbn [lang] in H.
  - destruct H as [-> ->]. done.
  - destruct H as [(x & -> & Hx) ->]. cbn. now rewrite Hx.
  - destruct H as (w1 & w2 & d1 & d2 & -> & -> & H1 & H2).
    rewrite <- app_assoc. eapply IH1; [exact H1|].
    eapply IH2; [exact H2|]. now rewrite app_assoc.
  - destruct H as [H|H].
    + specialize (IH1 _ s' _ caps k H Hk). now destruct (rmatch r1 (w ++ s') caps k).
    + specialize (IH2 _ s' _ caps k H Hk). now destruct (rmatch r1 (w ++ s') caps k).
  - destruct H as [H ->]. apply rep_complete; [done|exact Hk].
  - destruct H as (d1 & H1 & ->). eapply IH1; [exact H1|].
    now rewrite length_app, Nat.add_sub, take_app_length.
Qed.

Lemma match_here_sound r s m :
  match_here r s = Some m -> exists s', s = whole m ++ s' /\ lang r (whole m) (groups m).
Proof.
  unfold match_here. intros H.
  apply rmatch_sound in H as (w & s' & c1 & -> & Hw & [= <-]).
  rewrite length_app, Nat.add_sub, take_app_length, app_nil_r. cbn. eauto.
Qed.

(** A match found in a text is a match of the pattern somewhere in it. *)
Lemma match_sound r : forall s m,
  match_ r s = Some m ->
  exists pre post, s = pre ++ whole m ++ post /\ lang r (whole m) (groups m).
Proof.
  induction s as [|x s IH]; intros m H; cbn [match_] in H.
  - destruct (match_here r []) eqn:E; [|discriminate]. injection H as ->.
    apply match_here_sound in E as (s' & E & Hl). exists [], s'. done.
  - destruct (match_here r (x :: s)) eqn:E.
    + injection H as ->. apply match_here_sound in E as (s' & E & Hl). exists [], s'. done.
    + apply IH in H as (pre & post & -> & Hl). exists (x :: pre), post. done.
Qed.

(** A text with a match of the pattern in it is not left without one. *)
Lemma match_complete r w caps : forall pre post,
  lang r w caps -> match_ r (pre ++ w ++ post) <> None.
Proof.
  assert (Hhere : forall post, lang r w caps -> match_here r (w ++ post) <> None).
  { intros post H. unfold match_here. eapply rmatch_complete; [exact H|done]. }
  induction pre as [|x pre IH]; intros post H.
  - specialize (Hhere post H). cbn [app].
    destruct (w ++ post) eqn:E; cbn [match_]; now destruct (match_here r _).
  - cbn [app match_]. destruct (match_here r (x :: pre ++ w ++ post)); [done|]. now apply IH.
Qed.

(** *** The patterns of the programs *)

Lemma lang_lit1 a w caps : lang (lit (String a EmptyString)) w caps <-> w = [ch a] /\ caps = [].
Proof.
  cbn. split.
  - intros [(x & -> & Hx) ->]. apply N.eqb_eq in Hx. now subst.
  - intros [-> ->]. split; [|done]. exists (ch a). split; [done|]. apply N.eqb_refl.
Qed.

Lemma lang_digits lo hi w caps :
  lang (digits lo hi) w caps <-> (all_digits w /\ (lo <= length w <= hi)%nat) /\ caps = [].
Proof. cbn. unfold all_digits. tauto. Qed.

(** A literal matches the strings equal to it, letter case apart under [i]. *)
Lemma lang_chars (f : ascii -> N -> bool) : forall l w caps,
  lang (cat (map (fun a => Chr (f a)) l)) w caps
  <-> Forall2 (fun a x => f a x = true) l w /\ caps = [].
Proof.
  induction l as [|a l IH]; intros w caps.
  - cbn. split; [intros [-> ->]; split; [constructor|done]|].
    intros [H ->]. now apply Forall2_nil_inv_l in H.
  - destruct l as [|b l].
    + cbn. split.
      * intros [(x & -> & Hx) ->]. split; [|done]. repeat constructor. done.
      * intros [H ->]. apply Forall2_cons_inv_l in H as (x & w' & Hx & Hw & ->).
        apply Forall2_nil_inv_l in Hw as ->. eauto.
    + change (cat (map (fun a => Chr (f a)) (a :: b :: l)))
        with (Cat (Chr (f a)) (cat (map (fun a => Chr (f a)) (b :: l)))).
      cbn [lang]. split.
      * intros (w1 & w2 & c1 & c2 & -> & -> & [(x & -> & Hx) ->] & H2).
        apply IH in H2 as [H2 ->]. split; [|done]. now constructor.
      * intros [H ->]. apply Forall2_cons_inv_l in H as (x & w' & Hx & Hw & ->).
        exists [x], w', [], []. repeat split; eauto. apply IH. done.
Qed.

Lemma lang_lit_i s w caps : lang (lit_i s) w caps <-> equal_ignoring_case w s /\ caps = [].
Proof. apply lang_chars. Qed.

Lemma lang_lit s w caps : lang (lit s) w caps <-> w = js s /\ caps = [].
Proof.
  unfold lit. rewrite lang_chars. unfold js.
  enough (forall l w, Forall2 (fun a x => is_char a x = true) l w <-> w = map N_of_ascii l)
    as H by (now rewrite H).
  clear. induction l as [|a l IH]; intros w.
  - split; [intros H; now apply Forall2_nil_inv_l in H|intros ->; constructor].
  - split.
    + intros H. apply Forall2_cons_inv_l in H as (x & w' & Hx & Hw & ->).
      apply N.eqb_eq in Hx. apply IH in Hw. now subst.
    + intros ->. constructor; [apply N.eqb_refl|now apply IH].
Qed.

Lemma lang_alt rs : forall w caps,
  rs <> [] -> (lang (alt rs) w caps <-> exists r, r ∈ rs /\ lang r w caps).
Proof.
  induction rs as [|r rs IH]; intros w caps Hne; [done|].
  destruct rs as [|r' rs].
  - cbn [alt]. split; [intros H; exists r; split; [left|done]|].
    intros (r0 & Hin & H). apply list_elem_of_singleton in Hin. now subst.
  - change (alt (r :: r' :: rs)) with (Alt r (alt (r' :: rs))). cbn [lang].
    rewrite IH by done. split.
    + intros [H|(r0 & Hin & H)]; [exists r; split; [left|done]|exists r0; split; [now right|done]].
    + intros (r0 & Hin & H). apply elem_of_cons in Hin as [->|Hin]; [now left|right; eauto].
Qed.

Ltac open_lang H :=
  cbn [cat alt map lang] in H;
  repeat match goal with
    | H : exists _, _ |- _ => destruct H
    | H : _ /\ _ |- _ => destruct H
    | H : lang (lit_i _) _ _ |- _ => apply lang_lit_i in H
    | H : lang (lit _) _ _ |- _ => apply lang_lit in H
    end; subst.

(** The capture of the fax patterns is a non-empty run of the class. *)
Lemma re_fax_capture n m :
  match_ re_fax n = Some m ->
  group 1 m <> [] /\ Forall (fun x => is_digit x || is_char "-" x = true) (group 1 m).
Proof.
  intros H. apply match_sound in H as (pre & post & _ & H).
  unfold group. destruct m as [w caps]. cbn [whole groups] in *.
  unfold re_fax, spaces in H. open_lang H. cbn. rewrite bool_decide_eq_true_2 by done.
  split; [|done]. intros E; rewrite E in *; cbn in *; lia.
Qed.

Lemma re_to_capture n m :
  match_ re_to n = Some m ->
  group 1 m <> []
  /\ Forall (fun x => is_digit x || is_space x || is_char "-" x = true) (group 1 m).
Proof.
  intros H. apply match_sound in H as (pre & post & _ & H).
  unfold group. destruct m as [w caps]. cbn [whole groups] in *.
  unfold re_to, spaces in H. cbn [cat lang] in H.
  destruct H as (w1 & w2 & c1 & c2 & -> & -> & H1 & H2).
  apply lang_alt in H1 as (r & Hr & H1); [|done].
  assert (c1 = []) as ->.
  { repeat (apply elem_of_cons in Hr as [->|Hr]; [apply lang_lit_i in H1; tauto|]).
    by apply elem_of_nil in Hr. }
  open_lang H2. cbn. rewrite bool_decide_eq_true_2 by done.
  split; [|done]. intros E; rewrite E in *; cbn in *; lia.
Qed.

(** The capture of the pattern on [PHYSICIAN NAME] is a non-empty run of
    letters, white space, commas and dots: no credential is asked for. *)
Lemma re_physician_name_capture n m :
  match_ re_physician_name n = Some m ->
  group 1 m <> [] /\ Forall (fun x => name_char x = true) (group 1 m).
Proof.
  intros H. apply match_sound in H as (pre & post & _ & H).
  unfold group. destruct m as [w caps]. cbn [whole groups] in *.
  unfold re_physician_name, spaces in H. open_lang H. cbn. rewrite bool_decide_eq_true_2 by done.
  split; [|done]. intros E; rewrite E in *; cbn in *; lia.
Qed.

(** The capture of the pattern on [PHYSICIAN INFORMATION] is such a run
    followed by one of the credentials, in either case of the letters. *)
Lemma re_physician_information_capture n m :
  match_ re_physician_information n = Some m ->
  exists name credential c,
    group 1 m = name ++ credential
    /\ name <> [] /\ Forall (fun x => name_char x = true) name
    /\ c ∈ credentials /\ equal_ignoring_case credential c.
Proof.
  intros H. apply match_sound in H as (pre & post & _ & H).
  unfold group. destruct m as [w caps]. cbn [whole groups] in *.
  unfold re_physician_information, spaces in H. cbn [cat lang] in H.
  destruct H as (w1 & w2 & c1 & c2 & -> & -> & H1 & w3 & w4 & c3 & c4 & -> & -> & H3 & H4).
  apply lang_lit_i in H1 as [_ ->]. destruct H3 as [_ ->].
  destruct H4 as (c5 & (name & cred & c6 & c7 & -> & -> & ((Hn & Hlen & _) & ->) & Hc) & ->).
  apply lang_alt in Hc as (r & Hr & Hc); [|done].
  apply list_elem_of_fmap in Hr as (c & -> & Hin).
  apply lang_lit_i in Hc as [Hc ->].
  exists name, cred, c. cbn. rewrite bool_decide_eq_true_2 by done.
  repeat split; try done. intros ->. cbn in Hlen. lia.
Qed.

(** *** Timestamps *)

Lemma lang_Cat_intro r1 r2 w1 w2 c1 c2 :
  lang r1 w1 c1 -> lang r2 w2 c2 -> lang (Cat r1 r2) (w1 ++ w2) (c2 ++ c1).
Proof. intros H1 H2. cbn. eauto 10. Qed.

Lemma lang_Cap_intro i r w c : lang r w c -> lang (Cap i r) w ((i, w) :: c).
Proof. intros H. cbn. eauto. Qed.

Lemma lang_AP w caps :
  lang (Cat (Chr (fun c => is_char "A" c || is_char "P" c)) (lit "M")) w caps
  <-> (w = js "AM" \/ w = js "PM") /\ caps = [].
Proof.
  split.
  - intros H. open_lang H. split; [|done].
    match goal with
    | H : _ || _ = true |- _ =>
        apply orb_true_iff in H as [H|H]; apply N.eqb_eq in H; subst; [now left|now right]
    end.
  - intros [[->| ->] ->].
    + apply (lang_Cat_intro _ _ [ch "A"] (js "M") [] []); [cbn; eauto|now apply lang_lit].
    + apply (lang_Cat_intro _ _ [ch "P"] (js "M") [] []); [cbn; eauto|now apply lang_lit].
Qed.

Ltac close_lang :=
  repeat first
    [ apply lang_Cat_intro
    | apply lang_Cap_intro
    | apply lang_digits; split; [split; assumption|reflexivity]
    | apply lang_lit; split; reflexivity
    | apply lang_AP; split; [assumption|reflexivity] ].

Lemma re_timestamp_fields_sound w caps :
  lang re_timestamp_fields w caps ->
  exists month day year hour minute period,
    timestamp_shape month day year hour minute period
    /\ w = timestamp_text month day year hour minute period
    /\ caps = [(6, period); (5, minute); (4, hour); (3, year); (2, day); (1, month)]%nat.
Proof.
  unfold re_timestamp_fields, digits. cbn [cat]. intros H.
  repeat match type of H with
    | lang (Cat _ _) _ _ =>
        let H1 := fresh "H" in
        destruct H as (? & ? & ? & ? & -> & -> & H1 & H)
    end.
  repeat match goal with
    | H : lang (lit _) _ _ |- _ => apply lang_lit in H as [-> ->]
    | H : lang (Cap _ (Rep _ _ _)) _ _ |- _ => destruct H as (? & (? & ->) & ->)
    | H : lang (Cap _ (Cat _ _)) _ _ |- _ =>
        let c := fresh "c" in destruct H as (c & H & ->); apply lang_AP in H as [H ->]
    end.
  eexists _, _, _, _, _, _. split; [|split; reflexivity].
  unfold timestamp_shape, all_digits. tauto.
Qed.

Lemma re_timestamp_fields_complete month day year hour minute period :
  timestamp_shape month day year hour minute period ->
  exists caps, lang re_timestamp_fields (timestamp_text month day year hour minute period) caps.
Proof.
  intros ([] & [] & [] & [] & [] & ?).
  unfold re_timestamp_fields, timestamp_text. cbn [cat]. eexists. close_lang.
Qed.

Lemma re_timestamp_sound w caps :
  lang re_timestamp w caps ->
  exists month day year hour minute period,
    timestamp_shape month day year hour minute period
    /\ w = timestamp_text month day year hour minute period
    /\ caps = [(1%nat, w)].
Proof.
  unfold re_timestamp, digits. cbn [cat]. intros (c & H & ->).
  repeat match type of H with
    | lang (Cat (Chr _) (lit _)) _ _ => fail 1
    | lang (Cat _ _) _ _ =>
        let H1 := fresh "H" in
        destruct H as (? & ? & ? & ? & -> & -> & H1 & H)
    end.
  apply lang_AP in H as [H ->].
  repeat match goal with
    | H : lang (lit _) _ _ |- _ => apply lang_lit in H as [-> ->]
    | H : lang (Rep _ _ _) _ _ |- _ => destruct H as (? & ->)
    end.
  eexists _, _, _, _, _, _. split; [|split; reflexivity].
  unfold timestamp_shape, all_digits. tauto.
Qed.

Lemma re_timestamp_complete month day year hour minute period :
  timestamp_shape month day year hour minute period ->
  exists caps, lang re_timestamp (timestamp_text month day year hour minute period) caps.
Proof.
  intros ([] & [] & [] & [] & [] & ?).
  unfold re_timestamp, timestamp_text. cbn [cat]. eexists. close_lang.
Qed.

(** What [createdAt] is when the timestamp pattern matches: the fields of
    the match, the hour converted by [adjustedHour]. *)
Lemma createdAt_of_timestamp_sound normalizedText createdAt :
  createdAt_of_timestamp normalizedText = Some createdAt ->
  exists month day year hour minute period,
    timestamp_shape month day year hour minute period
    /\ createdAt
       = timestamp year (padStart0 2 month) (padStart0 2 day)
           (padStart0 2 (String_of_Z (adjustedHour hour period)))
           (padStart0 2 minute) (js "00").
Proof.
  unfold createdAt_of_timestamp.
  destruct (match_ re_timestamp normalizedText) as [m1|]; [|discriminate].
  destruct (match_ re_timestamp_fields (group 1 m1)) as [m2|] eqn:E2; [|discriminate].
  intros [= <-].
  apply match_sound in E2 as (_ & _ & _ & H).
  apply re_timestamp_fields_sound in H
    as (month & day & year & hour & minute & period & Hs & _ & Hg).
  exists month, day, year, hour, minute, period. split; [done|].
  unfold group. rewrite Hg. reflexivity.
Qed.

(** The pattern with [[AP]M] accepts the morning and the afternoon: a text
    in which a timestamp stands gets a [createdAt]. *)
Lemma createdAt_of_timestamp_complete month day year hour minute period pre post :
  timestamp_shape month day year hour minute period ->
  createdAt_of_timestamp (pre ++ timestamp_text month day year hour minute period ++ post)
  <> None.
Proof.
  intros Hs. unfold createdAt_of_timestamp.
  destruct (re_timestamp_complete _ _ _ _ _ _ Hs) as (caps & Hl).
  pose proof (match_complete _ _ _ pre post Hl) as H1.
  destruct (match_ re_timestamp _) as [m1|] eqn:E1; [clear H1|done].
  apply match_sound in E1 as (_ & _ & _ & H).
  apply re_timestamp_sound in H as (mo & d & y & h & mi & p & Hs' & Hw & Hg).
  unfold group. rewrite Hg. cbn [capture]. rewrite bool_decide_eq_true_2 by done. rewrite Hw.
  destruct (re_timestamp_fields_complete _ _ _ _ _ _ Hs') as (caps' & Hl').
  pose proof (match_complete _ _ _ [] [] Hl') as H2. rewrite app_nil_r in H2. cbn [app] in H2.
  now destruct (match_ re_timestamp_fields _).
Qed.

(** ** The 12-hour clock *)

(** C6 fails in part_001. Its pattern for [createdAt] has [[P]M] where
    the four other programs with a date and a time have [[AP]M]: a morning
    timestamp is not matched there, [createdAt] stays [null] and the record
    is rejected, where received.js and sent.js accept the same text. *)
Theorem part_001_rejects_morning_timestamps :
  let text := js "3/15/2024 9:30 AM Fax: 207-555-1234 PHYSICIAN NAME: JOHN DOE" in
  (forall Date_parse,
     match_ ReceivedFrom.re_createdAt (normalize text) = None
     /\ createdAt (ReceivedFrom.candidate Date_parse text) = None
     /\ ReceivedFrom.parsePdfText Date_parse text = None)
  /\ (createdAt <$> ReceivedTo.parsePdfText text) = Some (Some (js "2024-03-15 09:30:00"))
  /\ (createdAt <$> ReceivedNameOnly.parsePdfText text) = Some (Some (js "2024-03-15 09:30:00")).
Proof.
  cbv zeta. split; [intros Date_parse|]; repeat split; vm_compute; reflexivity.
Qed.

(** ** The random time of day *)

Local Open Scope Z_scope.

Lemma ulp_pos x : 0 < ulp x.
Proof. unfold ulp. apply Z.pow_pos_nonneg; lia. Qed.

(** Below [2 ^ (53 + j)] the doubles are at most [2 ^ j] units apart. *)
Lemma ulp_le x j : 0 <= j -> x < 2 ^ (53 + j) -> ulp x <= 2 ^ j.
Proof.
  intros Hj Hx. unfold ulp. apply Z.pow_le_mono_r; [lia|].
  destruct (Z.le_gt_cases x 0) as [H0|H0].
  - rewrite Z.log2_nonpos by exact H0. lia.
  - apply Z.log2_lt_pow2 in Hx; lia.
Qed.

Lemma ulp_divide x j c : 0 <= j -> x < 2 ^ (53 + j) -> (2 ^ j | c) -> (ulp x | c).
Proof.
  intros Hj Hx Hc. etransitivity; [|exact Hc].
  unfold ulp.
  assert (Hs : Z.max 0 (Z.log2 x - 52) <= j).
  { destruct (Z.le_gt_cases x 0) as [H0|H0].
    - rewrite Z.log2_nonpos by exact H0. lia.
    - apply Z.log2_lt_pow2 in Hx; lia. }
  exists (2 ^ (j - Z.max 0 (Z.log2 x - 52))).
  rewrite <- Z.pow_add_r by lia. f_equal. lia.
Qed.

(** Rounding moves a number by at most half the distance between doubles. *)
Lemma round_double_near x :
  0 <= x -> 2 * x - ulp x <= 2 * round_double x <= 2 * x + ulp x.
Proof.
  intros Hx. unfold round_double. cbv zeta.
  pose proof (ulp_pos x) as Hu.
  pose proof (Z.div_mod x (ulp x) ltac:(lia)) as Hdm.
  pose proof (Z.mod_pos_bound x (ulp x) Hu) as Hr.
  rewrite (Z.mul_comm (ulp x)) in Hdm.
  replace ((x / ulp x + 1) * ulp x) with (x / ulp x * ulp x + ulp x) by ring.
  generalize dependent (x / ulp x * ulp x). intros m Hdm.
  destruct (Z.ltb_spec (2 * (x mod ulp x)) (ulp x));
    [|destruct (Z.ltb_spec (ulp x) (2 * (x mod ulp x))); [|destruct (Z.even _)]]; lia.
Qed.

(** Rounding does not cross a double. *)
Lemma round_double_ge x c : 0 <= c <= x -> (ulp x | c) -> c <= round_double x.
Proof.
  intros Hc [m Hm]. unfold round_double. cbv zeta.
  pose proof (ulp_pos x) as Hu.
  assert (Hq : m <= x / ulp x).
  { apply Z.div_le_lower_bound; [exact Hu|]. rewrite Z.mul_comm. lia. }
  assert (Hq' : c <= x / ulp x * ulp x) by (subst c; nia).
  replace ((x / ulp x + 1) * ulp x) with (x / ulp x * ulp x + ulp x) by ring.
  destruct (Z.ltb_spec (2 * (x mod ulp x)) (ulp x));
    [|destruct (Z.ltb_spec (ulp x) (2 * (x mod ulp x))); [|destruct (Z.even _)]]; lia.
Qed.

Lemma getRandomTime_eq g :
  getRandomTime g
  = ((hour_of (draws g (drawn g) mod one),
      sixtieth_of (draws g (S (drawn g)) mod one),
      sixtieth_of (draws g (S (S (drawn g))) mod one)),
     {| draws := draws g; drawn := S (S (S (drawn g))) |}).
Proof. reflexivity. Qed.

Lemma one_eq : one = 9007199254740992.
Proof. reflexivity. Qed.

Lemma hour_of_range r : 0 <= r < one -> 8 <= hour_of r <= 17.
Proof.
  intros Hr. unfold hour_of, Math_floor, double_add, double_mul.
  rewrite one_eq in *.
  replace (17 - 8) with 9 by reflexivity.
  pose proof (round_double_near (r * 9) ltac:(lia)) as H1.
  pose proof (ulp_le (r * 9) 4 ltac:(lia) ltac:(change (2 ^ (53 + 4)) with 144115188075855872; lia)) as U1.
  change (2 ^ 4) with 16 in U1.
  pose proof (ulp_pos (r * 9)) as P1.
  set (a := round_double (r * 9)) in *.
  assert (Ha : 0 <= a) by (apply round_double_ge; [lia|apply Z.divide_0_r]).
  pose proof (round_double_near (a + 8 * 9007199254740992) ltac:(lia)) as H2.
  pose proof (ulp_le (a + 8 * 9007199254740992) 5 ltac:(lia)
                ltac:(change (2 ^ (53 + 5)) with 288230376151711744; lia)) as U2.
  change (2 ^ 5) with 32 in U2.
  assert (H3 : 8 * 9007199254740992 <= round_double (a + 8 * 9007199254740992)).
  { apply round_double_ge; [lia|].
    apply (ulp_divide _ 5); [lia|change (2 ^ (53 + 5)) with 288230376151711744; lia|].
    exists 2251799813685248. reflexivity. }
  split.
  - apply Z.div_le_lower_bound; lia.
  - apply Z.lt_succ_r, Z.div_lt_upper_bound; lia.
Qed.

(** Below [1 - 2^-52] the hour stays under 17. *)
Lemma hour_of_below_17 r : 0 <= r <= one - 3 -> 8 <= hour_of r < 17.
Proof.
  intros Hr. split; [apply hour_of_range; lia|].
  unfold hour_of, Math_floor, double_add, double_mul.
  rewrite one_eq in *.
  replace (17 - 8) with 9 by reflexivity.
  pose proof (round_double_near (r * 9) ltac:(lia)) as H1.
  pose proof (ulp_le (r * 9) 4 ltac:(lia) ltac:(change (2 ^ (53 + 4)) with 144115188075855872; lia)) as U1.
  change (2 ^ 4) with 16 in U1.
  set (a := round_double (r * 9)) in *.
  assert (Ha : 0 <= a) by (apply round_double_ge; [lia|apply Z.divide_0_r]).
  pose proof (round_double_near (a + 8 * 9007199254740992) ltac:(lia)) as H2.
  pose proof (ulp_le (a + 8 * 9007199254740992) 5 ltac:(lia)
                ltac:(change (2 ^ (53 + 5)) with 288230376151711744; lia)) as U2.
  change (2 ^ 5) with 32 in U2.
  apply Z.div_lt_upper_bound; lia.
Qed.

(** At the two largest doubles below 1, [1 - 2^-52] and [1 - 2^-53], the
    sum [r * 9 + 8] rounds to 17: [r * 9] rounds to [9 - 2^-49], and
    [17 - 2^-49] lies halfway between the doubles [17 - 2^-48] and [17],
    of which 17 has the even significand. *)
Lemma hour_of_17 : hour_of (one - 2) = 17 /\ hour_of (one - 1) = 17.
Proof. split; vm_compute; reflexivity. Qed.

Lemma sixtieth_of_range r : 0 <= r < one -> 0 <= sixtieth_of r < 60.
Proof.
  intros Hr. unfold sixtieth_of, Math_floor, double_mul.
  rewrite one_eq in *.
  pose proof (round_double_near (r * 60) ltac:(lia)) as H1.
  pose proof (ulp_le (r * 60) 6 ltac:(lia) ltac:(change (2 ^ (53 + 6)) with 576460752303423488; lia)) as U1.
  change (2 ^ 6) with 64 in U1.
  assert (Ha : 0 <= round_double (r * 60)) by (apply round_double_ge; [lia|apply Z.divide_0_r]).
  split.
  - apply Z.div_le_lower_bound; lia.
  - apply Z.div_lt_upper_bound; lia.
Qed.

Local Close Scope Z_scope.

(** ** Where the files end *)

Lemma same_at_refl f fs : same_at f fs fs.
Proof. repeat split. Qed.

Lemma same_at_trans f fs1 fs2 fs3 : same_at f fs1 fs2 -> same_at f fs2 fs3 -> same_at f fs1 fs3.
Proof. unfold same_at. intros (?&?&?) (?&?&?). repeat split; congruence. Qed.

Lemma renameSync_other ok folder file fs f :
  f <> file -> same_at f fs (renameSync ok folder file fs).
Proof.
  intros Hne. unfold renameSync, same_at.
  destruct (pdf_files fs !! file); [|done].
  destruct (ok folder file); [|done].
  destruct folder; cbn; rewrite ?lookup_delete_ne, ?lookup_insert_ne by done; done.
Qed.

Lemma renameSync_absent ok folder file fs :
  pdf_files fs !! file = None -> renameSync ok folder file fs = fs.
Proof. intros H. unfold renameSync. now rewrite H. Qed.

Lemma renameSync_processed ok file fs c :
  pdf_files fs !! file = Some c -> ok processedFolder file = true ->
  let fs' := renameSync ok processedFolder file fs in
  processed fs' !! file = Some c /\ pdf_files fs' !! file = None
  /\ failed_uploads fs' = failed_uploads fs.
Proof.
  intros Hc Hok. unfold renameSync. rewrite Hc, Hok. cbn.
  rewrite lookup_insert_eq, lookup_delete_eq. done.
Qed.

Lemma renameSync_failed ok file fs c :
  pdf_files fs !! file = Some c -> ok failedFolder file = true ->
  let fs' := renameSync ok failedFolder file fs in
  failed_uploads fs' !! file = Some c /\ pdf_files fs' !! file = None
  /\ processed fs' = processed fs.
Proof.
  intros Hc Hok. unfold renameSync. rewrite Hc, Hok. cbn.
  rewrite lookup_insert_eq, lookup_delete_eq. done.
Qed.

Lemma renameSync_exclusive ok folder file fs :
  exclusive fs -> exclusive (renameSync ok folder file fs).
Proof.
  intros Hex. unfold renameSync.
  destruct (pdf_files fs !! file) as [c|] eqn:Hc; [|done].
  destruct (ok folder file); [|done].
  destruct (Hex file) as [Hin _]. destruct (Hin (mk_is_Some _ _ Hc)) as [Hp Hf].
  intros f. destruct (Hex f) as [H1 H2].
  destruct (decide (f = file)) as [->|Hne]; destruct folder; cbn;
    rewrite ?lookup_delete_eq, ?lookup_insert_eq, ?lookup_delete_ne, ?lookup_insert_ne by done;
    split; try done; first [by intros [? [=]] | intros [? ?]; congruence].
Qed.

Section Routing.

Variable pdfParse : content -> option jsstring.
Variable toBase64 : content -> jsstring.
Variable parsePdfText : Parser.

Section Run.

Variable ok : Relocation.

Abbreviation step := (process_file pdfParse toBase64 parsePdfText ok).
Abbreviation steps := (process_files pdfParse toBase64 parsePdfText ok).
Abbreviation sweep := (move_to_failed ok).

Lemma process_files_cons file l st :
  steps (file :: l) st = steps l (step file st).
Proof. reflexivity. Qed.

Lemma process_file_other file st f :
  f <> file ->
  same_at f (fs st) (fs (step file st))
  /\ (f ∈ failedFiles (step file st) <-> f ∈ failedFiles st).
Proof.
  intros Hne. unfold process_file.
  destruct (extractPdfText pdfParse (fs st) file) as [[|x t]|]; cbn.
  - split; [apply same_at_refl|]. rewrite elem_of_app, list_elem_of_singleton. tauto.
  - destruct (parsePdfText (x :: t) (rng st)) as [[r|] g]; cbn.
    + split; [now apply renameSync_other|tauto].
    + split; [apply same_at_refl|]. rewrite elem_of_app, list_elem_of_singleton. tauto.
  - split; [apply same_at_refl|]. rewrite elem_of_app, list_elem_of_singleton. tauto.
Qed.

Lemma process_files_other l : forall st f,
  f ∉ l ->
  same_at f (fs st) (fs (steps l st))
  /\ (f ∈ failedFiles (steps l st) <-> f ∈ failedFiles st).
Proof.
  induction l as [|file l IH]; intros st f Hf; cbn.
  - split; [apply same_at_refl|tauto].
  - apply not_elem_of_cons in Hf as [Hne Hl].
    destruct (process_file_other file st f Hne) as [H1 H2].
    destruct (IH (step file st) f Hl) as [H3 H4].
    split; [eapply same_at_trans; eassumption|tauto].
Qed.

(** What is pushed stays. *)
Lemma process_file_grows file st :
  (exists rs, records (step file st) = records st ++ rs)
  /\ (exists fl, failedFiles (step file st) = failedFiles st ++ fl).
Proof.
  unfold process_file.
  destruct (extractPdfText pdfParse (fs st) file) as [[|x t]|]; cbn;
    [| destruct (parsePdfText (x :: t) (rng st)) as [[r|] g]; cbn |];
    split; try (eexists; reflexivity); exists []; now rewrite app_nil_r.
Qed.

Lemma process_files_grows l : forall st,
  (exists rs, records (steps l st) = records st ++ rs)
  /\ (exists fl, failedFiles (steps l st) = failedFiles st ++ fl).
Proof.
  induction l as [|file l IH]; intros st.
  - split; exists []; now rewrite app_nil_r.
  - rewrite process_files_cons.
    destruct (process_file_grows file st) as [[rs1 Hr1] [fl1 Hf1]].
    destruct (IH (step file st)) as [[rs2 Hr2] [fl2 Hf2]].
    split; eexists; [rewrite Hr2, Hr1|rewrite Hf2, Hf1]; now rewrite <- app_assoc.
Qed.

Lemma process_file_exclusive file st :
  exclusive (fs st) -> exclusive (fs (step file st)).
Proof.
  intros Hex. unfold process_file.
  destruct (extractPdfText pdfParse (fs st) file) as [[|x t]|]; cbn; try done.
  destruct (parsePdfText (x :: t) (rng st)) as [[r|] g]; cbn; try done.
  now apply renameSync_exclusive.
Qed.

Lemma process_files_exclusive l : forall st,
  exclusive (fs st) -> exclusive (fs (steps l st)).
Proof.
  induction l as [|file l IH]; intros st Hex; cbn; [done|].
  apply IH, process_file_exclusive, Hex.
Qed.

Lemma move_to_failed_exclusive l : forall fs0,
  exclusive fs0 -> exclusive (sweep l fs0).
Proof.
  induction l as [|file l IH]; intros fs0 Hex; cbn; [done|].
  apply IH, renameSync_exclusive, Hex.
Qed.

(** A rejected pdfParse parsePdfText file: nothing moves, and the name is listed as failed. *)
Lemma process_file_rejected file st c :
  pdf_files (fs st) !! file = Some c -> rejected pdfParse parsePdfText c ->
  fs (step file st) = fs st
  /\ records (step file st) = records st
  /\ file ∈ failedFiles (step file st).
Proof.
  intros Hc Hrej. unfold process_file, extractPdfText. rewrite Hc.
  unfold rejected in Hrej.
  destruct (pdfParse c) as [[|x t]|]; cbn.
  - repeat split. apply elem_of_app. right. apply list_elem_of_singleton. done.
  - specialize (Hrej (rng st)).
    destruct (parsePdfText (x :: t) (rng st)) as [[r|] g]; cbn in *; [discriminate|].
    repeat split. apply elem_of_app. right. apply list_elem_of_singleton. done.
  - repeat split. apply elem_of_app. right. apply list_elem_of_singleton. done.
Qed.

(** An accepted pdfParse parsePdfText file: the record is pushed, then the move is tried. *)
Lemma process_file_accepted file st c r g' :
  pdf_files (fs st) !! file = Some c -> accepted pdfParse parsePdfText c (rng st) r g' ->
  step file st
  = {| fs := renameSync ok processedFolder file (fs st);
       records := records st ++ [complete_record r (Some (toBase64 c))];
       failedFiles := failedFiles st;
       rng := g' |}.
Proof.
  intros Hc (text & Htext & Hne & Hparse).
  unfold process_file, extractPdfText, fileToBase64. rewrite Hc, Htext.
  destruct text as [|x t]; [done|]. rewrite Hparse. reflexivity.
Qed.

Lemma move_to_failed_other l : forall fs0 f,
  f ∉ l -> same_at f fs0 (sweep l fs0).
Proof.
  induction l as [|file l IH]; intros fs0 f Hf; cbn; [apply same_at_refl|].
  apply not_elem_of_cons in Hf as [Hne Hl].
  eapply same_at_trans; [apply renameSync_other, Hne|apply IH, Hl].
Qed.

Lemma move_to_failed_processed l : forall fs0,
  processed (sweep l fs0) = processed fs0.
Proof.
  induction l as [|file l IH]; intros fs0; [done|].
  change (sweep (file :: l) fs0)
    with (sweep l (renameSync ok failedFolder file fs0)).
  rewrite IH. unfold renameSync.
  destruct (pdf_files fs0 !! file); [|done]. now destruct (ok failedFolder file).
Qed.

Lemma move_to_failed_stays l : forall fs0 f c,
  failed_uploads fs0 !! f = Some c -> pdf_files fs0 !! f = None ->
  failed_uploads (sweep l fs0) !! f = Some c
  /\ pdf_files (sweep l fs0) !! f = None.
Proof.
  induction l as [|file l IH]; intros fs0 f c Hf Hp; cbn; [done|].
  apply IH.
  - destruct (decide (f = file)) as [->|Hne].
    + now rewrite renameSync_absent.
    + destruct (renameSync_other ok failedFolder file fs0 f Hne) as (_ & _ & ->). done.
  - destruct (decide (f = file)) as [->|Hne].
    + now rewrite renameSync_absent.
    + destruct (renameSync_other ok failedFolder file fs0 f Hne) as (-> & _). done.
Qed.

(** A listed file that the system lets move ends in the failed folder. *)
Lemma move_to_failed_moves l : forall fs0 f c,
  f ∈ l -> pdf_files fs0 !! f = Some c -> ok failedFolder f = true ->
  failed_uploads (sweep l fs0) !! f = Some c
  /\ pdf_files (sweep l fs0) !! f = None.
Proof.
  induction l as [|file l IH]; intros fs0 f c Hin Hc Hok; [by apply elem_of_nil in Hin|].
  cbn. destruct (decide (f = file)) as [->|Hne].
  - destruct (renameSync_failed ok file fs0 c Hc Hok) as (H1 & H2 & _).
    now apply move_to_failed_stays.
  - apply elem_of_cons in Hin as [?|Hin]; [done|].
    apply IH; [done| |done].
    destruct (renameSync_other ok failedFolder file fs0 f Hne) as (-> & _). done.
Qed.

(** A rejected pdfParse parsePdfText file waits in [pdf_files/] for the second loop. *)
Lemma process_files_rejected l f c : forall st,
  pdf_files (fs st) !! f = Some c -> rejected pdfParse parsePdfText c ->
  pdf_files (fs (steps l st)) !! f = Some c
  /\ (f ∈ l \/ f ∈ failedFiles st -> f ∈ failedFiles (steps l st)).
Proof.
  induction l as [|file l IH]; intros st Hc Hrej.
  - split; [done|]. intros [H|H]; [by apply elem_of_nil in H|done].
  - rewrite process_files_cons.
    destruct (decide (f = file)) as [->|Hne].
    + destruct (process_file_rejected file st c Hc Hrej) as (Hfs & _ & Hin).
      destruct (IH (step file st)) as [H1 H2]; [by rewrite Hfs|done|].
      split; [done|]. intros _. apply H2. now right.
    + destruct (process_file_other file st f Hne) as [(Hp & _) Hfl].
      destruct (IH (step file st)) as [H1 H2]; [by rewrite Hp|done|].
      split; [done|]. intros [H|H]; apply H2.
      * apply elem_of_cons in H as [?|?]; [done|now left].
      * right. now apply Hfl.
Qed.

(** The random source keeps what the parser keeps. *)
Lemma process_files_rng (Inv : Rng -> Prop) :
  (forall text g, Inv g -> Inv (parsePdfText text g).2) ->
  forall l st, Inv (rng st) -> Inv (rng (steps l st)).
Proof.
  intros Hparse l. induction l as [|file l IH]; intros st Hst; [done|].
  rewrite process_files_cons. apply IH. unfold process_file.
  destruct (extractPdfText pdfParse (fs st) file) as [[|x t]|]; cbn; try done.
  specialize (Hparse (x :: t) (rng st) Hst).
  destruct (parsePdfText (x :: t) (rng st)) as [[r|] g]; cbn in *; done.
Qed.

(** An accepted pdfParse parsePdfText file: its record is in the upload list whatever becomes of
    the move, and the file is in [processed/] when the move is carried out. *)
Lemma process_files_accepted (Inv : Rng -> Prop) (Q : record -> Prop) l f c :
  (forall text g, Inv g -> Inv (parsePdfText text g).2) ->
  (forall g, Inv g -> exists r g', accepted pdfParse parsePdfText c g r g' /\ Q r) ->
  NoDup l -> f ∈ l ->
  forall st, pdf_files (fs st) !! f = Some c -> Inv (rng st) -> f ∉ failedFiles st ->
  let st' := steps l st in
  (exists r, Q r /\ (complete_record r (Some (toBase64 c)) ∈ records st'))
  /\ (f ∉ failedFiles st')
  /\ (ok processedFolder f = true ->
      processed (fs st') !! f = Some c /\ pdf_files (fs st') !! f = None).
Proof.
  intros Hinv Hacc Hnd Hin st Hc Hst Hnf.
  apply list_elem_of_split in Hin as (l1 & l2 & ->).
  apply NoDup_app in Hnd as (_ & Hl1 & Hnd2).
  apply NoDup_cons in Hnd2 as [Hl2 _].
  assert (Hf1 : f ∉ l1) by (intros H; apply (Hl1 f H); left).
  cbv zeta. rewrite process_files_app, process_files_cons.
  set (st1 := steps l1 st).
  destruct (process_files_other l1 st f Hf1) as [(Hp1 & _) Hfl1].
  fold st1 in Hp1, Hfl1.
  assert (Hc1 : pdf_files (fs st1) !! f = Some c) by (now rewrite Hp1).
  assert (Hi1 : Inv (rng st1)) by (now apply process_files_rng).
  destruct (Hacc _ Hi1) as (r & g' & Hr & HQ).
  rewrite (process_file_accepted f st1 c r g' Hc1 Hr).
  set (st2 := {| fs := renameSync ok processedFolder f (fs st1) |}).
  destruct (process_files_grows l2 st2) as [[rs Hrs] _].
  destruct (process_files_other l2 st2 f Hl2) as [(Hp2 & Hq2 & _) Hfl2].
  repeat split.
  - exists r. split; [done|]. rewrite Hrs. cbn.
    apply elem_of_app. left. apply elem_of_app. right. now apply list_elem_of_singleton.
  - rewrite Hfl2. cbn. now rewrite Hfl1.
  - destruct (renameSync_processed ok f (fs st1) c Hc1 H) as (H1 & _). now rewrite Hq2.
  - destruct (renameSync_processed ok f (fs st1) c Hc1 H) as (_ & H1 & _). now rewrite Hp2.
Qed.

End Run.

(** Two runs that differ only in which moves are carried out push the same
    records. *)
Lemma process_files_lockstep ok1 ok2 l :
  NoDup l ->
  forall st1 st2,
    records st1 = records st2 -> failedFiles st1 = failedFiles st2 -> rng st1 = rng st2 ->
    (forall f, f ∈ l -> pdf_files (fs st1) !! f = pdf_files (fs st2) !! f) ->
    let st1' := process_files pdfParse toBase64 parsePdfText ok1 l st1 in
    let st2' := process_files pdfParse toBase64 parsePdfText ok2 l st2 in
    records st1' = records st2' /\ failedFiles st1' = failedFiles st2' /\ rng st1' = rng st2'.
Proof.
  induction l as [|file l IH]; intros Hnd st1 st2 Hr Hf Hg Hfs; [done|].
  apply NoDup_cons in Hnd as [Hfile Hnd].
  cbv zeta. rewrite !process_files_cons. apply IH; try done.
  - unfold process_file, extractPdfText, fileToBase64.
    rewrite (Hfs file) by left. rewrite Hg.
    destruct (pdf_files (fs st2) !! file) as [c|]; cbn; [|done].
    destruct (pdfParse c) as [[|x t]|]; cbn; [done| |done].
    destruct (parsePdfText (x :: t) (rng st2)) as [[r|] g]; cbn; [|done]. now rewrite Hr.
  - unfold process_file, extractPdfText, fileToBase64.
    rewrite (Hfs file) by left. rewrite Hg.
    destruct (pdf_files (fs st2) !! file) as [c|]; cbn; [|now rewrite Hf].
    destruct (pdfParse c) as [[|x t]|]; cbn; [now rewrite Hf| |now rewrite Hf].
    destruct (parsePdfText (x :: t) (rng st2)) as [[r|] g]; cbn; [done|now rewrite Hf].
  - unfold process_file, extractPdfText, fileToBase64.
    rewrite (Hfs file) by left. rewrite Hg.
    destruct (pdf_files (fs st2) !! file) as [c|]; cbn; [|done].
    destruct (pdfParse c) as [[|x t]|]; cbn; [done| |done].
    destruct (parsePdfText (x :: t) (rng st2)) as [[r|] g]; cbn; done.
  - intros f Hin.
    assert (Hne : f <> file) by (intros ->; done).
    destruct (process_file_other ok1 file st1 f Hne) as [(-> & _) _].
    destruct (process_file_other ok2 file st2 f Hne) as [(-> & _) _].
    apply Hfs. now right.
Qed.

End Routing.

(** ** The listing, and the records a run posts *)

Lemma elem_of_pdf_listing fs0 f :
  f ∈ pdf_listing fs0 <-> is_Some (pdf_files fs0 !! f) /\ endsWith (js ".pdf") f = true.
Proof.
  unfold pdf_listing, readdirSync. rewrite list_elem_of_filter, list_elem_of_fmap.
  split.
  - intros [He ([k c] & -> & Hin)]. apply elem_of_map_to_list in Hin. split; [|done].
    cbn. eauto.
  - intros [[c Hc] He]. split; [done|]. exists (f, c). split; [done|].
    now apply elem_of_map_to_list.
Qed.

Lemma NoDup_pdf_listing fs0 : NoDup (pdf_listing fs0).
Proof. apply NoDup_filter, NoDup_fst_map_to_list. Qed.

Lemma parser_of_complete Date_parse (p : Program) text g r :
  (parser_of Date_parse p text g).1 = Some r -> complete (party_of p) r = true.
Proof.
  destruct p; cbn [parser_of party_of pure_parser fst]; intros H.
  - apply SentExamDate_parse_iff in H. tauto.
  - apply ReceivedNameOnly_parse_iff in H. tauto.
  - apply SentTimestamp_parse_iff in H. tauto.
  - apply SentTimestampPrevDay_parse_iff in H. tauto.
  - apply ReceivedFrom_parse_iff in H. tauto.
  - apply ReceivedTo_parse_iff in H. tauto.
Qed.

(** Every run ends, and posts complete records only. *)
Lemma uploads_complete pdfParse toBase64 Date_parse (p : Program) ok fs0 g :
  exists o,
    main_of pdfParse toBase64 Date_parse p ok fs0 g = Some o
    /\ Forall (Forall (fun r => complete (party_of p) r = true)) (uploads o).
Proof.
  assert (Hparty : forall r a, complete (party_of p) (complete_record r a) = complete (party_of p) r)
    by (now destruct p).
  destruct (prepares_complete_list (party_of p) pdfParse toBase64 (parser_of Date_parse p) ok Hparty
              (parser_of_complete Date_parse p)) as [Hl Hn].
  specialize (Hl (pdf_listing fs0) fs0 g). specialize (Hn (pdf_listing fs0) fs0 g).
  assert (Hb : main_of pdfParse toBase64 Date_parse p ok fs0 g
               = main_batch pdfParse toBase64 (parser_of Date_parse p) ok fs0 g ->
               exists o, main_of pdfParse toBase64 Date_parse p ok fs0 g = Some o
                 /\ Forall (Forall (fun r => complete (party_of p) r = true)) (uploads o)).
  { intros ->.
    destruct (main_batch_uploads pdfParse toBase64 (parser_of Date_parse p) ok fs0 g)
      as (batches & -> & Hcat).
    eexists. split; [reflexivity|]. cbn [uploads]. apply Forall_concat. now rewrite Hcat. }
  destruct p; try (apply Hb; reflexivity); cbn [main_of parser_of] in *;
    (eexists; split; [reflexivity|]);
    unfold ReceivedFrom.main, ReceivedTo.main, main_no_failed_folder, main_sweep.
  - destruct (prepareRecordsForUpload_no_list _ _ _ _ _ _ _) as [[recs fs1] g1].
    cbn [fst snd uploads] in *. case_bool_decide; [|constructor].
    unfold bulkUpload. constructor; [done|constructor].
  - destruct (prepareRecordsForUpload_no_list _ _ _ _ _ _ _) as [[recs fs1] g1].
    cbn [fst snd uploads] in *. case_bool_decide; [|constructor].
    unfold bulkUpload. constructor; [done|constructor].
Qed.

(** C1, as the programs have it. In each of the six programs
    [parsePdfText] returns the record exactly when [createdAt], the
    extracted party ([from] in the Sent programs and in part_001, [to] in
    the other Received programs) and [sender] are all truthy: not [null]
    and not the empty string. It returns [null] when one of them is
    [null], only records it returned reach the upload list, and a run ends
    having posted complete records only. *)
Theorem parsePdfText_accepts_complete :
  (forall g, accepts_complete from (fun text => (SentExamDate.parsePdfText text g).1)
               (fun text => (SentExamDate.candidate text g).1))
  /\ accepts_complete from SentTimestamp.parsePdfText SentTimestamp.candidate
  /\ accepts_complete from SentTimestampPrevDay.parsePdfText SentTimestampPrevDay.candidate
  /\ accepts_complete to ReceivedNameOnly.parsePdfText ReceivedNameOnly.candidate
  /\ accepts_complete to ReceivedTo.parsePdfText ReceivedTo.candidate
  /\ (forall Date_parse,
        accepts_complete from (ReceivedFrom.parsePdfText Date_parse)
          (ReceivedFrom.candidate Date_parse))
  /\ (forall pdfParse toBase64 ok,
        prepares_complete from (SentExamDate.prepareRecordsForUpload pdfParse toBase64 ok)
        /\ prepares_complete from (SentTimestamp.prepareRecordsForUpload pdfParse toBase64 ok)
        /\ prepares_complete from (SentTimestampPrevDay.prepareRecordsForUpload pdfParse toBase64 ok)
        /\ prepares_complete to (ReceivedNameOnly.prepareRecordsForUpload pdfParse toBase64 ok)
        /\ prepares_complete to (ReceivedTo.prepareRecordsForUpload pdfParse toBase64 ok)
        /\ (forall Date_parse,
              prepares_complete from
                (ReceivedFrom.prepareRecordsForUpload pdfParse toBase64 Date_parse ok)))
  /\ (forall pdfParse toBase64 Date_parse (p : Program) ok fs0 g,
        exists o,
          main_of pdfParse toBase64 Date_parse p ok fs0 g = Some o
          /\ Forall (Forall (fun r => complete (party_of p) r = true)) (uploads o)).
Proof.
  repeat apply conj.
  - intros g. apply accepts_complete_intro. intros. apply SentExamDate_parse_iff.
  - apply accepts_complete_intro, SentTimestamp_parse_iff.
  - apply accepts_complete_intro, SentTimestampPrevDay_parse_iff.
  - apply accepts_complete_intro, ReceivedNameOnly_parse_iff.
  - apply accepts_complete_intro, ReceivedTo_parse_iff.
  - intros D. apply accepts_complete_intro, ReceivedFrom_parse_iff.
  - intros pdfParse toBase64 ok. repeat apply conj.
    + apply prepares_complete_list; [reflexivity|].
      intros text g r Hr. apply SentExamDate_parse_iff in Hr. tauto.
    + apply prepares_complete_list; [reflexivity|].
      intros text g r Hr. apply SentTimestamp_parse_iff in Hr. tauto.
    + apply prepares_complete_list; [reflexivity|].
      intros text g r Hr. apply SentTimestampPrevDay_parse_iff in Hr. tauto.
    + apply prepares_complete_list; [reflexivity|].
      intros text g r Hr. apply ReceivedNameOnly_parse_iff in Hr. tauto.
    + apply prepares_complete_list; [reflexivity|].
      intros text g r Hr. apply ReceivedTo_parse_iff in Hr. tauto.
    + intros D. apply prepares_complete_list; [reflexivity|].
      intros text g r Hr. apply ReceivedFrom_parse_iff in Hr. tauto.
  - apply uploads_complete.
Qed.

(** C1 as stated fails: a field can be extracted, so not [null], and empty.
    In the first program of sent.js the text [Exam Date: 3/15/2024 Fax: -]
    gives [from = ''] and in received.js the text
    [3/15/2024 9:30 AM Fax: 207-555-1234 PHYSICIAN NAME: 123] gives
    [sender = '']; all three fields are non-null and [null] is returned. *)
Lemma non_null_fields_yet_rejected :
  let text := js "Exam Date: 3/15/2024 Fax: -" in
  let g := constant_rng 0 in
  let r := (SentExamDate.candidate text g).1 in
  let text' := js "3/15/2024 9:30 AM Fax: 207-555-1234 PHYSICIAN NAME: 123" in
  let r' := ReceivedTo.candidate text' in
  ~ ((exists x, (SentExamDate.parsePdfText text g).1 = Some x)
     <-> createdAt r <> None /\ from r <> None /\ sender r <> None)
  /\ from r = Some []
  /\ ~ ((exists x, ReceivedTo.parsePdfText text' = Some x)
        <-> createdAt r' <> None /\ to r' <> None /\ sender r' <> None)
  /\ sender r' = Some [].
Proof.
  cbv zeta. repeat apply conj.
  - intros [_ H]. destruct H as [x Hx]; [|vm_compute in Hx; discriminate].
    vm_compute. repeat split; discriminate.
  - vm_compute. reflexivity.
  - intros [_ H]. destruct H as [x Hx]; [|vm_compute in Hx; discriminate].
    vm_compute. repeat split; discriminate.
  - vm_compute. reflexivity.
Qed.

(** C2, for the five programs that have a folder for the failed files.
    The three folders share no name at the start; a file of the listing
    whose extraction or parsing fails, and which the system lets move, is
    in the failed folder after the run, in neither of the two others, and
    the folders still share no name. *)
Theorem rejected_file_ends_in_failed_folder
    pdfParse toBase64 Date_parse (p : Program) ok fs0 g f c :
  has_failed_folder p = true ->
  exclusive fs0 ->
  pdf_files fs0 !! f = Some c ->
  endsWith (js ".pdf") f = true ->
  rejected pdfParse (parser_of Date_parse p) c ->
  ok failedFolder f = true ->
  exists o,
    main_of pdfParse toBase64 Date_parse p ok fs0 g = Some o
    /\ failed_uploads (files o) !! f = Some c
    /\ processed (files o) !! f = None
    /\ pdf_files (files o) !! f = None
    /\ exclusive (files o).
Proof.
  intros Hp Hex Hc Hpdf Hrej Hok.
  assert (Hin : f ∈ pdf_listing fs0) by (apply elem_of_pdf_listing; eauto).
  set (st0 := {| fs := fs0; records := []; failedFiles := []; rng := g |}).
  assert (Hbatch : forall parse, rejected pdfParse parse c ->
            exists o, main_batch pdfParse toBase64 parse ok fs0 g = Some o
              /\ failed_uploads (files o) !! f = Some c
              /\ pdf_files (files o) !! f = None /\ exclusive (files o)).
  { intros parse Hr.
    destruct (main_batch_uploads pdfParse toBase64 parse ok fs0 g) as (b & -> & _).
    eexists; split; [reflexivity|]. cbn.
    destruct (process_files_rejected pdfParse toBase64 parse ok (pdf_listing fs0) f c st0 Hc Hr)
      as [H1 H2].
    destruct (move_to_failed_moves ok _ _ f c (H2 (or_introl Hin)) H1 Hok) as [H3 H4].
    split; [done|]. split; [done|].
    apply move_to_failed_exclusive. now apply process_files_exclusive. }
  assert (Hfinish : forall o, failed_uploads (files o) !! f = Some c ->
            pdf_files (files o) !! f = None -> exclusive (files o) ->
            failed_uploads (files o) !! f = Some c /\ processed (files o) !! f = None
            /\ pdf_files (files o) !! f = None /\ exclusive (files o)).
  { intros o H1 H2 H3. split; [done|]. split; [|done].
    destruct (H3 f) as [_ H4].
    destruct (processed (files o) !! f) eqn:E; [|done].
    rewrite H4 in H1 by eauto. done. }
  destruct p; try discriminate Hp; cbn [main_of parser_of] in *.
  1-4: destruct (Hbatch _ Hrej) as (o & Ho & H1 & H2 & H3);
       exists o; split; [exact Ho|now apply Hfinish].
  (* received.js: the sweep of [moveFailedFiles] *)
  eexists; split; [reflexivity|].
  unfold ReceivedTo.main, main_sweep, prepareRecordsForUpload_no_list. cbn.
  fold st0.
  set (st1 := process_files pdfParse toBase64 (pure_parser ReceivedTo.parsePdfText) ok
                (pdf_listing fs0) st0).
  destruct (process_files_rejected pdfParse toBase64 _ ok (pdf_listing fs0) f c st0 Hc Hrej)
    as [H1 _]. fold st1 in H1.
  assert (Hin1 : f ∈ pdf_listing (fs st1)) by (apply elem_of_pdf_listing; eauto).
  destruct (move_to_failed_moves ok _ _ f c Hin1 H1 Hok) as [H3 H4].
  apply (Hfinish {| uploads := []; files := moveFailedFiles ok (fs st1) |}); try done.
  apply move_to_failed_exclusive, process_files_exclusive, Hex.
Qed.

Lemma exclusive_incoming file c : exclusive (incoming file c).
Proof.
  intros f. cbn. rewrite !lookup_empty. split; [done|]. intros [x Hx]. discriminate.
Qed.

Lemma rejected_file_ends_in_failed_folder_witness :
  exists o,
    main_of text_files raw_bytes no_dates sent_js_1 always
      (incoming (js "a.pdf") (js "blank page")) (constant_rng 0) = Some o
    /\ failed_uploads (files o) !! js "a.pdf" = Some (js "blank page")
    /\ processed (files o) !! js "a.pdf" = None
    /\ pdf_files (files o) !! js "a.pdf" = None
    /\ exclusive (files o).
Proof.
  apply (rejected_file_ends_in_failed_folder text_files raw_bytes no_dates sent_js_1 always
           (incoming (js "a.pdf") (js "blank page")) (constant_rng 0)
           (js "a.pdf") (js "blank page")).
  - reflexivity.
  - apply exclusive_incoming.
  - apply lookup_singleton_eq.
  - vm_compute. reflexivity.
  - intros g. vm_compute. reflexivity.
  - reflexivity.
Defined.

(** C2 as stated fails in part_001, which has no folder for failed files:
    a file whose parsing fails stays in [pdf_files/], with every move
    allowed. *)
Lemma part_001_leaves_rejected_file :
  let fs0 := incoming (js "a.pdf") (js "blank page") in
  let o := ReceivedFrom.main text_files raw_bytes no_dates always fs0 (constant_rng 0) in
  pdf_files fs0 !! js "a.pdf" = Some (js "blank page")
  /\ rejected text_files (parser_of no_dates part_001) (js "blank page")
  /\ always failedFolder (js "a.pdf") = true
  /\ failed_uploads (files o) !! js "a.pdf" = None
  /\ pdf_files (files o) !! js "a.pdf" = Some (js "blank page").
Proof.
  cbv zeta. split; [apply lookup_singleton_eq|].
  split; [intros g; vm_compute; reflexivity|].
  split; [reflexivity|].
  split; vm_compute; reflexivity.
Qed.

(** ** The upload list and the moves *)


Lemma prepare_of_records pdfParse toBase64 Date_parse (p : Program) ok pdfFiles fs0 g :
  (prepare_of pdfParse toBase64 Date_parse p ok pdfFiles fs0 g).1.1
  = records (process_files pdfParse toBase64 (parser_of Date_parse p) ok pdfFiles
               {| fs := fs0; records := []; failedFiles := []; rng := g |}).
Proof. now destruct p. Qed.

Section Reached.

Variable pdfParse : content -> option jsstring.
Variable toBase64 : content -> jsstring.
Variable parsePdfText : Parser.
Variable ok : Relocation.

Abbreviation step := (process_file pdfParse toBase64 parsePdfText ok).
Abbreviation steps := (process_files pdfParse toBase64 parsePdfText ok).

(** The record a file yields when the loop reaches it is pushed, whatever
    becomes of the move; the file is in [processed/] when the move is
    carried out. *)
Lemma process_files_reached before f after c r g' st :
  NoDup (before ++ f :: after) ->
  pdf_files (fs st) !! f = Some c ->
  accepted pdfParse parsePdfText c (rng (steps before st)) r g' ->
  let st' := steps (before ++ f :: after) st in
  complete_record r (Some (toBase64 c)) ∈ records st'
  /\ (f ∉ failedFiles st -> f ∉ failedFiles st')
  /\ (ok processedFolder f = true ->
      processed (fs st') !! f = Some c /\ pdf_files (fs st') !! f = None).
Proof.
  intros Hnd Hc Hacc.
  apply NoDup_app in Hnd as (_ & Hl1 & Hnd2).
  apply NoDup_cons in Hnd2 as [Hl2 _].
  assert (Hf1 : f ∉ before) by (intros H; apply (Hl1 f H); left).
  cbv zeta. rewrite process_files_app, process_files_cons.
  set (st1 := steps before st) in *.
  destruct (process_files_other pdfParse toBase64 parsePdfText ok before st f Hf1)
    as [(Hp1 & _) Hfl1].
  fold st1 in Hp1, Hfl1.
  assert (Hc1 : pdf_files (fs st1) !! f = Some c) by (now rewrite Hp1).
  rewrite (process_file_accepted pdfParse toBase64 parsePdfText ok f st1 c r g' Hc1 Hacc).
  set (st2 := {| fs := renameSync ok processedFolder f (fs st1) |}).
  destruct (process_files_grows pdfParse toBase64 parsePdfText ok after st2) as [[rs Hrs] _].
  destruct (process_files_other pdfParse toBase64 parsePdfText ok after st2 f Hl2)
    as [(Hp2 & Hq2 & _) Hfl2].
  split; [|split].
  - rewrite Hrs. cbn.
    apply elem_of_app. left. apply elem_of_app. right. now apply list_elem_of_singleton.
  - intros Hnf. rewrite Hfl2. cbn. now rewrite Hfl1.
  - intros Hok.
    destruct (renameSync_processed ok f (fs st1) c Hc1 Hok) as (H1 & H2 & _).
    split; [now rewrite Hq2|now rewrite Hp2].
Qed.

(** Every record of the list is the record a listed file yielded when the
    loop reached it. *)
Lemma process_files_origin l : forall st x,
  NoDup l ->
  x ∈ records (steps l st) ->
  x ∈ records st
  \/ exists before f after c r g',
       l = before ++ f :: after
       /\ pdf_files (fs st) !! f = Some c
       /\ accepted pdfParse parsePdfText c (rng (steps before st)) r g'
       /\ x = complete_record r (Some (toBase64 c)).
Proof.
  induction l as [|f l IH] using rev_ind; intros st x Hnd Hx; [now left|].
  apply NoDup_app in Hnd as (Hl & Hfl & _).
  rewrite process_files_app in Hx. cbn [process_files foldl] in Hx.
  set (st1 := steps l st) in *.
  assert (Hold : x ∈ records st1 ->
            x ∈ records st
            \/ exists before f0 after c r g',
                 l ++ [f] = before ++ f0 :: after
                 /\ pdf_files (fs st) !! f0 = Some c
                 /\ accepted pdfParse parsePdfText c (rng (steps before st)) r g'
                 /\ x = complete_record r (Some (toBase64 c))).
  { intros H. destruct (IH st x Hl H) as [?|(b & f0 & a & c & r & g' & -> & ?)]; [now left|].
    right. exists b, f0, (a ++ [f]), c, r, g'. split; [|done].
    now rewrite <- app_assoc. }
  assert (Hf : f ∉ l) by (intros H; apply (Hfl f H); left).
  destruct (process_files_other pdfParse toBase64 parsePdfText ok l st f Hf) as [(Hp & _) _].
  fold st1 in Hp.
  unfold process_file, extractPdfText, fileToBase64 in Hx.
  destruct (pdf_files (fs st1) !! f) as [c|] eqn:Hc; [|now apply Hold].
  destruct (pdfParse c) as [[|y t]|] eqn:Ht; [now apply Hold| |now apply Hold].
  destruct (parsePdfText (y :: t) (rng st1)) as [[r|] g'] eqn:Hr; [|now apply Hold].
  cbn in Hx. apply elem_of_app in Hx as [Hx|Hx]; [now apply Hold|].
  apply list_elem_of_singleton in Hx. right.
  exists l, f, [], c, r, g'. split; [done|]. split; [now rewrite <- Hp|].
  split; [|done]. exists (y :: t). done.
Qed.

End Reached.

(** C9. In every program the list [prepareRecordsForUpload] returns is
    the same whichever moves the system carries out: a record is pushed
    before the move of its file is tried, and no later step takes it back.
    The record the parse of a file yields when the loop reaches it is in
    the list, with the bytes of the file attached, whatever becomes of the
    moves; and the list holds nothing else: each of its records is the
    record a listed file yielded when the loop reached it. *)
Theorem upload_list_ignores_relocation
    pdfParse toBase64 Date_parse (p : Program) (ok1 ok2 : Relocation) pdfFiles fs0 g :
  NoDup pdfFiles ->
  (prepare_of pdfParse toBase64 Date_parse p ok1 pdfFiles fs0 g).1.1
  = (prepare_of pdfParse toBase64 Date_parse p ok2 pdfFiles fs0 g).1.1
  /\ (forall before f after c r g',
        pdfFiles = before ++ f :: after ->
        pdf_files fs0 !! f = Some c ->
        accepted pdfParse (parser_of Date_parse p) c
          (rng_after pdfParse toBase64 (parser_of Date_parse p) ok1 before fs0 g) r g' ->
        complete_record r (Some (toBase64 c))
          ∈ (prepare_of pdfParse toBase64 Date_parse p ok1 pdfFiles fs0 g).1.1)
  /\ (forall x,
        x ∈ (prepare_of pdfParse toBase64 Date_parse p ok1 pdfFiles fs0 g).1.1 ->
        exists before f after c r g',
          pdfFiles = before ++ f :: after
          /\ pdf_files fs0 !! f = Some c
          /\ accepted pdfParse (parser_of Date_parse p) c
               (rng_after pdfParse toBase64 (parser_of Date_parse p) ok1 before fs0 g) r g'
          /\ x = complete_record r (Some (toBase64 c))).
Proof.
  intros Hnd. rewrite !prepare_of_records. split; [|split].
  - destruct (process_files_lockstep pdfParse toBase64 (parser_of Date_parse p) ok1 ok2
                pdfFiles Hnd
                {| fs := fs0; records := []; failedFiles := []; rng := g |}
                {| fs := fs0; records := []; failedFiles := []; rng := g |})
      as (H & _); done.
  - intros before f after c r g' -> Hc Hacc.
    now destruct (process_files_reached pdfParse toBase64 (parser_of Date_parse p) ok1
                    before f after c r g' {| fs := fs0; records := []; failedFiles := []; rng := g |} Hnd Hc Hacc) as (H & _).
  - intros x Hx.
    destruct (process_files_origin pdfParse toBase64 (parser_of Date_parse p) ok1
                pdfFiles {| fs := fs0; records := []; failedFiles := []; rng := g |} x Hnd Hx) as [H|H]; [|exact H].
    by apply elem_of_nil in H.
Qed.

Lemma upload_list_ignores_relocation_witness :
  (prepare_of text_files raw_bytes no_dates received_js always [js "a.pdf"]
     (incoming (js "a.pdf") sample_text) (constant_rng 0)).1.1
  = (prepare_of text_files raw_bytes no_dates received_js never [js "a.pdf"]
       (incoming (js "a.pdf") sample_text) (constant_rng 0)).1.1
  /\ (forall before f after c r g',
        [js "a.pdf"] = before ++ f :: after ->
        pdf_files (incoming (js "a.pdf") sample_text) !! f = Some c ->
        accepted text_files (parser_of no_dates received_js) c
          (rng_after text_files raw_bytes (parser_of no_dates received_js) always before
             (incoming (js "a.pdf") sample_text) (constant_rng 0)) r g' ->
        complete_record r (Some (raw_bytes c))
          ∈ (prepare_of text_files raw_bytes no_dates received_js always [js "a.pdf"]
               (incoming (js "a.pdf") sample_text) (constant_rng 0)).1.1)
  /\ (forall x,
        x ∈ (prepare_of text_files raw_bytes no_dates received_js always [js "a.pdf"]
               (incoming (js "a.pdf") sample_text) (constant_rng 0)).1.1 ->
        exists before f after c r g',
          [js "a.pdf"] = before ++ f :: after
          /\ pdf_files (incoming (js "a.pdf") sample_text) !! f = Some c
          /\ accepted text_files (parser_of no_dates received_js) c
               (rng_after text_files raw_bytes (parser_of no_dates received_js) always before
                  (incoming (js "a.pdf") sample_text) (constant_rng 0)) r g'
          /\ x = complete_record r (Some (raw_bytes c))).
Proof.
  apply (upload_list_ignores_relocation text_files raw_bytes no_dates received_js always never
           [js "a.pdf"] (incoming (js "a.pdf") sample_text) (constant_rng 0)).
  apply NoDup_singleton.
Defined.

(** The record of a file that parses is uploaded even when no move is
    carried out; the file then stays in [pdf_files/] (and received.js
    sweeps it into the failed folder when that move is allowed). *)
Lemma record_uploaded_without_relocation :
  let fs0 := incoming (js "a.pdf") sample_text in
  (exists o, main_of text_files raw_bytes no_dates sent_js_1 never fs0 (constant_rng 0) = Some o
     /\ map length (uploads o) = [1%nat]
     /\ pdf_files (files o) !! js "a.pdf" = Some sample_text)
  /\ (exists o, main_of text_files raw_bytes no_dates received_js never fs0 (constant_rng 0) = Some o
        /\ map length (uploads o) = [1%nat]
        /\ pdf_files (files o) !! js "a.pdf" = Some sample_text).
Proof. cbv zeta. split; eexists; (split; [reflexivity|]); split; vm_compute; reflexivity. Qed.


(** ** Determinism of the Received parsers *)








(** In part_001 the result does depend on what the host makes of the
    timestamp: a host that reads it and a host that does not. *)
Lemma part_001_depends_on_host :
  (parser_of (fun _ => Some 0%Z) part_001 sample_text (constant_rng 0)).1 <> None
  /\ (parser_of no_dates part_001 sample_text (constant_rng 0)).1 = None.
Proof. split; vm_compute; [discriminate|reflexivity]. Qed.

(** The Sent parser of sent.js is not: two random sources give two records. *)
Lemma SentExamDate_parser_uses_random :
  let text := js "Exam Date: 3/15/2024 Fax: 207-555-1234" in
  (createdAt <$> (SentExamDate.parsePdfText text (constant_rng 0)).1)
    = Some (Some (js "2024-03-14 08:00:00"))
  /\ (createdAt <$> (SentExamDate.parsePdfText text (constant_rng (2 ^ 52))).1)
    = Some (Some (js "2024-03-14 12:30:30")).
Proof. split; vm_compute; reflexivity. Qed.

(** ** The Sent program with a date only *)

(** C4 fails on the hour. When [Math.random()] returns
    [0.9999999999999998 = 1 - 2^-52], the product [r * 9] is
    [9 - 9 * 2^-52], which rounds to the double [9 - 2^-49]; the sum with 8
    is [17 - 2^-49], halfway between the doubles [17 - 2^-48] and [17], and
    rounds to the even one, 17. So [Math.floor(r * 9 + 8)] is 17 and the
    time of day is 17:00:00, outside [8, 17) and after the 5 PM of the
    comment of [getRandomTime]. *)
Theorem SentExamDate_hour_17 :
  let text := js "Exam Date: 3/15/2024 Fax: 207-555-1234" in
  (getRandomTime (first_draw (2 ^ 53 - 2))).1 = (17, 0, 0)%Z
  /\ (createdAt <$> (SentExamDate.parsePdfText text (first_draw (2 ^ 53 - 2))).1)
     = Some (Some (js "2024-03-14 17:00:00")).
Proof. split; vm_compute; reflexivity. Qed.

Local Open Scope Z_scope.











Local Close Scope Z_scope.

Lemma re_createdAt_sound w caps :
  lang SentExamDate.re_createdAt w caps ->
  exists month day year,
    date_shape month day year
    /\ w = js "Exam Date: " ++ date_text month day year
    /\ caps = [(1%nat, date_text month day year)].
Proof.
  unfold SentExamDate.re_createdAt, digits. cbn [cat].
  intros (w1 & w2 & c1 & c2 & -> & -> & H1 & c & H & ->).
  apply lang_lit in H1 as [-> ->].
  repeat match type of H with
    | lang (Cat _ _) _ _ =>
        let H1 := fresh "H" in
        destruct H as (? & ? & ? & ? & -> & -> & H1 & H)
    end.
  repeat match goal with
    | H : lang (lit _) _ _ |- _ => apply lang_lit in H as [-> ->]
    | H : lang (Rep _ _ _) _ _ |- _ => destruct H as (? & ->)
    end.
  eexists _, _, _. split; [|split; reflexivity].
  unfold date_shape, all_digits. tauto.
Qed.

Lemma re_createdAt_complete month day year :
  date_shape month day year ->
  exists caps, lang SentExamDate.re_createdAt (js "Exam Date: " ++ date_text month day year) caps.
Proof.
  intros ([] & [] & []).
  unfold SentExamDate.re_createdAt, date_text. cbn [cat]. eexists. close_lang.
Qed.

Lemma split_on_digits w : forall cur rest,
  all_digits w -> split_on (ch "/") cur (w ++ rest) = split_on (ch "/") (reverse w ++ cur) rest.
Proof.
  induction w as [|x w IH]; intros cur rest Hw; [done|].
  apply Forall_cons in Hw as [Hx Hw]. cbn [app split_on].
  assert ((x =? ch "/")%N = false) as ->.
  { apply N.eqb_neq. intros ->. discriminate. }
  rewrite IH by done. now rewrite reverse_cons, <- app_assoc.
Qed.

Lemma split_date month day year :
  date_shape month day year -> split "/" (date_text month day year) = [month; day; year].
Proof.
  intros ([Hm _] & [Hd _] & [Hy _]). unfold split, date_text.
  rewrite split_on_digits by done. cbn [app js map list_ascii_of_string split_on].
  rewrite N.eqb_refl, app_nil_r, reverse_involutive.
  rewrite split_on_digits by done. cbn [app js map list_ascii_of_string split_on].
  rewrite N.eqb_refl, app_nil_r, reverse_involutive.
  pose proof (split_on_digits year [] [] Hy) as E. rewrite !app_nil_r in E.
  rewrite E. cbn [split_on]. now rewrite reverse_involutive.
Qed.

(** The [createdAt] of the program on any text its date pattern matches:
    the day before the date matched, at the random time. *)
Lemma SentExamDate_createdAt_sound normalizedText g m :
  match_ SentExamDate.re_createdAt normalizedText = Some m ->
  exists month day year,
    date_shape month day year
    /\ group 1 m = date_text month day year
    /\ SentExamDate.extract_createdAt normalizedText g
       = (let '(month', day', year') :=
            SentExamDate.dayBefore (Number_of_digits month) (Number_of_digits day)
              (Number_of_digits year) in
          Some (padStart0 4 (String_of_Z year') ++ js "-" ++ padStart0 2 (String_of_Z month')
                ++ js "-" ++ padStart0 2 (String_of_Z day') ++ js " "
                ++ clock (hour_of (draws g (drawn g) mod one))
                     (sixtieth_of (draws g (S (drawn g)) mod one))
                     (sixtieth_of (draws g (S (S (drawn g))) mod one))),
          {| draws := draws g; drawn := S (S (S (drawn g))) |}).
Proof.
  intros Hm. unfold SentExamDate.extract_createdAt. rewrite Hm.
  apply match_sound in Hm as (_ & _ & _ & H).
  apply re_createdAt_sound in H as (month & day & year & Hs & _ & Hg).
  exists month, day, year. split; [done|].
  unfold group. rewrite Hg. cbn [capture]. rewrite bool_decide_eq_true_2 by done.
  split; [done|]. rewrite (split_date _ _ _ Hs). cbn [map].
  destruct (SentExamDate.dayBefore _ _ _) as [[month' day'] year'].
  rewrite getRandomTime_eq. reflexivity.
Qed.

(** A text in which [Exam Date: M/D/YYYY] stands gets a [createdAt]. *)
Lemma SentExamDate_createdAt_complete month day year pre post g :
  date_shape month day year ->
  (SentExamDate.extract_createdAt
     (pre ++ (js "Exam Date: " ++ date_text month day year) ++ post) g).1 <> None.
Proof.
  intros Hs.
  destruct (re_createdAt_complete _ _ _ Hs) as (caps & Hl).
  pose proof (match_complete _ _ _ pre post Hl) as H1.
  destruct (match_ SentExamDate.re_createdAt _) as [m|] eqn:E; [clear H1|done].
  destruct (SentExamDate_createdAt_sound _ g m E) as (mo & d & y & _ & _ & ->).
  now destruct (SentExamDate.dayBefore _ _ _) as [[? ?] ?].
Qed.

(** ** The end-to-end scenario of the Sent program with a date only *)

Lemma SentExamDate_createdAt_scenario normalizedText g m :
  match_ SentExamDate.re_createdAt normalizedText = Some m ->
  group 1 m = js "3/15/2024" ->
  SentExamDate.extract_createdAt normalizedText g
  = (Some (js "2024-03-14 "
           ++ clock (hour_of (draws g (drawn g) mod one))
                (sixtieth_of (draws g (S (drawn g)) mod one))
                (sixtieth_of (draws g (S (S (drawn g))) mod one))),
     {| draws := draws g; drawn := S (S (S (drawn g))) |}).
Proof.
  intros Hm Hg. unfold SentExamDate.extract_createdAt. rewrite Hm, Hg.
  change (map Number_of_digits (split "/" (js "3/15/2024"))) with [3; 15; 2024]%Z.
  change (SentExamDate.dayBefore 3 15 2024) with (3, 14, 2024)%Z.
  rewrite getRandomTime_eq. reflexivity.
Qed.

Lemma SentExamDate_parse_scenario text g m m' :
  match_ SentExamDate.re_createdAt (normalize text) = Some m ->
  group 1 m = js "3/15/2024" ->
  match_ re_fax (normalize text) = Some m' ->
  group 1 m' = js "207-555-1234" ->
  below_tie g ->
  exists r g',
    SentExamDate.parsePdfText text g = (Some r, g') /\ scenario_record r /\ below_tie g'.
Proof.
  intros Hm Hg Hm' Hg' Hg0.
  unfold SentExamDate.parsePdfText, SentExamDate.candidate. cbv zeta.
  rewrite (SentExamDate_createdAt_scenario _ g m Hm Hg).
  unfold fax_any_length. rewrite Hm', Hg'.
  change (formatPhoneNumber (strip_non_digits (js "207-555-1234"))) with (js "(207) 555 - 1234").
  eexists _, _. split; [reflexivity|]. split; [|exact Hg0].
  repeat split. eexists _, _, _. split; [|split; [|split; [|reflexivity]]].
  - pose proof (Hg0 (drawn g)).
    pose proof (Z.mod_pos_bound (draws g (drawn g)) one eq_refl).
    pose proof (hour_of_below_17 (draws g (drawn g) mod one) ltac:(lia)). lia.
  - pose proof (Z.mod_pos_bound (draws g (S (drawn g))) one eq_refl) as H.
    apply sixtieth_of_range in H. lia.
  - pose proof (Z.mod_pos_bound (draws g (S (S (drawn g)))) one eq_refl) as H.
    apply sixtieth_of_range in H. lia.
Qed.

Lemma scenario_record_complete r a :
  scenario_record r -> scenario_record (complete_record r a).
Proof. intros H. exact H. Qed.

(** C8, as the program has it. The document is listed, its text is
    extracted, the first match of the date pattern is [Exam Date: 3/15/2024]
    and the first match of the fax pattern captures [207-555-1234], no
    random draw is one of the two at which the hour rounds to 17, and the
    system carries out the move to [processed/]. Then the run uploads a
    record with [from = (207) 555 - 1234], [createdAt] on 2024-03-14 at a
    time from 08:00:00 to 16:59:59, the fixed [sender] and [to], and the
    document is in [processed/] and no longer in [pdf_files/]. *)
Theorem Sent_date_only_scenario pdfParse toBase64 ok fs0 g file c text m m' :
  pdf_files fs0 !! file = Some c ->
  endsWith (js ".pdf") file = true ->
  pdfParse c = Some text ->
  match_ SentExamDate.re_createdAt (normalize text) = Some m ->
  group 1 m = js "3/15/2024" ->
  match_ re_fax (normalize text) = Some m' ->
  group 1 m' = js "207-555-1234" ->
  below_tie g ->
  ok processedFolder file = true ->
  exists o r,
    SentExamDate.main pdfParse toBase64 ok fs0 g = Some o
    /\ r ∈ concat (uploads o)
    /\ scenario_record r
    /\ processed (files o) !! file = Some c
    /\ pdf_files (files o) !! file = None.
Proof.
  intros Hc Hpdf Htext Hm Hg Hm' Hg' Hg0 Hok.
  assert (Hne : text <> []).
  { intros ->. vm_compute in Hm. discriminate. }
  assert (Hin : file ∈ pdf_listing fs0) by (apply elem_of_pdf_listing; eauto).
  set (st0 := {| fs := fs0; records := []; failedFiles := []; rng := g |}).
  destruct (process_files_accepted pdfParse toBase64 SentExamDate.parsePdfText ok
              below_tie scenario_record (pdf_listing fs0) file c) with (st := st0)
    as ((r & Hr & Hrin) & Hnf & Hmoved).
  - intros t g1 Hg1.
    unfold SentExamDate.parsePdfText, SentExamDate.candidate, SentExamDate.extract_createdAt.
    cbv zeta.
    destruct (match_ SentExamDate.re_createdAt (normalize t)); [|by destruct (complete _ _)].
    destruct (map Number_of_digits _) as [|? [|? [|? ?]]]; try by destruct (complete _ _).
    destruct (SentExamDate.dayBefore _ _ _) as [[? ?] ?].
    rewrite getRandomTime_eq. by destruct (complete _ _).
  - intros g1 Hg1.
    destruct (SentExamDate_parse_scenario text g1 m m' Hm Hg Hm' Hg' Hg1) as (r & g' & Hp & Hr & _).
    exists r, g'. split; [|done]. exists text. done.
  - apply NoDup_pdf_listing.
  - done.
  - done.
  - done.
  - apply not_elem_of_nil.
  - destruct (main_batch_uploads pdfParse toBase64 SentExamDate.parsePdfText ok fs0 g)
      as (batches & Hmain & Hcat).
    eexists _, _. split; [exact Hmain|]. cbn [uploads files].
    rewrite Hcat. cbn [prepareRecordsForUpload fst snd]. fold st0.
    split; [exact Hrin|]. split; [now apply scenario_record_complete|].
    destruct (Hmoved Hok) as [H1 H2].
    destruct (move_to_failed_other ok _ (fs (process_files pdfParse toBase64
                SentExamDate.parsePdfText ok (pdf_listing fs0) st0)) file Hnf)
      as (E1 & E2 & _).
    rewrite E1, E2. done.
Qed.

Lemma Sent_date_only_scenario_witness :
  exists o r,
    SentExamDate.main text_files raw_bytes always
      (incoming (js "fax.pdf") (js "Exam Date: 3/15/2024 Fax: 207-555-1234"))
      (constant_rng (2 ^ 52)) = Some o
    /\ r ∈ concat (uploads o)
    /\ scenario_record r
    /\ processed (files o) !! js "fax.pdf" = Some (js "Exam Date: 3/15/2024 Fax: 207-555-1234")
    /\ pdf_files (files o) !! js "fax.pdf" = None.
Proof.
  eapply (Sent_date_only_scenario text_files raw_bytes always _ _ (js "fax.pdf")).
  - apply lookup_singleton_eq.
  - vm_compute. reflexivity.
  - reflexivity.
  - vm_compute. reflexivity.
  - vm_compute. reflexivity.
  - vm_compute. reflexivity.
  - vm_compute. reflexivity.
  - intros n. vm_compute. discriminate.
  - reflexivity.
Defined.

(** C8 as stated fails: the text may contain both strings and the first
    match of a pattern be another one. Here an earlier [Fax:] line gives
    [from]; and when the system refuses the move the document stays in
    [pdf_files/] although its record is uploaded. *)
Lemma scenario_text_with_earlier_fax :
  let text := js "Fax: 800-555-0000 Exam Date: 3/15/2024 Fax: 207-555-1234" in
  (exists a b, text = a ++ js "Exam Date: 3/15/2024" ++ b)
  /\ (exists a b, text = a ++ js "Fax: 207-555-1234" ++ b)
  /\ (from <$> (SentExamDate.parsePdfText text (constant_rng 0)).1)
     = Some (Some (js "(800) 555 - 0000"))
  /\ (exists o,
        SentExamDate.main text_files raw_bytes never
          (incoming (js "fax.pdf") (js "Exam Date: 3/15/2024 Fax: 207-555-1234"))
          (constant_rng 0) = Some o
        /\ map length (uploads o) = [1%nat]
        /\ processed (files o) !! js "fax.pdf" = None).
Proof.
  cbv zeta. repeat apply conj.
  - exists (js "Fax: 800-555-0000 "), (js " Fax: 207-555-1234"). reflexivity.
  - exists (js "Fax: 800-555-0000 Exam Date: 3/15/2024 "), []. reflexivity.
  - vm_compute. reflexivity.
  - eexists. split; [reflexivity|]. split; vm_compute; reflexivity.
Qed.

(** ** The sender of the Received programs *)

(** C7, as the programs have it. In received.js and in part_001 the
    sender is the capture of the first match of the pattern on
    [PHYSICIAN INFORMATION], a name followed by one of the credentials of
    the pattern (MD, M.D., DO, D.O., APN, N.P., M.D, D.O, APRN, APRN., in
    either case of the letters); only when that pattern matches nowhere is
    it the capture of the first match of the pattern on [PHYSICIAN NAME],
    a name with no credential asked for; and it is [null] when neither
    matches. *)
Theorem sender_first_match_wins (text : jsstring) :
  sender (ReceivedTo.candidate text)
  = first_match_wins re_physician_information re_physician_name (normalize text)
  /\ (forall Date_parse,
        sender (ReceivedFrom.candidate Date_parse text)
        = first_match_wins re_physician_information re_physician_name (normalize text))
  /\ (forall m, match_ re_physician_information (normalize text) = Some m ->
        sender (ReceivedTo.candidate text) = Some (trim (group 1 m))
        /\ exists name credential c,
             group 1 m = name ++ credential
             /\ name <> [] /\ Forall (fun x => name_char x = true) name
             /\ c ∈ credentials /\ equal_ignoring_case credential c)
  /\ (match_ re_physician_information (normalize text) = None ->
      forall m, match_ re_physician_name (normalize text) = Some m ->
        sender (ReceivedTo.candidate text) = Some (trim (group 1 m))
        /\ group 1 m <> [] /\ Forall (fun x => name_char x = true) (group 1 m))
  /\ (match_ re_physician_information (normalize text) = None ->
      match_ re_physician_name (normalize text) = None ->
      sender (ReceivedTo.candidate text) = None).
Proof.
  unfold ReceivedTo.candidate, ReceivedFrom.candidate. cbn [sender].
  unfold physician_with_fallback, first_match_wins.
  split; [done|]. split; [done|]. split; [|split].
  - intros m Hm. rewrite Hm. split; [done|]. exact (re_physician_information_capture _ m Hm).
  - intros Hnone m Hm. rewrite Hnone, Hm. split; [done|].
    exact (re_physician_name_capture _ m Hm).
  - intros -> ->. reflexivity.
Qed.

(** C7 as stated fails twice. The Received program of sent.js has the
    pattern on [PHYSICIAN NAME] alone: a text the first pattern matches
    gets no sender there. And the credentials of the first pattern do not
    include [NP] without dots. *)
Lemma sender_chain_counterexamples :
  let text := js "3/15/2024 9:30 AM Fax: 207-555-1234 PHYSICIAN INFORMATION JOHN SMITH MD" in
  let text' := js "3/15/2024 9:30 AM Fax: 207-555-1234 PHYSICIAN INFORMATION JANE ROE NP" in
  (sender (ReceivedTo.candidate text) = Some (js "JOHN SMITH MD")
   /\ first_match_wins re_physician_information re_physician_name (normalize text)
      = Some (js "JOHN SMITH MD")
   /\ sender (ReceivedNameOnly.candidate text) = None
   /\ ReceivedNameOnly.parsePdfText text = None)
  /\ (match_ re_physician_information (normalize text') = None
      /\ sender (ReceivedTo.candidate text') = None).
Proof. cbv zeta. repeat split; vm_compute; reflexivity. Qed.

(** ** The conversion to the 24-hour clock *)

(** The part of C6 that holds: 12 AM is hour 0, 12 PM stays 12, every other
    PM hour gets 12 more and every other AM hour is kept. *)
Lemma adjustedHour_spec (hour : jsstring) :
  let H := Number_of_digits hour in
  adjustedHour hour (js "AM") = (if (H =? 12)%Z then 0%Z else H)
  /\ adjustedHour hour (js "PM") = (if (H =? 12)%Z then 12%Z else (H + 12)%Z).
Proof.
  cbv zeta. unfold adjustedHour.
  change (bool_decide (js "AM" = js "PM")) with false.
  change (bool_decide (js "PM" = js "AM")) with false.
  change (bool_decide (js "AM" = js "AM")) with true.
  change (bool_decide (js "PM" = js "PM")) with true.
  cbn [andb negb].
  destruct (Z.eqb_spec (Number_of_digits hour) 12) as [->|Hne]; cbn [negb]; [done|].
  split; [done|].
  destruct (Z.eqb_spec (Number_of_digits hour + 12) 12); done.
Qed.

(** In the second program of part_000 the hour goes through a [Date] set
    back by one day: the time of day is kept, so the hour written is the
    converted one. *)
Lemma Date_day_earlier_keeps_time year month day hours minutes :
  (0 <= hours < 24)%Z -> (0 <= minutes < 60)%Z ->
  let dateObj := Date.make year month day hours minutes in
  let earlier := Date.setDate (Date.getDate dateObj - 1) dateObj in
  Date.getHours earlier = hours /\ Date.getMinutes earlier = minutes
  /\ Date.getSeconds earlier = 0%Z.
Proof.
  intros Hh Hm. cbv zeta.
  unfold Date.setDate, Date.make, Date.MakeDate, Date.MakeTime.
  set (D := Date.MakeDay (Date.MakeFullYear year) month day).
  set (t := (D * Date.msPerDay
             + (hours * Date.msPerHour + minutes * Date.msPerMinute + 0 * Date.msPerSecond))%Z).
  set (D' := Date.MakeDay (Date.getFullYear t) (Date.getMonth t) (Date.getDate t - 1)).
  assert (Ht : (t mod Date.msPerDay = hours * 3600000 + minutes * 60000)%Z).
  { subst t. unfold Date.msPerDay, Date.msPerHour, Date.msPerMinute, Date.msPerSecond.
    symmetry. apply (Z.mod_unique_pos _ _ D); lia. }
  rewrite Ht.
  set (t' := (D' * Date.msPerDay + (hours * 3600000 + minutes * 60000))%Z).
  unfold Date.getHours, Date.getMinutes, Date.getSeconds,
    Date.msPerDay, Date.msPerHour, Date.msPerMinute, Date.msPerSecond in *.
  repeat split.
  - assert (E : (t' mod 86400000 = hours * 3600000 + minutes * 60000)%Z).
    { symmetry. apply (Z.mod_unique_pos _ _ D'); subst t'; unfold Date.msPerDay; lia. }
    rewrite E. symmetry. apply (Z.div_unique_pos _ _ _ (minutes * 60000)); lia.
  - assert (E : (t' mod 3600000 = minutes * 60000)%Z).
    { symmetry. apply (Z.mod_unique_pos _ _ (D' * 24 + hours));
        subst t'; unfold Date.msPerDay; lia. }
    rewrite E. apply Z.div_mul. discriminate.
  - assert (E : (t' mod 60000 = 0)%Z).
    { symmetry. apply (Z.mod_unique_pos _ _ (D' * 1440 + hours * 60 + minutes));
        subst t'; unfold Date.msPerDay; lia. }
    rewrite E. reflexivity.
Qed.

Lemma SentTimestampPrevDay_createdAt_sound normalizedText createdAt :
  SentTimestampPrevDay.extract_createdAt normalizedText = Some createdAt ->
  exists month day year hour minute period,
    timestamp_shape month day year hour minute period
    /\ ((0 <= adjustedHour hour period < 24)%Z -> (Number_of_digits minute < 60)%Z ->
        exists yyyy mm dd,
          createdAt
          = timestamp yyyy mm dd (padStart0 2 (String_of_Z (adjustedHour hour period)))
              (padStart0 2 (String_of_Z (Number_of_digits minute))) (js "00")).
Proof.
  unfold SentTimestampPrevDay.extract_createdAt.
  destruct (match_ re_timestamp normalizedText) as [m1|]; [|discriminate].
  destruct (match_ re_timestamp_fields (group 1 m1)) as [m2|] eqn:E2; [|discriminate].
  intros [= <-].
  apply match_sound in E2 as (_ & _ & _ & H).
  apply re_timestamp_fields_sound in H
    as (month & day & year & hour & minute & period & Hs & _ & Hg).
  exists month, day, year, hour, minute, period. split; [done|].
  intros Hh Hm.
  assert (E1 : group 1 m2 = month) by (unfold group; rewrite Hg; reflexivity).
  assert (E2' : group 2 m2 = day) by (unfold group; rewrite Hg; reflexivity).
  assert (E3 : group 3 m2 = year) by (unfold group; rewrite Hg; reflexivity).
  assert (E4 : group 4 m2 = hour) by (unfold group; rewrite Hg; reflexivity).
  assert (E5 : group 5 m2 = minute) by (unfold group; rewrite Hg; reflexivity).
  assert (E6 : group 6 m2 = period) by (unfold group; rewrite Hg; reflexivity).
  rewrite E1, E2', E3, E4, E5, E6.
  assert (Hmin : (0 <= Number_of_digits minute)%Z).
  { destruct Hs as (_ & _ & _ & _ & [Hd _] & _). unfold Number_of_digits.
    enough (forall l acc, all_digits l -> (0 <= acc)%Z ->
              (0 <= fold_left (fun acc c => 10 * acc + (Z.of_N c - 48)) l acc)%Z) by auto with zarith.
    clear. induction l as [|c l IH]; intros acc Hl Hacc; [done|].
    apply Forall_cons in Hl as [Hc Hl]. cbn. apply IH; [done|].
    unfold is_digit in Hc. apply andb_prop in Hc as [Hc _]. apply N.leb_le in Hc. lia. }
  cbv zeta. eexists _, _, _.
  destruct (Date_day_earlier_keeps_time (Number_of_digits year) (Number_of_digits month - 1)
              (Number_of_digits day) (adjustedHour hour period) (Number_of_digits minute))
    as (-> & -> & ->); [done|lia|].
  reflexivity.
Qed.

(** * More on the programs *)

(** ** The text, the numbers and the names *)

(** *** The normalized text *)

Lemma collapse_spaces_only_spaces s : forall b,
  Forall (fun c => is_space c = true -> c = ch " ") (collapse_spaces b s).
Proof.
  induction s as [|c s IH]; intros b; cbn; [constructor|].
  destruct (is_space c) eqn:Hc.
  - destruct b; [apply IH|]. constructor; [done|apply IH].
  - constructor; [|apply IH]. intros H. congruence.
Qed.

Lemma collapse_spaces_after_space s x t :
  collapse_spaces true s = x :: t -> is_space x = false.
Proof.
  induction s as [|c s IH]; cbn; [done|].
  destruct (is_space c) eqn:E; [exact IH|]. now intros [= <- <-].
Qed.

Lemma collapse_spaces_no_run s : forall b u x y v,
  collapse_spaces b s = u ++ x :: y :: v -> is_space x = true -> is_space y = false.
Proof.
  induction s as [|c s IH]; intros b u x y v H Hx; cbn in H.
  - now destruct u.
  - destruct (is_space c) eqn:Hc.
    + destruct b; [eapply IH; eauto|].
      destruct u as [|z u]; cbn in H; injection H as <- H.
      * eapply collapse_spaces_after_space; eauto.
      * eapply IH; eauto.
    + destruct u as [|z u]; cbn in H; injection H as <- H; [congruence|].
      eapply IH; eauto.
Qed.

Lemma collapse_spaces_twice s :
  (forall b, collapse_spaces b (collapse_spaces true s) = collapse_spaces true s)
  /\ collapse_spaces false (collapse_spaces false s) = collapse_spaces false s.
Proof.
  induction s as [|c s [IH1 IH2]]; [split; [intros []|]; reflexivity|].
  cbn [collapse_spaces]. destruct (is_space c) eqn:Hc.
  - split; [exact IH1|]. cbn. now rewrite IH1.
  - split; [intros b|]; cbn [collapse_spaces]; rewrite Hc, IH2; reflexivity.
Qed.

Lemma collapse_spaces_keeps s : forall b,
  filter (fun c => is_space c = false) (collapse_spaces b s)
  = filter (fun c => is_space c = false) s.
Proof.
  induction s as [|c s IH]; intros b; [reflexivity|].
  cbn [collapse_spaces]. destruct (is_space c) eqn:Hc.
  - rewrite (filter_cons_False _ c s) by congruence.
    destruct b; [apply IH|]. rewrite filter_cons_False by done. apply IH.
  - rewrite !filter_cons_True by done. now rewrite IH.
Qed.

(** X1. After [text.replace(/\s+/g, ' ')] every white-space code unit of
    the text is a plain space and no two of them are adjacent; the other
    code units are those of the text, in their order; and normalizing a
    second time changes nothing. *)
Theorem normalize_single_spaces (text : jsstring) :
  Forall (fun c => is_space c = true -> c = ch " ") (normalize text)
  /\ (forall u x y v,
        normalize text = u ++ x :: y :: v -> is_space x = true -> is_space y = false)
  /\ filter (fun c => is_space c = false) (normalize text)
     = filter (fun c => is_space c = false) text
  /\ normalize (normalize text) = normalize text.
Proof.
  unfold normalize. repeat split.
  - apply collapse_spaces_only_spaces.
  - apply collapse_spaces_no_run.
  - apply collapse_spaces_keeps.
  - apply collapse_spaces_twice.
Qed.

(** *** Phone numbers *)

Lemma all_digits_strip s : all_digits (strip_non_digits s).
Proof.
  unfold all_digits, strip_non_digits. apply Forall_forall. intros x Hx.
  now apply list_elem_of_filter in Hx as [Hx _].
Qed.

Lemma strip_non_digits_digits d : all_digits d -> strip_non_digits d = d.
Proof.
  unfold all_digits, strip_non_digits. induction 1 as [|x d Hx Hd IH]; [reflexivity|].
  rewrite filter_cons_True by done. now rewrite IH.
Qed.

Lemma formatPhoneNumber_ten d :
  all_digits d -> length d = 10%nat ->
  formatted_number (formatPhoneNumber d) /\ strip_non_digits (formatPhoneNumber d) = d.
Proof.
  intros Hd Hlen. unfold formatPhoneNumber. rewrite bool_decide_eq_true_2 by done.
  unfold slice, slice_from. rewrite drop_0. change (3 - 0)%nat with 3%nat.
  change (6 - 3)%nat with 3%nat.
  assert (H3 : all_digits (take 3 d)) by (now apply Forall_take).
  assert (H6 : all_digits (take 3 (drop 3 d))) by (now apply Forall_take, Forall_drop).
  assert (H10 : all_digits (drop 6 d)) by (now apply Forall_drop).
  split.
  - exists (take 3 d), (take 3 (drop 3 d)), (drop 6 d).
    rewrite !length_take, !length_drop. repeat split; try done; lia.
  - unfold strip_non_digits. rewrite !filter_app.
    change (filter _ (js "(")) with (@nil N).
    change (filter _ (js ") ")) with (@nil N).
    change (filter _ (js " - ")) with (@nil N).
    fold (strip_non_digits (take 3 d)). fold (strip_non_digits (take 3 (drop 3 d))).
    fold (strip_non_digits (drop 6 d)).
    rewrite !strip_non_digits_digits by done. cbn [app].
    change (drop 6 d) with (drop (3 + 3) d).
    now rewrite <- drop_drop, !take_drop.
Qed.

(** X2. [formatPhoneNumber] keeps the digits: taking the non-digits out
    of its result, as [replace(/\D/g, '')] does, gives back the string of
    digits it was given, whatever its length. So two different strings of
    digits are never formatted alike. *)
Theorem formatPhoneNumber_keeps_digits :
  (forall d, all_digits d -> strip_non_digits (formatPhoneNumber d) = d)
  /\ (forall d1 d2, all_digits d1 -> all_digits d2 ->
        formatPhoneNumber d1 = formatPhoneNumber d2 -> d1 = d2).
Proof.
  assert (H : forall d, all_digits d -> strip_non_digits (formatPhoneNumber d) = d).
  { intros d Hd. destruct (decide (length d = 10%nat)) as [Hlen|Hlen].
    - now apply formatPhoneNumber_ten.
    - unfold formatPhoneNumber. rewrite bool_decide_eq_false_2 by done.
      now apply strip_non_digits_digits. }
  split; [exact H|].
  intros d1 d2 H1 H2 E. rewrite <- (H d1 H1), <- (H d2 H2). now rewrite E.
Qed.

Lemma fax_ten_digits_shape n s : fax_ten_digits n = Some s -> formatted_number s.
Proof.
  unfold fax_ten_digits. destruct (match_ re_to n) as [m|]; [|discriminate].
  case_bool_decide as Hlen; [|discriminate]. intros [= <-].
  apply formatPhoneNumber_ten; [apply all_digits_strip|exact Hlen].
Qed.

Lemma fax_any_length_shape n s :
  fax_any_length n = Some s -> formatted_number s \/ (all_digits s /\ length s <> 10%nat).
Proof.
  unfold fax_any_length. destruct (match_ re_fax n) as [m|]; [|discriminate].
  intros [= <-]. pose proof (all_digits_strip (group 1 m)) as Hd.
  destruct (decide (length (strip_non_digits (group 1 m)) = 10%nat)) as [Hlen|Hlen].
  - left. now apply formatPhoneNumber_ten.
  - right. unfold formatPhoneNumber. now rewrite bool_decide_eq_false_2.
Qed.

Lemma truthy_Some v : truthy v = true -> exists s, v = Some s /\ s <> [].
Proof. destruct v as [[|x s]|]; try discriminate. intros _. now exists (x :: s). Qed.

Lemma complete_fields party r :
  complete party r = true ->
  (exists s, createdAt r = Some s /\ s <> [])
  /\ (exists s, party r = Some s /\ s <> [])
  /\ (exists s, sender r = Some s /\ s <> []).
Proof.
  unfold complete. intros H.
  apply andb_prop in H as [H Hs]. apply andb_prop in H as [Hc Hp].
  auto using truthy_Some.
Qed.

(** What [parsePdfText] returns is the candidate record, complete. *)
Lemma parser_of_candidate Date_parse (p : Program) text g r :
  (parser_of Date_parse p text g).1 = Some r ->
  complete (party_of p) r = true
  /\ r = match p with
         | sent_js_1 => (SentExamDate.candidate text g).1
         | sent_js_2 => ReceivedNameOnly.candidate text
         | part_000_1 => SentTimestamp.candidate text
         | part_000_2 => SentTimestampPrevDay.candidate text
         | part_001 => ReceivedFrom.candidate Date_parse text
         | received_js => ReceivedTo.candidate text
         end.
Proof.
  destruct p; cbn [parser_of party_of pure_parser fst]; intros H.
  - apply SentExamDate_parse_iff in H. tauto.
  - apply ReceivedNameOnly_parse_iff in H. tauto.
  - apply SentTimestamp_parse_iff in H. tauto.
  - apply SentTimestampPrevDay_parse_iff in H. tauto.
  - apply ReceivedFrom_parse_iff in H. tauto.
  - apply ReceivedTo_parse_iff in H. tauto.
Qed.

Lemma SentExamDate_candidate_from text g :
  from (SentExamDate.candidate text g).1 = fax_any_length (normalize text).
Proof.
  unfold SentExamDate.candidate. cbv zeta.
  now destruct (SentExamDate.extract_createdAt (normalize text) g).
Qed.

(** X3. The number a returned record carries for the extracted party is
    never empty. In the second program of sent.js and in received.js,
    which test the length, it always has the form [(ddd) ddd - dddd]; in
    the four other programs it has that form or is a string of digits of
    another length than ten, kept as it is. *)
Theorem extracted_number_shape Date_parse (p : Program) text g r :
  (parser_of Date_parse p text g).1 = Some r ->
  exists s,
    party_of p r = Some s /\ s <> []
    /\ (formatted_number s
        \/ (checks_ten_digits p = false /\ all_digits s /\ length s <> 10%nat)).
Proof.
  intros H. apply parser_of_candidate in H as [Hc Hr].
  destruct (complete_fields _ _ Hc) as (_ & (s & Hs & Hne) & _).
  exists s. split; [exact Hs|]. split; [exact Hne|].
  rewrite Hr in Hs. clear Hr Hc.
  destruct p; cbn [party_of checks_ten_digits] in *.
  - rewrite SentExamDate_candidate_from in Hs.
    destruct (fax_any_length_shape _ _ Hs); auto.
  - left. exact (fax_ten_digits_shape _ _ Hs).
  - destruct (fax_any_length_shape _ _ Hs); auto.
  - destruct (fax_any_length_shape _ _ Hs); auto.
  - destruct (fax_any_length_shape _ _ Hs); auto.
  - left. exact (fax_ten_digits_shape _ _ Hs).
Qed.

Lemma extracted_number_shape_witness :
  exists s,
    party_of received_js (ReceivedTo.candidate sample_text) = Some s /\ s <> []
    /\ (formatted_number s
        \/ (checks_ten_digits received_js = false /\ all_digits s /\ length s <> 10%nat)).
Proof.
  apply (extracted_number_shape no_dates received_js sample_text (constant_rng 0)).
  vm_compute. reflexivity.
Defined.

(** *** The sender *)

Lemma trimStart_suffix s : exists p, s = p ++ trimStart s.
Proof.
  induction s as [|c s [p IH]]; [now exists []|]. cbn.
  destruct (is_space c); [|now exists []]. exists (c :: p). cbn. now rewrite <- IH.
Qed.

Lemma trimStart_head s c t : trimStart s = c :: t -> is_space c = false.
Proof.
  induction s as [|x s IH]; cbn; [done|].
  destruct (is_space x) eqn:E; [exact IH|]. now intros [= <- <-].
Qed.

Lemma Forall_trim (P : N -> Prop) s : Forall P s -> Forall P (trim s).
Proof.
  intros H. unfold trim.
  destruct (trimStart_suffix s) as [p Hp].
  destruct (trimStart_suffix (reverse (trimStart s))) as [q Hq].
  rewrite Hp in H. apply Forall_app in H as [_ H].
  apply Forall_reverse in H. rewrite Hq in H. apply Forall_app in H as [_ H].
  now apply Forall_reverse.
Qed.

Lemma trim_ends s :
  (forall c t, trim s = c :: t -> is_space c = false)
  /\ (forall t c, trim s = t ++ [c] -> is_space c = false).
Proof.
  unfold trim. split.
  - intros c t H.
    destruct (trimStart_suffix (reverse (trimStart s))) as [q Hq].
    apply (f_equal reverse) in Hq. rewrite reverse_involutive, reverse_app, H in Hq.
    exact (trimStart_head s c _ Hq).
  - intros t c H. apply (f_equal reverse) in H.
    rewrite reverse_involutive, reverse_app in H.
    exact (trimStart_head _ c _ H).
Qed.

(** A code unit that matches a capital letter or a dot under [i] is of the
    class of the names. *)
Lemma is_char_i_name (a : ascii) (x : N) :
  is_upper (ch a) = true \/ ch a = 46%N -> is_char_i a x = true -> name_char x = true.
Proof.
  intros Hk H. unfold is_char_i in H. apply N.eqb_eq in H.
  assert (Hc : canonicalize (ch a) = ch a).
  { unfold canonicalize, is_lower. destruct Hk as [Hu| ->]; [|reflexivity].
    unfold is_upper in Hu. apply andb_prop in Hu as [H1 H2]. apply N.leb_le in H1, H2.
    rewrite (proj2 (N.leb_gt 97 (ch a))) by lia. reflexivity. }
  rewrite Hc in H. unfold name_char. destruct Hk as [Hu|He].
  - rewrite H, Hu. reflexivity.
  - rewrite He in H. assert (x = 46%N) as ->; [|reflexivity].
    unfold canonicalize, is_lower in H.
    destruct ((97 <=? x) && (x <=? 122))%N eqn:E; [|exact H].
    apply andb_prop in E as [E1 E2]. apply N.leb_le in E1, E2. lia.
Qed.

Lemma credentials_letters c :
  c ∈ credentials ->
  Forall (fun a => is_upper (ch a) = true \/ ch a = 46%N) (list_ascii_of_string c).
Proof.
  intros Hc. unfold credentials in Hc.
  repeat (apply elem_of_cons in Hc as [->|Hc];
          [repeat constructor; first [now left|now right]|]).
  by apply elem_of_nil in Hc.
Qed.

Lemma credential_name_chars w c :
  c ∈ credentials -> equal_ignoring_case w c -> Forall (fun x => name_char x = true) w.
Proof.
  intros Hc H. apply credentials_letters in Hc. unfold equal_ignoring_case in H.
  induction H as [|a x l w Hax H IH]; [constructor|].
  apply Forall_cons in Hc as [Ha Hl]. constructor; [|now apply IH].
  exact (is_char_i_name a x Ha Hax).
Qed.

Lemma physician_name_only_chars n s :
  physician_name_only n = Some s -> Forall (fun x => name_char x = true) s.
Proof.
  unfold physician_name_only.
  destruct (match_ re_physician_name n) as [m|] eqn:E; [|discriminate]. intros [= <-].
  apply Forall_trim. now apply re_physician_name_capture in E.
Qed.

Lemma physician_with_fallback_chars n s :
  physician_with_fallback n = Some s -> Forall (fun x => name_char x = true) s.
Proof.
  unfold physician_with_fallback.
  destruct (match_ re_physician_information n) as [m|] eqn:E.
  - intros [= <-]. apply Forall_trim.
    apply re_physician_information_capture in E as (name & cred & c & -> & _ & Hn & Hc & Hi).
    apply Forall_app. split; [exact Hn|]. exact (credential_name_chars _ _ Hc Hi).
  - destruct (match_ re_physician_name n) as [m|] eqn:E'; [|discriminate]. intros [= <-].
    apply Forall_trim. now apply re_physician_name_capture in E'.
Qed.

Lemma sender_is_trimmed Date_parse (p : Program) text g r s :
  is_received p = true ->
  (parser_of Date_parse p text g).1 = Some r -> sender r = Some s ->
  Forall (fun x => name_char x = true) s /\ exists w, s = trim w.
Proof.
  intros Hp H Hs. apply parser_of_candidate in H as [_ Hr]. rewrite Hr in Hs. clear Hr.
  destruct p; try discriminate Hp; cbn [sender ReceivedNameOnly.candidate
    ReceivedFrom.candidate ReceivedTo.candidate] in Hs.
  - split; [exact (physician_name_only_chars _ _ Hs)|].
    unfold physician_name_only in Hs. destruct (match_ _ _); [|discriminate].
    injection Hs as <-. eauto.
  - split; [exact (physician_with_fallback_chars _ _ Hs)|].
    unfold physician_with_fallback in Hs.
    destruct (match_ _ _); [injection Hs as <-; eauto|].
    destruct (match_ _ _); [injection Hs as <-; eauto|discriminate].
  - split; [exact (physician_with_fallback_chars _ _ Hs)|].
    unfold physician_with_fallback in Hs.
    destruct (match_ _ _); [injection Hs as <-; eauto|].
    destruct (match_ _ _); [injection Hs as <-; eauto|discriminate].
Qed.

(** X4. In the three Received programs the sender of a returned record
    is not empty, has no white space at either end, and is made of
    letters, white space, commas and dots only. *)
Theorem sender_shape Date_parse (p : Program) text g r :
  is_received p = true ->
  (parser_of Date_parse p text g).1 = Some r ->
  exists s,
    sender r = Some s /\ s <> []
    /\ Forall (fun x => name_char x = true) s
    /\ (forall c t, s = c :: t -> is_space c = false)
    /\ (forall t c, s = t ++ [c] -> is_space c = false).
Proof.
  intros Hp H.
  destruct (parser_of_candidate _ _ _ _ _ H) as [Hc _].
  destruct (complete_fields _ _ Hc) as (_ & _ & s & Hs & Hne).
  destruct (sender_is_trimmed _ _ _ _ _ _ Hp H Hs) as (Hn & w & ->).
  exists (trim w). repeat split; try done; apply trim_ends.
Qed.

Lemma sender_shape_witness :
  exists s,
    sender (ReceivedTo.candidate sample_text) = Some s /\ s <> []
    /\ Forall (fun x => name_char x = true) s
    /\ (forall c t, s = c :: t -> is_space c = false)
    /\ (forall t c, s = t ++ [c] -> is_space c = false).
Proof.
  apply (sender_shape no_dates received_js sample_text (constant_rng 0)).
  - reflexivity.
  - vm_compute. reflexivity.
Defined.

(** *** The random time *)

Lemma getRandomTime_bounds (g : Rng) :
  let '((randomHour, randomMinute, randomSecond), _) := getRandomTime g in
  (8 <= randomHour <= 17)%Z /\ (0 <= randomMinute <= 59)%Z /\ (0 <= randomSecond <= 59)%Z.
Proof.
  rewrite getRandomTime_eq.
  pose proof (hour_of_range _ (Z.mod_pos_bound (draws g (drawn g)) one eq_refl)).
  pose proof (sixtieth_of_range _ (Z.mod_pos_bound (draws g (S (drawn g))) one eq_refl)).
  pose proof (sixtieth_of_range _ (Z.mod_pos_bound (draws g (S (S (drawn g)))) one eq_refl)).
  repeat split; lia.
Qed.

(** X5. Whatever [Math.random] returns among the doubles [k / 2^53] of
    [0, 1), the values V8 returns, [getRandomTime] gives an hour
    from 8 to 17, a minute and a second from 0 to 59, and draws exactly
    three random numbers. *)
Theorem getRandomTime_range (g : Rng) :
  let '((randomHour, randomMinute, randomSecond), g') := getRandomTime g in
  (8 <= randomHour <= 17)%Z /\ (0 <= randomMinute <= 59)%Z /\ (0 <= randomSecond <= 59)%Z
  /\ draws g' = draws g /\ drawn g' = (drawn g + 3)%nat.
Proof.
  pose proof (getRandomTime_bounds g) as H. rewrite getRandomTime_eq in *.
  cbn [draws drawn]. repeat split; try tauto. lia.
Qed.

(** *** The 12-hour clock *)

(** X6. On an hour from 1 to 12 with AM or PM, the conversion written
    out in the programs gives an hour from 0 to 23, below 12 exactly for
    AM, and two different times of the 12-hour clock never give the same
    hour. *)
Theorem adjustedHour_one_to_one (h1 p1 h2 p2 : jsstring) :
  (1 <= Number_of_digits h1 <= 12)%Z -> p1 = js "AM" \/ p1 = js "PM" ->
  (1 <= Number_of_digits h2 <= 12)%Z -> p2 = js "AM" \/ p2 = js "PM" ->
  (0 <= adjustedHour h1 p1 <= 23)%Z
  /\ ((adjustedHour h1 p1 < 12)%Z <-> p1 = js "AM")
  /\ (adjustedHour h1 p1 = adjustedHour h2 p2 ->
      Number_of_digits h1 = Number_of_digits h2 /\ p1 = p2).
Proof.
  intros H1 P1 H2 P2.
  destruct (adjustedHour_spec h1) as [A1 B1]. destruct (adjustedHour_spec h2) as [A2 B2].
  cbv zeta in *.
  assert (Hne : js "AM" <> js "PM") by discriminate.
  destruct (Z.eqb_spec (Number_of_digits h1) 12), (Z.eqb_spec (Number_of_digits h2) 12),
    P1 as [-> | ->], P2 as [-> | ->];
    rewrite ?A1, ?B1, ?A2, ?B2;
    (split; [lia|]); (split; [split; [intros ?; first [reflexivity|lia] | intros ?; first [lia|congruence]]|]);
    intros ?; split; first [reflexivity|lia].
Qed.

Lemma adjustedHour_one_to_one_witness :
  (0 <= adjustedHour (js "12") (js "AM") <= 23)%Z
  /\ ((adjustedHour (js "12") (js "AM") < 12)%Z <-> js "AM" = js "AM")
  /\ (adjustedHour (js "12") (js "AM") = adjustedHour (js "12") (js "PM") ->
      Number_of_digits (js "12") = Number_of_digits (js "12") /\ js "AM" = js "PM").
Proof.
  apply (adjustedHour_one_to_one (js "12") (js "AM") (js "12") (js "PM"));
    first [vm_compute; split; discriminate | now left | now right].
Defined.

(** ** Dates *)

Lemma Number_of_digits_nonneg w : all_digits w -> (0 <= Number_of_digits w)%Z.
Proof.
  unfold Number_of_digits.
  enough (forall l acc, all_digits l -> (0 <= acc)%Z ->
            (0 <= fold_left (fun acc c => 10 * acc + (Z.of_N c - 48)) l acc)%Z) by auto with zarith.
  clear. induction l as [|c l IH]; intros acc Hl Hacc; [done|].
  apply Forall_cons in Hl as [Hc Hl]. cbn. apply IH; [done|].
  unfold is_digit in Hc. apply andb_prop in Hc as [Hc _]. apply N.leb_le in Hc. lia.
Qed.

(** A run of digits ends where the first other code unit stands. *)
Lemma digits_then_other a : forall a' x x' r r',
  all_digits a -> all_digits a' -> is_digit x = false -> is_digit x' = false ->
  a ++ x :: r = a' ++ x' :: r' -> a = a' /\ x :: r = x' :: r'.
Proof.
  induction a as [|c a IH]; intros [|c' a'] x x' r r' Ha Ha' Hx Hx' E; cbn in E.
  - done.
  - injection E as -> _. apply Forall_cons in Ha' as [Hc _]. congruence.
  - injection E as -> _. apply Forall_cons in Ha as [Hc _]. congruence.
  - injection E as -> E. apply Forall_cons in Ha as [_ Ha]. apply Forall_cons in Ha' as [_ Ha'].
    destruct (IH a' x x' r r' Ha Ha' Hx Hx' E) as [-> ?]. done.
Qed.

Lemma match_here_complete r w caps post :
  lang r w caps -> match_here r (w ++ post) <> None.
Proof. intros H. unfold match_here. eapply rmatch_complete; [exact H|done]. Qed.

Lemma match_at_start r s : match_here r s <> None -> match_ r s = match_here r s.
Proof. intros H. destruct s; cbn [match_]; now destruct (match_here r _). Qed.

(** The second pattern finds the six fields of a timestamp. *)
Lemma re_timestamp_fields_exact month day year hour minute period :
  timestamp_shape month day year hour minute period ->
  exists m,
    match_ re_timestamp_fields (timestamp_text month day year hour minute period) = Some m
    /\ groups m = [(6, period); (5, minute); (4, hour); (3, year); (2, day); (1, month)]%nat.
Proof.
  intros Hs. destruct (re_timestamp_fields_complete _ _ _ _ _ _ Hs) as (caps & Hl).
  pose proof (match_here_complete _ _ _ [] Hl) as Hne. rewrite app_nil_r in Hne.
  rewrite (match_at_start _ _ Hne).
  destruct (match_here re_timestamp_fields _) as [m|] eqn:E; [clear Hne|done].
  exists m. split; [done|].
  apply match_here_sound in E as (s' & E & H).
  apply re_timestamp_fields_sound in H as (mo & d & y & h & mi & p & Hs' & Hw & ->).
  rewrite Hw in E. clear Hw Hl.
  destruct Hs as ((Hmo & _) & (Hd & _) & (Hy & _) & (Hh & _) & (Hmi & _) & Hp).
  destruct Hs' as ((Hmo' & _) & (Hd' & _) & (Hy' & _) & (Hh' & _) & (Hmi' & _) & Hp').
  unfold timestamp_text in E. rewrite <- !app_assoc in E.
  cbn in E.
  apply digits_then_other in E as [-> E]; try done. injection E; clear E; intros E.
  apply digits_then_other in E as [-> E]; try done. injection E; clear E; intros E.
  apply digits_then_other in E as [-> E]; try done. injection E; clear E; intros E.
  apply digits_then_other in E as [-> E]; try done. injection E; clear E; intros E.
  apply digits_then_other in E as [-> E]; try done. injection E; clear E; intros E.
  destruct Hp as [-> | ->], Hp' as [-> | ->]; cbn in E; try discriminate E; now injection E as <-.
Qed.

Local Open Scope Z_scope.

(** The date of a day number given by its era, its year in the era, its
    day in the year counted from 1 March, and the month of that day. *)
Lemma civil_from_days_parts era yoe doy mp :
  0 <= yoe <= 399 ->
  0 <= doy <= 364
  \/ (doy = 365 /\ (yoe + 1) mod 4 = 0 /\ ((yoe + 1) mod 100 <> 0 \/ yoe = 399)) ->
  0 <= mp <= 11 ->
  (153 * mp + 2) / 5 <= doy < (153 * (mp + 1) + 2) / 5 ->
  Date.civil_from_days (era * 146097 + (yoe * 365 + yoe / 4 - yoe / 100 + doy) - 719468)
  = (let m := if mp <? 10 then mp + 3 else mp - 9 in
     (if m <=? 2 then yoe + era * 400 + 1 else yoe + era * 400,
      m, doy - (153 * mp + 2) / 5 + 1)).
Proof.
  intros Hyoe Hdoy Hmp Hm. unfold Date.civil_from_days. cbv zeta.
  set (doe := yoe * 365 + yoe / 4 - yoe / 100 + doy).
  assert (Hdoe : 0 <= doe <= 146096) by (subst doe; Z.div_mod_to_equations; lia).
  replace (era * 146097 + doe - 719468 + 719468) with (doe + era * 146097) by ring.
  rewrite Z.div_add, (Z.div_small doe) by lia.
  replace (doe + (0 + era) * 146097 - (0 + era) * 146097) with doe by ring.
  replace (doe + era * 146097 - (0 + era) * 146097) with doe by ring.
  assert (Hy : (doe - doe / 1460 + doe / 36524 - doe / 146096) / 365 = yoe)
    by (subst doe; Z.div_mod_to_equations; lia).
  rewrite Hy.
  replace (doe - (365 * yoe + yoe / 4 - yoe / 100)) with doy by (subst doe; ring).
  assert (Hp : (5 * doy + 2) / 153 = mp) by (Z.div_mod_to_equations; lia).
  rewrite Hp. reflexivity.
Qed.

Lemma leap_year_true y :
  leap_year y = true -> y mod 4 = 0 /\ (y mod 100 <> 0 \/ y mod 400 = 0).
Proof.
  unfold leap_year. destruct (Z.eqb_spec (y mod 4) 0), (Z.eqb_spec (y mod 100) 0),
    (Z.eqb_spec (y mod 400) 0); cbn; intros H; try discriminate H;
    (split; [|tauto]); first [assumption | Z.div_mod_to_equations; lia].
Qed.

Ltac split_ifs :=
  repeat match goal with
    | |- context [if (?a <? ?b) then _ else _] => destruct (Z.ltb_spec a b)
    | |- context [if (?a <=? ?b) then _ else _] => destruct (Z.leb_spec a b)
    | H : context [if (?a <? ?b) then _ else _] |- _ => destruct (Z.ltb_spec a b)
    | H : context [if (?a <=? ?b) then _ else _] |- _ => destruct (Z.leb_spec a b)
    | H : context [(?a =? ?b)] |- _ => destruct (Z.eqb_spec a b)
    end.

Lemma days_in_month_bounds y m :
  (m = 2 /\ leap_year y = true /\ days_in_month y m = 29)
  \/ (m = 2 /\ leap_year y = false /\ days_in_month y m = 28)
  \/ ((m = 4 \/ m = 6 \/ m = 9 \/ m = 11) /\ days_in_month y m = 30)
  \/ (m <> 2 /\ m <> 4 /\ m <> 6 /\ m <> 9 /\ m <> 11 /\ days_in_month y m = 31).
Proof.
  unfold days_in_month.
  destruct (Z.eqb_spec m 2), (Z.eqb_spec m 4), (Z.eqb_spec m 6), (Z.eqb_spec m 9),
    (Z.eqb_spec m 11); cbn [orb]; try destruct (leap_year y); tauto.
Qed.

(** The day number of a date of the calendar gives the date back. *)
Lemma day_number_round_trip y m d :
  calendar_date m d y -> Date.civil_from_days (Date.days_from_civil y m d) = (y, m, d).
Proof.
  intros [Hm Hd]. unfold Date.days_from_civil. cbv zeta.
  set (y' := if m <=? 2 then y - 1 else y).
  set (mp := if 2 <? m then m - 3 else m + 9).
  set (yoe := y' - y' / 400 * 400).
  assert (Hyoe : 0 <= yoe <= 399) by (subst yoe; Z.div_mod_to_equations; lia).
  assert (Hmp : 0 <= mp <= 11) by (subst mp; split_ifs; lia).
  assert (Hleap : m = 2 -> d = 29 ->
            (yoe + 1) mod 4 = 0 /\ ((yoe + 1) mod 100 <> 0 \/ yoe = 399)).
  { intros -> ->. destruct (days_in_month_bounds y 2) as [H|[H|[H|H]]]; try lia.
    destruct H as (_ & E & _). apply leap_year_true in E.
    subst yoe y'. split_ifs; try lia. Z.div_mod_to_equations. lia. }
  assert (Hcases : m = 1 \/ m = 2 \/ m = 3 \/ m = 4 \/ m = 5 \/ m = 6 \/ m = 7 \/ m = 8
                   \/ m = 9 \/ m = 10 \/ m = 11 \/ m = 12) by lia.
  pose proof (days_in_month_bounds y m) as Hdim.
  assert (Hdoy : (153 * mp + 2) / 5 <= (153 * mp + 2) / 5 + d - 1 < (153 * (mp + 1) + 2) / 5
                 /\ ((153 * mp + 2) / 5 + d - 1 <= 364 \/ (m = 2 /\ d = 29))).
  { subst mp. repeat destruct Hcases as [->|Hcases]; try subst m; split_ifs; try lia;
      Z.div_mod_to_equations; lia. }
  destruct Hdoy as [Hdoy1 Hdoy2].
  rewrite (civil_from_days_parts (y' / 400) yoe ((153 * mp + 2) / 5 + d - 1) mp).
  - cbv zeta. subst mp yoe y'. split_ifs; try lia; (f_equal; [f_equal|]); lia.
  - exact Hyoe.
  - destruct Hdoy2 as [?|[? ?]].
    + left. Z.div_mod_to_equations. lia.
    + right. split; [subst mp m d; reflexivity|]. now apply Hleap.
  - exact Hmp.
  - exact Hdoy1.
Qed.

Lemma leap_year_false y :
  leap_year y = false -> y mod 4 <> 0 \/ (y mod 100 = 0 /\ y mod 400 <> 0).
Proof.
  unfold leap_year. destruct (Z.eqb_spec (y mod 4) 0), (Z.eqb_spec (y mod 100) 0),
    (Z.eqb_spec (y mod 400) 0); cbn; intros H; try discriminate H; tauto.
Qed.

(** The last day of a month is the day before the first of the next. *)
Lemma day_number_first_of_month y m :
  2 <= m <= 12 ->
  Date.days_from_civil y m 1 - 1 = Date.days_from_civil y (m - 1) (days_in_month y (m - 1)).
Proof.
  intros Hm.
  assert (Hcases : m = 2 \/ m = 3 \/ m = 4 \/ m = 5 \/ m = 6 \/ m = 7 \/ m = 8
                   \/ m = 9 \/ m = 10 \/ m = 11 \/ m = 12) by lia.
  pose proof (days_in_month_bounds y (m - 1)) as Hdim.
  unfold Date.days_from_civil. cbv zeta.
  repeat destruct Hcases as [->|Hcases]; try subst m;
    destruct Hdim as [(? & E & ->)|[(? & E & ->)|[(? & ->)|(? & ? & ? & ? & ? & ->)]]];
    try lia; split_ifs; try lia;
    try apply leap_year_true in E; try apply leap_year_false in E;
    Z.div_mod_to_equations; lia.
Qed.

Lemma day_number_first_of_year y :
  Date.days_from_civil y 1 1 - 1 = Date.days_from_civil (y - 1) 12 31.
Proof.
  unfold Date.days_from_civil. cbv zeta. split_ifs; try lia.
  Z.div_mod_to_equations. lia.
Qed.

(** The day number before the one of a date is the one of the day before. *)
Lemma day_number_before y m d :
  calendar_date m d y ->
  Date.civil_from_days (Date.days_from_civil y m d - 1)
  = (let '(m', d', y') := previous_day m d y in (y', m', d')).
Proof.
  intros [Hm Hd]. unfold previous_day.
  destruct (Z.ltb_spec 1 d) as [H1|H1]; [|destruct (Z.ltb_spec 1 m) as [H2|H2]].
  - replace (Date.days_from_civil y m d - 1) with (Date.days_from_civil y m (d - 1))
      by (unfold Date.days_from_civil; cbv zeta; ring).
    apply day_number_round_trip. split; lia.
  - replace d with 1 by lia. rewrite day_number_first_of_month by lia.
    apply day_number_round_trip. split; [lia|].
    destruct (days_in_month_bounds y (m - 1)) as [H|[H|[H|H]]]; lia.
  - replace d with 1 by lia. replace m with 1 by lia. rewrite day_number_first_of_year.
    apply day_number_round_trip. split; [lia|].
    destruct (days_in_month_bounds (y - 1) 12) as [H|[H|[H|H]]]; lia.
Qed.

Lemma months_in_range m : 1 <= m <= 12 -> (m - 1) / 12 = 0 /\ (m - 1) mod 12 = m - 1.
Proof. intros H. split; [apply Z.div_small|apply Z.mod_small]; lia. Qed.

Lemma Date_time_of_day D hours minutes :
  0 <= hours < 24 -> 0 <= minutes < 60 ->
  let t := Date.MakeDate D (Date.MakeTime hours minutes 0) in
  t / Date.msPerDay = D /\ t mod Date.msPerDay = Date.MakeTime hours minutes 0.
Proof.
  intros Hh Hm. cbv zeta.
  unfold Date.MakeDate, Date.MakeTime, Date.msPerDay, Date.msPerHour, Date.msPerMinute,
    Date.msPerSecond.
  Z.div_mod_to_equations. lia.
Qed.

Lemma Date_MakeDay year month day :
  1 <= month <= 12 -> Date.MakeDay year (month - 1) day = Date.days_from_civil year month day.
Proof.
  intros Hm. unfold Date.MakeDay.
  destruct (months_in_range month Hm) as [-> ->].
  replace (year + 0) with year by ring. replace (month - 1 + 1) with month by ring.
  unfold Date.days_from_civil. cbv zeta. ring.
Qed.

(** The fields of [new Date(year, month - 1, day, hours, minutes)] for a
    date of the calendar, and of the same after
    [setDate(getDate() - 1)]. *)
Lemma Date_day_earlier year month day hours minutes :
  100 <= year -> calendar_date month day year -> 0 <= hours < 24 -> 0 <= minutes < 60 ->
  let dateObj := Date.make year (month - 1) day hours minutes in
  let earlier := Date.setDate (Date.getDate dateObj - 1) dateObj in
  (Date.getFullYear dateObj = year /\ Date.getMonth dateObj + 1 = month
   /\ Date.getDate dateObj = day)
  /\ (Date.getMonth earlier + 1, Date.getDate earlier, Date.getFullYear earlier)
     = previous_day month day year.
Proof.
  intros Hy Hdate Hh Hm. cbv zeta.
  pose proof Hdate as [Hmonth _].
  unfold Date.make, Date.MakeFullYear.
  rewrite (proj2 (andb_false_iff _ _)) by (right; apply Z.leb_gt; lia).
  rewrite Date_MakeDay by exact Hmonth.
  set (D := Date.days_from_civil year month day).
  destruct (Date_time_of_day D hours minutes Hh Hm) as [Hdiv Hmod]. cbv zeta in Hdiv, Hmod.
  set (t := Date.MakeDate D (Date.MakeTime hours minutes 0)) in *.
  assert (Hfields : Date.getFullYear t = year /\ Date.getMonth t + 1 = month
                    /\ Date.getDate t = day).
  { unfold Date.getFullYear, Date.getMonth, Date.getDate. rewrite Hdiv. subst D.
    rewrite day_number_round_trip by exact Hdate. cbn [fst snd]. repeat split. ring. }
  split; [exact Hfields|].
  destruct Hfields as (Hfy & Hfm & Hfd).
  unfold Date.setDate. rewrite Hfy, Hfd, Hmod.
  replace (Date.getMonth t) with (month - 1) by lia.
  rewrite Date_MakeDay by exact Hmonth.
  replace (Date.days_from_civil year month (day - 1)) with (D - 1)
    by (subst D; unfold Date.days_from_civil; cbv zeta; ring).
  destruct (Date_time_of_day (D - 1) hours minutes Hh Hm) as [Hdiv' _]. cbv zeta in Hdiv'.
  unfold Date.getFullYear, Date.getMonth, Date.getDate. rewrite Hdiv'. subst D.
  rewrite day_number_before by exact Hdate.
  destruct (previous_day month day year) as [[m' d'] y']. cbn [fst snd].
  f_equal. f_equal. ring.
Qed.

Local Close Scope Z_scope.

Lemma adjustedHour_range hour period :
  all_digits hour -> (Number_of_digits hour <= 12)%Z -> period = js "AM" \/ period = js "PM" ->
  (0 <= adjustedHour hour period < 24)%Z.
Proof.
  intros Hd Hh Hp. pose proof (Number_of_digits_nonneg hour Hd) as H0.
  destruct (adjustedHour_spec hour) as [A B]. cbv zeta in A, B.
  destruct Hp as [-> | ->]; [rewrite A|rewrite B];
    destruct (Z.eqb_spec (Number_of_digits hour) 12); lia.
Qed.

Lemma timestamp_fields_groups normalizedText m month day year hour minute period :
  match_ re_timestamp normalizedText = Some m ->
  group 1 m = timestamp_text month day year hour minute period ->
  timestamp_shape month day year hour minute period ->
  exists fields,
    match_ re_timestamp_fields (group 1 m) = Some fields
    /\ group 1 fields = month /\ group 2 fields = day /\ group 3 fields = year
    /\ group 4 fields = hour /\ group 5 fields = minute /\ group 6 fields = period.
Proof.
  intros _ -> Hs. destruct (re_timestamp_fields_exact _ _ _ _ _ _ Hs) as (fields & E & Hg).
  exists fields. split; [exact E|]. unfold group. rewrite Hg. repeat split.
Qed.

(** X7. In the programs that keep the date of the timestamp (second
    program of sent.js, received.js, first program of part_000),
    [createdAt] is made of the fields of the first timestamp of the text:
    the year as written, the month and the day padded to two digits, the
    converted hour, the minute and [00] seconds. The fields are not
    checked against the calendar or the clock: a month 13, a day 45 or an
    hour 99 pass as they are. *)
Theorem createdAt_keeps_the_date normalizedText m month day year hour minute period :
  match_ re_timestamp normalizedText = Some m ->
  group 1 m = timestamp_text month day year hour minute period ->
  timestamp_shape month day year hour minute period ->
  createdAt_of_timestamp normalizedText
  = Some (timestamp year (padStart0 2 month) (padStart0 2 day)
            (padStart0 2 (String_of_Z (adjustedHour hour period)))
            (padStart0 2 minute) (js "00")).
Proof.
  intros Hm Hg Hs.
  destruct (timestamp_fields_groups _ _ _ _ _ _ _ _ Hm Hg Hs)
    as (fields & E & E1 & E2 & E3 & E4 & E5 & E6).
  unfold createdAt_of_timestamp. rewrite Hm, E. cbv zeta.
  now rewrite E1, E2, E3, E4, E5, E6.
Qed.

Ltac shape :=
  unfold timestamp_shape, date_shape, all_digits;
  repeat match goal with |- _ /\ _ => split end;
  first [ now left | now right | cbn; lia | repeat constructor ].

Lemma createdAt_keeps_the_date_witness :
  createdAt_of_timestamp (js "Sent 13/45/2024 9:05 PM to the pharmacy")
  = Some (timestamp (js "2024") (padStart0 2 (js "13")) (padStart0 2 (js "45"))
            (padStart0 2 (String_of_Z (adjustedHour (js "9") (js "PM"))))
            (padStart0 2 (js "05")) (js "00")).
Proof.
  eapply (createdAt_keeps_the_date (js "Sent 13/45/2024 9:05 PM to the pharmacy") _
            (js "13") (js "45") (js "2024") (js "9") (js "05") (js "PM")).
  - vm_compute. reflexivity.
  - vm_compute. reflexivity.
  - shape.
Defined.

(** On local time values: the day before, at the same time of day. *)
Lemma SentTimestampPrevDay_createdAt_local
    normalizedText m month day year hour minute period :
  match_ re_timestamp normalizedText = Some m ->
  group 1 m = timestamp_text month day year hour minute period ->
  timestamp_shape month day year hour minute period ->
  (100 <= Number_of_digits year)%Z ->
  calendar_date (Number_of_digits month) (Number_of_digits day) (Number_of_digits year) ->
  (Number_of_digits hour <= 12)%Z -> (Number_of_digits minute <= 59)%Z ->
  SentTimestampPrevDay.extract_createdAt normalizedText
  = (let '(month', day', year') :=
       previous_day (Number_of_digits month) (Number_of_digits day) (Number_of_digits year) in
     Some (timestamp (String_of_Z year') (padStart0 2 (String_of_Z month'))
             (padStart0 2 (String_of_Z day'))
             (padStart0 2 (String_of_Z (adjustedHour hour period)))
             (padStart0 2 (String_of_Z (Number_of_digits minute))) (js "00"))).
Proof.
  intros Hm Hg Hs Hy Hdate Hh Hmin.
  destruct (timestamp_fields_groups _ _ _ _ _ _ _ _ Hm Hg Hs)
    as (fields & E & E1 & E2 & E3 & E4 & E5 & E6).
  unfold SentTimestampPrevDay.extract_createdAt. rewrite Hm, E. cbv zeta.
  rewrite E1, E2, E3, E4, E5, E6.
  destruct Hs as (_ & _ & _ & (Hhd & _) & (Hmd & _) & Hp).
  pose proof (adjustedHour_range hour period Hhd Hh Hp) as Hh24.
  pose proof (Number_of_digits_nonneg minute Hmd) as Hm0.
  assert (Hm60 : (0 <= Number_of_digits minute < 60)%Z) by lia.
  destruct (Date_day_earlier _ _ _ _ _ Hy Hdate Hh24 Hm60) as [_ Hprev].
  destruct (Date_day_earlier_keeps_time (Number_of_digits year) (Number_of_digits month - 1)
              (Number_of_digits day) _ _ Hh24 Hm60) as (Ht1 & Ht2 & Ht3).
  cbv zeta in Hprev, Ht1, Ht2, Ht3. rewrite Ht1, Ht2, Ht3.
  destruct (previous_day _ _ _) as [[m' d'] y']. injection Hprev as -> -> ->.
  reflexivity.
Qed.

Lemma fixed_offset_on_the_clock tz t : InZone.fixed_offset tz -> InZone.on_the_clock tz t.
Proof.
  intros [off H]. unfold InZone.on_the_clock, InZone.LocalTime, InZone.UTC.
  destruct (H t) as [_ ->]. destruct (H (t - off)%Z) as [-> _]. lia.
Qed.

(** When the time read and the time [setDate] makes of it are on the
    clock, the zone plays no part. *)
Lemma InZone_extract_createdAt_on_the_clock tz normalizedText m fields :
  match_ re_timestamp normalizedText = Some m ->
  match_ re_timestamp_fields (group 1 m) = Some fields ->
  let read :=
    Date.make (Number_of_digits (group 3 fields)) (Number_of_digits (group 1 fields) - 1)
      (Number_of_digits (group 2 fields)) (adjustedHour (group 4 fields) (group 6 fields))
      (Number_of_digits (group 5 fields)) in
  InZone.on_the_clock tz read ->
  InZone.on_the_clock tz (Date.setDate (Date.getDate read - 1) read) ->
  InZone.extract_createdAt tz normalizedText
  = SentTimestampPrevDay.extract_createdAt normalizedText.
Proof.
  intros Hm Hf read H1 H2.
  unfold InZone.extract_createdAt, SentTimestampPrevDay.extract_createdAt.
  rewrite Hm, Hf. cbv zeta.
  unfold InZone.getFullYear, InZone.getMonth, InZone.getDate, InZone.getHours,
    InZone.getMinutes, InZone.getSeconds, InZone.setDate, InZone.make.
  fold read. unfold InZone.on_the_clock in H1, H2. rewrite H1, H2. reflexivity.
Qed.

Local Open Scope Z_scope.

(** On a date of the calendar [setDate(getDate() - 1)] takes a day off
    the local time. *)
Lemma Date_setDate_day_earlier year month day hours minutes :
  100 <= year -> calendar_date month day year -> 0 <= hours < 24 -> 0 <= minutes < 60 ->
  let dateObj := Date.make year (month - 1) day hours minutes in
  Date.setDate (Date.getDate dateObj - 1) dateObj = dateObj - Date.msPerDay.
Proof.
  intros Hy Hdate Hh Hm. cbv zeta.
  destruct (Date_day_earlier year month day hours minutes Hy Hdate Hh Hm) as [(E1 & E2 & E3) _].
  cbv zeta in E1, E2, E3.
  unfold Date.setDate. rewrite E1, E3.
  replace (Date.getMonth (Date.make year (month - 1) day hours minutes)) with (month - 1) by lia.
  unfold Date.make, Date.MakeFullYear.
  rewrite (proj2 (andb_false_iff _ _)) by (right; apply Z.leb_gt; lia).
  unfold Date.MakeDate, Date.MakeDay, Date.MakeTime.
  set (D := Date.days_from_civil _ _ _).
  set (time := hours * Date.msPerHour + minutes * Date.msPerMinute + 0 * Date.msPerSecond).
  assert (Ht : 0 <= time < Date.msPerDay)
    by (subst time; unfold Date.msPerHour, Date.msPerMinute, Date.msPerSecond, Date.msPerDay; lia).
  replace ((D + day - 1) * Date.msPerDay + time) with (time + (D + day - 1) * Date.msPerDay)
    by ring.
  rewrite Z.mod_add by discriminate. rewrite (Z.mod_small time) by exact Ht. ring.
Qed.

Local Close Scope Z_scope.

(** X8. In the second program of part_000, in any time zone, when the
    first timestamp of the text is a date of the calendar of a year from
    100 on, with an hour up to 12 and a minute up to 59, and when neither
    the time read nor the same time one day earlier falls in an hour that
    a change of the clock skips, [createdAt] is the day before in the
    calendar at the same time of day: the last day of the previous month
    on the first of a month, 31 December of the previous year on
    1 January; the hour is converted to the 24-hour clock and the seconds
    are [00]. (A year below 100 is read by [new Date] as 1900 + year.) *)
Theorem SentTimestampPrevDay_previous_calendar_day
    tz normalizedText m month day year hour minute period :
  match_ re_timestamp normalizedText = Some m ->
  group 1 m = timestamp_text month day year hour minute period ->
  timestamp_shape month day year hour minute period ->
  (100 <= Number_of_digits year)%Z ->
  calendar_date (Number_of_digits month) (Number_of_digits day) (Number_of_digits year) ->
  (Number_of_digits hour <= 12)%Z -> (Number_of_digits minute <= 59)%Z ->
  let read :=
    Date.make (Number_of_digits year) (Number_of_digits month - 1) (Number_of_digits day)
      (adjustedHour hour period) (Number_of_digits minute) in
  InZone.on_the_clock tz read ->
  InZone.on_the_clock tz (read - Date.msPerDay)%Z ->
  InZone.extract_createdAt tz normalizedText
  = (let '(month', day', year') :=
       previous_day (Number_of_digits month) (Number_of_digits day) (Number_of_digits year) in
     Some (timestamp (String_of_Z year') (padStart0 2 (String_of_Z month'))
             (padStart0 2 (String_of_Z day'))
             (padStart0 2 (String_of_Z (adjustedHour hour period)))
             (padStart0 2 (String_of_Z (Number_of_digits minute))) (js "00"))).
Proof.
  intros Hm Hg Hs Hy Hdate Hh Hmin read H1 H2.
  rewrite <- (SentTimestampPrevDay_createdAt_local _ _ _ _ _ _ _ _ Hm Hg Hs Hy Hdate Hh Hmin).
  destruct (timestamp_fields_groups _ _ _ _ _ _ _ _ Hm Hg Hs)
    as (fields & E & E1 & E2 & E3 & E4 & E5 & E6).
  apply (InZone_extract_createdAt_on_the_clock tz normalizedText m fields Hm E);
    rewrite E1, E2, E3, E4, E5, E6; fold read; [exact H1|].
  destruct Hs as (_ & _ & _ & (Hhd & _) & (Hmd & _) & Hp).
  pose proof (adjustedHour_range hour period Hhd Hh Hp) as Hh24.
  pose proof (Number_of_digits_nonneg minute Hmd) as Hm0.
  subst read. rewrite Date_setDate_day_earlier by (try assumption; lia). exact H2.
Qed.

Lemma SentTimestampPrevDay_previous_calendar_day_witness :
  InZone.extract_createdAt InZone.new_york_2024 (js "Sent 3/1/2024 12:05 AM to the pharmacy")
  = (let '(month', day', year') :=
       previous_day (Number_of_digits (js "3")) (Number_of_digits (js "1"))
         (Number_of_digits (js "2024")) in
     Some (timestamp (String_of_Z year') (padStart0 2 (String_of_Z month'))
             (padStart0 2 (String_of_Z day'))
             (padStart0 2 (String_of_Z (adjustedHour (js "12") (js "AM"))))
             (padStart0 2 (String_of_Z (Number_of_digits (js "05")))) (js "00"))).
Proof.
  eapply (SentTimestampPrevDay_previous_calendar_day InZone.new_york_2024
            (js "Sent 3/1/2024 12:05 AM to the pharmacy") _
            (js "3") (js "1") (js "2024") (js "12") (js "05") (js "AM")).
  - vm_compute. reflexivity.
  - vm_compute. reflexivity.
  - shape.
  - vm_compute. discriminate.
  - split; vm_compute; split; discriminate.
  - vm_compute. discriminate.
  - vm_compute. discriminate.
  - vm_compute. reflexivity.
  - vm_compute. reflexivity.
Defined.

(** The side condition is needed: 2:30 on 10 March 2024 is not on the clock
    of New York, and the day before 11 March, 2:30 AM, is written with the
    hour 03. *)
Example clock_change_moves_the_hour :
  ~ InZone.on_the_clock InZone.new_york_2024
      (Date.make 2024 2 11 2 30 - Date.msPerDay)%Z
  /\ InZone.extract_createdAt InZone.new_york_2024 (js "3/11/2024 2:30 AM")
     = Some (js "2024-03-10 03:30:00")
  /\ SentTimestampPrevDay.extract_createdAt (js "3/11/2024 2:30 AM")
     = Some (js "2024-03-10 02:30:00").
Proof. split; [vm_compute; discriminate|]. split; vm_compute; reflexivity. Qed.

(** In a zone whose offset never changes every local time is on the
    clock, and the program writes what [SentTimestampPrevDay] writes. *)
Lemma InZone_fixed_offset tz normalizedText :
  InZone.fixed_offset tz ->
  InZone.extract_createdAt tz normalizedText
  = SentTimestampPrevDay.extract_createdAt normalizedText.
Proof.
  intros Hz.
  destruct (match_ re_timestamp normalizedText) as [m|] eqn:Hm;
    [|unfold InZone.extract_createdAt, SentTimestampPrevDay.extract_createdAt;
      now rewrite Hm].
  destruct (match_ re_timestamp_fields (group 1 m)) as [fields|] eqn:Hf;
    [|unfold InZone.extract_createdAt, SentTimestampPrevDay.extract_createdAt;
      now rewrite Hm, Hf].
  apply (InZone_extract_createdAt_on_the_clock tz normalizedText m fields Hm Hf);
    now apply fixed_offset_on_the_clock.
Qed.



(** ** The form of [createdAt] *)

Lemma is_digit_of_N n : is_digit (48 + n mod 10) = true.
Proof.
  pose proof (N.mod_upper_bound n 10 ltac:(discriminate)) as H.
  unfold is_digit. apply andb_true_intro.
  revert H. generalize (n mod 10)%N. intros d H.
  split; apply N.leb_le; lia.
Qed.

Lemma digits_of_N_grows fuel : forall n acc,
  (length acc < length (digits_of_N fuel n acc))%nat.
Proof.
  induction fuel as [|fuel IH]; intros n acc; cbn [digits_of_N]; cbv zeta.
  - cbn. lia.
  - destruct (n / 10 =? 0)%N; [cbn; lia|].
    specialize (IH (n / 10)%N ((48 + n mod 10)%N :: acc)). cbn [length] in IH. lia.
Qed.

(** The digits [String] writes for a number below [10 ^ (k + 1)]: at
    most [k + 1]. *)
Lemma digits_of_N_upper fuel : forall n acc (k : nat),
  (n < 10 ^ N.of_nat (S k))%N -> all_digits acc ->
  all_digits (digits_of_N fuel n acc)
  /\ (length (digits_of_N fuel n acc) <= length acc + S k)%nat.
Proof.
  induction fuel as [|fuel IH]; intros n acc k Hn Hacc; cbn [digits_of_N]; cbv zeta.
  - split; [constructor; [apply is_digit_of_N|exact Hacc]|cbn; lia].
  - destruct (N.eqb_spec (n / 10) 0) as [E|E].
    + split; [constructor; [apply is_digit_of_N|exact Hacc]|cbn; lia].
    + destruct k as [|k].
      * exfalso. apply E. apply N.div_small. exact Hn.
      * destruct (IH (n / 10)%N ((48 + n mod 10)%N :: acc) k) as [H1 H2].
        -- apply N.Div0.div_lt_upper_bound.
           rewrite <- N.pow_succ_r'. now rewrite <- Nat2N.inj_succ.
        -- constructor; [apply is_digit_of_N|exact Hacc].
        -- split; [exact H1|]. cbn [length] in H2. lia.
Qed.

(** With enough iterations, a number from [10 ^ k] on has more than [k]
    digits. *)
Lemma digits_of_N_lower fuel : forall n acc (k : nat),
  (10 ^ N.of_nat k <= n)%N -> (k <= fuel)%nat ->
  (length acc + k < length (digits_of_N fuel n acc))%nat.
Proof.
  induction fuel as [|fuel IH]; intros n acc k Hn Hk.
  - pose proof (digits_of_N_grows 0 n acc). lia.
  - destruct k as [|k]; [pose proof (digits_of_N_grows (S fuel) n acc); lia|].
    cbn [digits_of_N]; cbv zeta.
    assert (Hq : (10 ^ N.of_nat k <= n / 10)%N).
    { apply N.div_le_lower_bound; [discriminate|].
      now rewrite Nat2N.inj_succ, N.pow_succ_r' in Hn. }
    destruct (N.eqb_spec (n / 10) 0) as [E|E].
    + exfalso. rewrite E in Hq.
      pose proof (N.pow_nonzero 10 (N.of_nat k) ltac:(discriminate)). lia.
    + specialize (IH (n / 10)%N ((48 + n mod 10)%N :: acc) k Hq ltac:(lia)).
      cbn [length] in IH. lia.
Qed.

Lemma String_of_Z_digits (k : nat) (n : Z) :
  (0 <= n < 10 ^ Z.of_nat (S k))%Z ->
  all_digits (String_of_Z n) /\ (1 <= length (String_of_Z n) <= S k)%nat.
Proof.
  intros [H0 Hn]. unfold String_of_Z. cbv zeta.
  destruct (Z.ltb_spec n 0) as [?|_]; [lia|].
  rewrite Z.abs_eq by exact H0.
  destruct (digits_of_N_upper (N.to_nat (N.log2 (Z.to_N n))) (Z.to_N n) [] k) as [H1 H2].
  - apply N2Z.inj_lt. rewrite Z2N.id by exact H0.
    rewrite N2Z.inj_pow, nat_N_Z. exact Hn.
  - constructor.
  - pose proof (digits_of_N_grows (N.to_nat (N.log2 (Z.to_N n))) (Z.to_N n) []) as H3.
    cbn [length] in H2, H3. split; [exact H1|lia].
Qed.

(** A year of four digits is written with four digits. *)
Lemma String_of_Z_year (n : Z) :
  (1000 <= n <= 9999)%Z -> digit_group 4 (String_of_Z n).
Proof.
  intros Hn. destruct (String_of_Z_digits 3 n) as [H1 H2]; [cbn; lia|].
  split; [exact H1|].
  enough (3 < length (String_of_Z n))%nat by lia.
  unfold String_of_Z. cbv zeta.
  destruct (Z.ltb_spec n 0) as [?|_]; [lia|].
  rewrite Z.abs_eq by lia.
  apply (digits_of_N_lower _ _ [] 3).
  - change (10 ^ N.of_nat 3)%N with 1000%N. lia.
  - assert (N.log2 1000 <= N.log2 (Z.to_N n))%N as H by (apply N.log2_le_mono; lia).
    change (N.log2 1000) with 9%N in H. lia.
Qed.

Lemma padStart0_digits (k : nat) (w : jsstring) :
  all_digits w -> (length w <= k)%nat -> digit_group k (padStart0 k w).
Proof.
  intros Hw Hk. unfold padStart0, digit_group, all_digits. split.
  - apply Forall_app. split; [|exact Hw]. apply Forall_replicate. reflexivity.
  - rewrite length_app, length_replicate. lia.
Qed.

Lemma padStart0_String (k : nat) (n : Z) :
  (0 <= n < 10 ^ Z.of_nat (S k))%Z -> digit_group (S k) (padStart0 (S k) (String_of_Z n)).
Proof.
  intros Hn.
  destruct (String_of_Z_digits k n Hn) as [H1 H2].
  apply padStart0_digits; [exact H1|lia].
Qed.

Lemma Number_of_digits_below w :
  all_digits w -> (Number_of_digits w < 10 ^ Z.of_nat (length w))%Z.
Proof.
  unfold Number_of_digits.
  enough (forall l acc k, all_digits l -> (acc < 10 ^ Z.of_nat k)%Z ->
            (fold_left (fun acc c => 10 * acc + (Z.of_N c - 48)) l acc
             < 10 ^ Z.of_nat (k + length l))%Z) as H
    by (intros Hw; apply (H w 0%Z 0%nat Hw); reflexivity).
  clear. induction l as [|c l IH]; intros acc k Hl Hacc.
  - now rewrite Nat.add_0_r.
  - apply Forall_cons in Hl as [Hc Hl]. cbn [fold_left length].
    replace (k + S (length l))%nat with (S k + length l)%nat by lia.
    apply IH; [exact Hl|].
    rewrite Nat2Z.inj_succ, Z.pow_succ_r by lia.
    unfold is_digit in Hc. apply andb_prop in Hc as [_ Hc]. apply N.leb_le in Hc. lia.
Qed.

Lemma Number_of_digits_two w :
  all_digits w -> (length w <= 2)%nat -> (0 <= Number_of_digits w < 100)%Z.
Proof.
  intros Hw Hl. split; [exact (Number_of_digits_nonneg w Hw)|].
  pose proof (Number_of_digits_below w Hw) as H.
  assert (10 ^ Z.of_nat (length w) <= 10 ^ 2)%Z by (apply Z.pow_le_mono_r; lia).
  lia.
Qed.

(** The hour written: two digits, or three when the hour read is an
    afternoon hour from 88 on. *)
Lemma hour_written hour period :
  all_digits hour -> (length hour <= 2)%nat -> period = js "AM" \/ period = js "PM" ->
  let hh := padStart0 2 (String_of_Z (adjustedHour hour period)) in
  all_digits hh /\ (length hh = 2 \/ length hh = 3)%nat
  /\ ((adjustedHour hour period < 100)%Z -> length hh = 2%nat).
Proof.
  intros Hd Hl Hp hh. pose proof (Number_of_digits_two hour Hd Hl) as H0.
  assert (0 <= adjustedHour hour period < 1000)%Z as Hr.
  { destruct (adjustedHour_spec hour) as [A B]. cbv zeta in A, B.
    destruct Hp as [-> | ->]; [rewrite A|rewrite B];
      destruct (Z.eqb_spec (Number_of_digits hour) 12); lia. }
  destruct (String_of_Z_digits 2 (adjustedHour hour period)) as [H1 H2]; [cbn; lia|].
  subst hh. unfold padStart0. split; [|split].
  - apply Forall_app. split; [|exact H1]. apply Forall_replicate. reflexivity.
  - rewrite length_app, length_replicate. lia.
  - intros Hlt.
    destruct (String_of_Z_digits 1 (adjustedHour hour period)) as [_ H3]; [cbn; lia|].
    rewrite length_app, length_replicate. lia.
Qed.

(** X10. In the three programs that keep the date of the timestamp, the
    [createdAt] of a returned record is [YYYY-MM-DD HH:MM:00] with four
    digits for the year and two for the month, the day and the minute; the
    hour has two digits, or three, since the converted hour is not
    bounded. *)
Theorem createdAt_form Date_parse (p : Program) text g r :
  keeps_the_date p = true ->
  (parser_of Date_parse p text g).1 = Some r ->
  exists yyyy mm dd hh min,
    createdAt r = Some (timestamp yyyy mm dd hh min (js "00"))
    /\ digit_group 4 yyyy /\ digit_group 2 mm /\ digit_group 2 dd /\ digit_group 2 min
    /\ all_digits hh /\ (length hh = 2 \/ length hh = 3)%nat.
Proof.
  intros Hp H. apply parser_of_candidate in H as [Hc Hr].
  destruct (complete_fields _ _ Hc) as ((c & Hs & _) & _).
  assert (E : createdAt_of_timestamp (normalize text) = Some c).
  { rewrite Hr in Hs. destruct p; try discriminate Hp; exact Hs. }
  clear Hr Hc Hp.
  apply createdAt_of_timestamp_sound in E
    as (month & day & year & hour & minute & period & Hshape & ->).
  destruct Hshape as ([Hm1 Hm2] & [Hd1 Hd2] & [Hy1 Hy2] & [Hh1 Hh2] & [Hn1 Hn2] & Hap).
  destruct (hour_written hour period Hh1 ltac:(lia) Hap) as (Hw1 & Hw2 & _).
  eexists year, _, _, _, _. split; [exact Hs|].
  split; [split; [exact Hy1|lia]|].
  split; [apply padStart0_digits; [exact Hm1|lia]|].
  split; [apply padStart0_digits; [exact Hd1|lia]|].
  split; [apply padStart0_digits; [exact Hn1|lia]|].
  split; [exact Hw1|exact Hw2].
Qed.

Lemma createdAt_form_witness :
  exists yyyy mm dd hh min,
    createdAt (ReceivedTo.candidate sample_text)
    = Some (timestamp yyyy mm dd hh min (js "00"))
    /\ digit_group 4 yyyy /\ digit_group 2 mm /\ digit_group 2 dd /\ digit_group 2 min
    /\ all_digits hh /\ (length hh = 2 \/ length hh = 3)%nat.
Proof.
  apply (createdAt_form no_dates received_js sample_text (constant_rng 0)).
  - reflexivity.
  - vm_compute. reflexivity.
Defined.

(** The three digits are reached: 99 PM is written [111]. *)
Example hour_of_three_digits :
  createdAt_of_timestamp (js "Sent 3/1/2024 99:05 PM")
  = Some (timestamp (js "2024") (js "03") (js "01") (js "111") (js "05") (js "00")).
Proof. vm_compute. reflexivity. Qed.

Local Open Scope Z_scope.

(** Whatever the day number, the month is from 1 to 12 and the day from 1
    to 31. *)
Lemma civil_from_days_range z :
  let '(y, m, d) := Date.civil_from_days z in 1 <= m <= 12 /\ 1 <= d <= 31.
Proof.
  unfold Date.civil_from_days. cbv zeta.
  set (z' := z + 719468).
  set (era := z' / 146097).
  set (doe := z' - era * 146097).
  assert (Hdoe : 0 <= doe <= 146096) by (subst doe era; Z.div_mod_to_equations; lia).
  clearbody doe. clear era z'.
  set (yoe := (doe - doe / 1460 + doe / 36524 - doe / 146096) / 365).
  set (doy := doe - (365 * yoe + yoe / 4 - yoe / 100)).
  assert (Hdoy : 0 <= doy <= 365) by (subst doy yoe; Z.div_mod_to_equations; lia).
  clearbody doy. clear yoe Hdoe doe.
  set (mp := (5 * doy + 2) / 153).
  assert (Hmp : 0 <= mp <= 11) by (subst mp; Z.div_mod_to_equations; lia).
  assert (Hd : 1 <= doy - (153 * mp + 2) / 5 + 1 <= 31)
    by (subst mp; Z.div_mod_to_equations; lia).
  clearbody mp.
  destruct (Z.ltb_spec mp 10); lia.
Qed.

Lemma Date_fields_range t :
  0 <= Date.getMonth t + 1 < 100 /\ 0 <= Date.getDate t < 100
  /\ 0 <= Date.getHours t < 100 /\ 0 <= Date.getMinutes t < 100
  /\ 0 <= Date.getSeconds t < 100.
Proof.
  unfold Date.getMonth, Date.getDate, Date.getHours, Date.getMinutes, Date.getSeconds.
  pose proof (civil_from_days_range (t / Date.msPerDay)) as H.
  destruct (Date.civil_from_days _) as [[y m] d]. cbn [fst snd].
  unfold Date.msPerDay, Date.msPerHour, Date.msPerMinute, Date.msPerSecond.
  repeat split; try lia; Z.div_mod_to_equations; lia.
Qed.

Local Close Scope Z_scope.

Lemma padStart0_two n :
  (0 <= n < 100)%Z -> digit_group 2 (padStart0 2 (String_of_Z n)).
Proof. intros H. apply (padStart0_String 1). exact H. Qed.

Lemma Number_of_digits_two_digits w :
  all_digits w /\ (1 <= length w <= 2)%nat -> (0 <= Number_of_digits w < 100)%Z.
Proof. intros [Hw Hl]. apply Number_of_digits_two; [exact Hw|lia]. Qed.

(** The day before, as the first program of sent.js counts it, of any
    month and day of two digits. *)
Lemma dayBefore_range month day year :
  (0 <= month < 100)%Z -> (0 <= day < 100)%Z ->
  let '(month', day', year') := SentExamDate.dayBefore month day year in
  (0 <= month' < 100 /\ 0 <= day' < 100 /\ year - 1 <= year' <= year)%Z.
Proof.
  intros Hm Hd. unfold SentExamDate.dayBefore. cbv zeta.
  destruct (Z.leb_spec (day - 1) 0); [|lia].
  destruct (Z.leb_spec (month - 1) 0).
  - destruct (Date_fields_range (Date.make (year - 1) 12 0 0 0)) as (_ & Hdate & _). lia.
  - destruct (Date_fields_range (Date.make year (month - 1) 0 0 0)) as (_ & Hdate & _). lia.
Qed.

Lemma SentExamDate_candidate_createdAt text g :
  createdAt (SentExamDate.candidate text g).1
  = (SentExamDate.extract_createdAt (normalize text) g).1.
Proof.
  unfold SentExamDate.candidate. cbv zeta.
  now destruct (SentExamDate.extract_createdAt (normalize text) g).
Qed.

(** X11. In the first program of sent.js, the [createdAt] of a returned
    record has the form [YYYY-MM-DD HH:MM:SS], digits in groups of four,
    two, two, two, two and two, whatever the month and the day read and
    whatever [Math.random] returns, when the year read is not 0. *)
Theorem SentExamDate_createdAt_form Date_parse text g r :
  (parser_of Date_parse sent_js_1 text g).1 = Some r ->
  exists m month day year c,
    match_ SentExamDate.re_createdAt (normalize text) = Some m
    /\ group 1 m = date_text month day year
    /\ createdAt r = Some c
    /\ ((1 <= Number_of_digits year)%Z -> datetime_format c).
Proof.
  intros H. apply parser_of_candidate in H as [Hc ->].
  destruct (complete_fields _ _ Hc) as ((c & Hs & _) & _). clear Hc.
  rewrite SentExamDate_candidate_createdAt in *.
  destruct (match_ SentExamDate.re_createdAt (normalize text)) as [m|] eqn:Hm;
    [|unfold SentExamDate.extract_createdAt in Hs; rewrite Hm in Hs; discriminate].
  destruct (SentExamDate_createdAt_sound _ g m Hm) as (month & day & year & Hshape & Hg & _).
  exists m, month, day, year, c. split; [reflexivity|]. split; [exact Hg|].
  split; [exact Hs|]. intros Hy.
  unfold SentExamDate.extract_createdAt in Hs.
  rewrite Hm, Hg, (split_date _ _ _ Hshape) in Hs. cbn [map] in Hs.
  destruct Hshape as (Hmonth & Hday & [Hy1 Hy2]).
  pose proof (dayBefore_range _ _ (Number_of_digits year)
                (Number_of_digits_two_digits _ Hmonth) (Number_of_digits_two_digits _ Hday)) as R.
  pose proof (Number_of_digits_below year Hy1) as Hy3.
  replace (length year) with 4%nat in Hy3 by lia.
  change (10 ^ Z.of_nat 4)%Z with 10000%Z in Hy3.
  destruct (SentExamDate.dayBefore _ _ _) as [[m' d'] y'].
  pose proof (getRandomTime_bounds g) as B.
  destruct (getRandomTime g) as [[[hh mm] ss] g']. cbv zeta in Hs. cbn [fst] in Hs.
  injection Hs as <-.
  exists (padStart0 4 (String_of_Z y')), (padStart0 2 (String_of_Z m')),
    (padStart0 2 (String_of_Z d')), (padStart0 2 (String_of_Z hh)),
    (padStart0 2 (String_of_Z mm)), (padStart0 2 (String_of_Z ss)).
  split; [apply (padStart0_String 3); change (10 ^ Z.of_nat 4)%Z with 10000%Z; lia|].
  repeat (split; [apply padStart0_two; lia|]). reflexivity.
Qed.

Lemma SentExamDate_createdAt_form_witness :
  exists m month day year c,
    match_ SentExamDate.re_createdAt (normalize sample_text) = Some m
    /\ group 1 m = date_text month day year
    /\ createdAt (SentExamDate.candidate sample_text (constant_rng 0)).1 = Some c
    /\ ((1 <= Number_of_digits year)%Z -> datetime_format c).
Proof.
  apply (SentExamDate_createdAt_form no_dates sample_text (constant_rng 0)).
  vm_compute. reflexivity.
Defined.

(** The year 0 is the exception: the day before 1 January is in the year
    -1, which is written [00-1]. *)
Example SentExamDate_year_zero :
  (SentExamDate.extract_createdAt (js "Exam Date: 1/1/0000") (constant_rng 0)).1
  = Some (js "00-1-12-31 08:00:00").
Proof. vm_compute. reflexivity. Qed.

(** X12. In the second program of part_000 and in part_001, which write the
    fields of a [Date] object, the [createdAt] of a returned record has
    the month, the day, the hours, the minutes and the seconds on two
    digits each, whatever the date read; the year is the number
    [getFullYear] gives, written without padding: four digits when it is
    from 1000 to 9999. *)
Theorem Date_createdAt_form Date_parse (p : Program) text g r :
  formats_a_Date p = true ->
  (parser_of Date_parse p text g).1 = Some r ->
  exists dateObj mm dd hh min ss,
    createdAt r
    = Some (timestamp (String_of_Z (Date.getFullYear dateObj)) mm dd hh min ss)
    /\ digit_group 2 mm /\ digit_group 2 dd /\ digit_group 2 hh /\ digit_group 2 min
    /\ digit_group 2 ss
    /\ ((1000 <= Date.getFullYear dateObj <= 9999)%Z ->
        digit_group 4 (String_of_Z (Date.getFullYear dateObj))).
Proof.
  intros Hp H. apply parser_of_candidate in H as [Hc ->].
  destruct (complete_fields _ _ Hc) as ((c & Hs & _) & _). clear Hc.
  assert (exists t,
            c = timestamp (String_of_Z (Date.getFullYear t))
                  (padStart0 2 (String_of_Z (Date.getMonth t + 1)))
                  (padStart0 2 (String_of_Z (Date.getDate t)))
                  (padStart0 2 (String_of_Z (Date.getHours t)))
                  (padStart0 2 (String_of_Z (Date.getMinutes t)))
                  (padStart0 2 (String_of_Z (Date.getSeconds t)))) as [t ->].
  { destruct p; try discriminate Hp.
    - change (SentTimestampPrevDay.extract_createdAt (normalize text) = Some c) in Hs.
      unfold SentTimestampPrevDay.extract_createdAt in Hs.
      destruct (match_ re_timestamp (normalize text)) as [m|]; [|discriminate].
      destruct (match_ re_timestamp_fields (group 1 m)) as [fields|]; [|discriminate].
      cbv zeta in Hs. injection Hs as <-. eexists. reflexivity.
    - change (ReceivedFrom.extract_createdAt Date_parse (normalize text) = Some c) in Hs.
      unfold ReceivedFrom.extract_createdAt in Hs.
      destruct (match_ ReceivedFrom.re_createdAt (normalize text)) as [m|]; [|discriminate].
      destruct (Date_parse (group 1 m)) as [t|]; [|discriminate].
      cbv zeta in Hs. injection Hs as <-. eexists. reflexivity. }
  destruct (Date_fields_range t) as (H1 & H2 & H3 & H4 & H5).
  exists t. eexists _, _, _, _, _. split; [exact Hs|].
  split; [exact (padStart0_two _ H1)|]. split; [exact (padStart0_two _ H2)|].
  split; [exact (padStart0_two _ H3)|]. split; [exact (padStart0_two _ H4)|].
  split; [exact (padStart0_two _ H5)|]. apply String_of_Z_year.
Qed.

Lemma Date_createdAt_form_witness :
  exists dateObj mm dd hh min ss,
    createdAt (SentTimestampPrevDay.candidate sample_text)
    = Some (timestamp (String_of_Z (Date.getFullYear dateObj)) mm dd hh min ss)
    /\ digit_group 2 mm /\ digit_group 2 dd /\ digit_group 2 hh /\ digit_group 2 min
    /\ digit_group 2 ss
    /\ ((1000 <= Date.getFullYear dateObj <= 9999)%Z ->
        digit_group 4 (String_of_Z (Date.getFullYear dateObj))).
Proof.
  apply (Date_createdAt_form no_dates part_000_2 sample_text (constant_rng 0)).
  - reflexivity.
  - vm_compute. reflexivity.
Defined.

(** ** A whole run *)

(** What a run of any of the six programs comes to: the first loop over
    the listing, the requests for its records, and the files after the
    second loop, after the sweep, or as the first loop left them. *)
Lemma main_of_outcome pdfParse toBase64 Date_parse (p : Program) ok fs0 g :
  let st := process_files pdfParse toBase64 (parser_of Date_parse p) ok (pdf_listing fs0)
              (start fs0 g) in
  exists batches,
    main_of pdfParse toBase64 Date_parse p ok fs0 g
    = Some {| uploads := batches;
              files := if uses_batches p then move_to_failed ok (failedFiles st) (fs st)
                       else if sweeps_up p then moveFailedFiles ok (fs st)
                       else fs st |}
    /\ concat batches = records st
    /\ Forall (fun batch => (0 < length batch)%nat) batches
    /\ (if uses_batches p then Forall (fun batch => (length batch <= 100)%nat) batches
        else (length batches <= 1)%nat).
Proof.
  cbv zeta.
  set (st := process_files pdfParse toBase64 (parser_of Date_parse p) ok (pdf_listing fs0)
               (start fs0 g)).
  assert (Hb : uses_batches p = true ->
            main_of pdfParse toBase64 Date_parse p ok fs0 g
            = main_batch pdfParse toBase64 (parser_of Date_parse p) ok fs0 g ->
            exists batches,
              main_of pdfParse toBase64 Date_parse p ok fs0 g
              = Some {| uploads := batches;
                        files := if uses_batches p then move_to_failed ok (failedFiles st) (fs st)
                                 else if sweeps_up p then moveFailedFiles ok (fs st)
                                 else fs st |}
              /\ concat batches = records st
              /\ Forall (fun batch => (0 < length batch)%nat) batches
              /\ (if uses_batches p then Forall (fun batch => (length batch <= 100)%nat) batches
                  else (length batches <= 1)%nat)).
  { intros -> ->. unfold main_batch, prepareRecordsForUpload. fold (start fs0 g). fold st.
    case_bool_decide as Hn.
    - destruct (batchUpload_from_spec (records st) 100 ltac:(lia) (length (records st)) 0%nat)
        as (batches & Hrun & Hcat & Hall & _); [lia|].
      unfold batchUpload. rewrite Hrun. exists batches. cbn.
      split; [reflexivity|]. split; [now rewrite Hcat, drop_0|].
      split; (eapply Forall_impl; [exact Hall|]); cbn; intros; lia.
    - exists []. split; [reflexivity|]. split; [|split; constructor].
      destruct (records st); [reflexivity|cbn in Hn; lia]. }
  assert (Hn : forall recs : list record,
            let posted := if bool_decide (0 < length recs)%nat then bulkUpload recs else [] in
            concat posted = recs /\ Forall (fun batch => (0 < length batch)%nat) posted
            /\ (length posted <= 1)%nat).
  { intros recs. cbv zeta. case_bool_decide as Hn.
    - unfold bulkUpload. cbn. rewrite app_nil_r. repeat split; [|lia]. now repeat constructor.
    - cbn. repeat split; [|constructor|lia]. destruct recs; [reflexivity|cbn in Hn; lia]. }
  destruct p; try (apply Hb; reflexivity); cbn [main_of uses_batches sweeps_up];
    unfold ReceivedFrom.main, ReceivedTo.main, main_no_failed_folder, main_sweep,
      prepareRecordsForUpload_no_list;
    fold (start fs0 g); cbn [parser_of] in st; fold st;
    (eexists; split; [reflexivity|apply Hn]).
Qed.

Lemma not_listed fs0 f :
  pdf_files fs0 !! f = None \/ endsWith (js ".pdf") f = false -> f ∉ pdf_listing fs0.
Proof.
  intros H Hin. apply elem_of_pdf_listing in Hin as [[c Hc] He].
  destruct H as [H|H]; congruence.
Qed.

Lemma renameSync_whereabouts ok folder file fs0 f :
  exclusive fs0 -> whereabouts f (renameSync ok folder file fs0) = whereabouts f fs0.
Proof.
  intros Hex. unfold renameSync.
  destruct (pdf_files fs0 !! file) as [c|] eqn:Hc; [|done].
  destruct (ok folder file); [|done].
  destruct (Hex file) as [Hin _]. destruct (Hin (mk_is_Some _ _ Hc)) as [Hp Hf].
  unfold whereabouts.
  destruct (decide (f = file)) as [->|Hne]; destruct folder; cbn;
    rewrite ?lookup_delete_eq, ?lookup_insert_eq, ?lookup_delete_ne, ?lookup_insert_ne by done;
    rewrite ?Hc, ?Hp; done.
Qed.

Section Loops.

Variable pdfParse : content -> option jsstring.
Variable toBase64 : content -> jsstring.
Variable parsePdfText : Parser.
Variable ok : Relocation.

Abbreviation step := (process_file pdfParse toBase64 parsePdfText ok).
Abbreviation steps := (process_files pdfParse toBase64 parsePdfText ok).
Abbreviation sweep := (move_to_failed ok).

(** One iteration, by cases. *)
Lemma process_file_cases file st :
  (fs (step file st) = fs st /\ records (step file st) = records st
   /\ failedFiles (step file st) = failedFiles st ++ [file])
  \/ (exists c text r g',
        pdf_files (fs st) !! file = Some c /\ pdfParse c = Some text /\ text <> []
        /\ parsePdfText text (rng st) = (Some r, g')
        /\ fs (step file st) = renameSync ok processedFolder file (fs st)
        /\ records (step file st) = records st ++ [complete_record r (Some (toBase64 c))]
        /\ failedFiles (step file st) = failedFiles st).
Proof.
  unfold process_file, extractPdfText, fileToBase64.
  destruct (pdf_files (fs st) !! file) as [c|] eqn:Hc; [|now left].
  destruct (pdfParse c) as [[|x t]|] eqn:Ht; [now left| |now left].
  destruct (parsePdfText (x :: t) (rng st)) as [[r|] g'] eqn:Hr; [|now left].
  right. exists c, (x :: t), r, g'. cbn. done.
Qed.

(** The first loop moves files to [processed/] only. *)
Lemma process_files_failed_uploads l : forall st,
  failed_uploads (fs (steps l st)) = failed_uploads (fs st).
Proof.
  induction l as [|file l IH]; intros st; [done|].
  rewrite process_files_cons, IH.
  destruct (process_file_cases file st) as [(-> & _)|(c & text & r & g' & _ & _ & _ & _ & -> & _)];
    [done|].
  unfold renameSync. destruct (pdf_files (fs st) !! file); [|done].
  now destruct (ok processedFolder file).
Qed.

(** No loop brings a file into [pdf_files/]. *)
Lemma renameSync_absent_stays folder file fs0 f :
  pdf_files fs0 !! f = None -> pdf_files (renameSync ok folder file fs0) !! f = None.
Proof.
  intros Hf. unfold renameSync. destruct (pdf_files fs0 !! file); [|done].
  destruct (ok folder file); [|done].
  destruct folder; cbn; destruct (decide (f = file)) as [->|Hne];
    rewrite ?lookup_delete_eq, ?lookup_delete_ne by done; done.
Qed.

Lemma process_files_absent_stays l : forall st f,
  pdf_files (fs st) !! f = None -> pdf_files (fs (steps l st)) !! f = None.
Proof.
  induction l as [|file l IH]; intros st f Hf; [done|].
  rewrite process_files_cons. apply IH.
  destruct (process_file_cases file st) as [(-> & _)|(c & text & r & g' & _ & _ & _ & _ & -> & _)];
    [done|]. now apply renameSync_absent_stays.
Qed.

Lemma move_to_failed_absent_stays l : forall fs0 f,
  pdf_files fs0 !! f = None -> pdf_files (sweep l fs0) !! f = None.
Proof.
  induction l as [|file l IH]; intros fs0 f Hf; [done|].
  cbn. apply IH. now apply renameSync_absent_stays.
Qed.

Lemma process_files_whereabouts l : forall st f,
  exclusive (fs st) -> whereabouts f (fs (steps l st)) = whereabouts f (fs st).
Proof.
  induction l as [|file l IH]; intros st f Hex; [done|].
  rewrite process_files_cons, IH by (now apply process_file_exclusive).
  destruct (process_file_cases file st) as [(-> & _)|(c & text & r & g' & _ & _ & _ & _ & -> & _)];
    [done|]. now apply renameSync_whereabouts.
Qed.

Lemma move_to_failed_whereabouts l : forall fs0 f,
  exclusive fs0 -> whereabouts f (sweep l fs0) = whereabouts f fs0.
Proof.
  induction l as [|file l IH]; intros fs0 f Hex; [done|].
  change (sweep (file :: l) fs0) with (sweep l (renameSync ok failedFolder file fs0)).
  rewrite IH by (now apply renameSync_exclusive).
  now apply renameSync_whereabouts.
Qed.

(** A file whose move to [processed/] the system refuses stays where it is
    through the first loop. *)
Lemma process_files_refused l f : forall st,
  ok processedFolder f = false -> same_at f (fs st) (fs (steps l st)).
Proof.
  induction l as [|file l IH]; intros st Hok; [apply same_at_refl|].
  rewrite process_files_cons. eapply same_at_trans; [|now apply IH].
  destruct (process_file_cases file st) as [(-> & _)|(c & text & r & g' & Hc & _ & _ & _ & -> & _)];
    [apply same_at_refl|].
  destruct (decide (f = file)) as [->|Hne]; [|now apply renameSync_other].
  unfold renameSync. rewrite Hc, Hok. apply same_at_refl.
Qed.

(** When every move to [processed/] is carried out, what the first loop
    leaves in [pdf_files/] of the files it went through is in
    [failedFiles]. *)
Lemma process_files_leaves_failed l f : forall st,
  (forall file, ok processedFolder file = true) ->
  (is_Some (pdf_files (fs st) !! f) -> f ∈ failedFiles st) \/ f ∈ l ->
  is_Some (pdf_files (fs (steps l st)) !! f) -> f ∈ failedFiles (steps l st).
Proof.
  induction l as [|file l IH]; intros st Hok H.
  - destruct H as [H|H]; [exact H|by apply elem_of_nil in H].
  - rewrite process_files_cons. apply IH; [exact Hok|].
    destruct (decide (f ∈ l)) as [Hl|Hl]; [now right|left].
    destruct (process_file_cases file st)
      as [(-> & _ & ->)|(c & text & r & g' & Hc & _ & _ & _ & -> & _ & ->)].
    + intros Hs. apply elem_of_app. destruct H as [H|H]; [left; auto|].
      apply elem_of_cons in H as [->|H]; [|done]. right. now apply list_elem_of_singleton.
    + destruct (decide (f = file)) as [->|Hne].
      * destruct (renameSync_processed ok file (fs st) c Hc (Hok file)) as (_ & E & _).
        intros [x Hx]. congruence.
      * destruct (renameSync_other ok processedFolder file (fs st) f Hne) as (-> & _).
        destruct H as [H|H]; [exact H|].
        apply elem_of_cons in H as [->|H]; done.
Qed.

(** The attachment of a record is the file as the loop read it. *)
Lemma process_files_attached (Q : record -> Prop) :
  (forall text g r c, (parsePdfText text g).1 = Some r ->
     Q (complete_record r (Some (toBase64 c)))) ->
  forall l st, Forall Q (records st) -> Forall Q (records (steps l st)).
Proof.
  intros HQ l. induction l as [|file l IH]; intros st Hst; [exact Hst|].
  rewrite process_files_cons. apply IH.
  destruct (process_file_cases file st)
    as [(_ & -> & _)|(c & text & r & g' & _ & _ & _ & Hr & _ & -> & _)]; [exact Hst|].
  apply Forall_app. split; [exact Hst|]. constructor; [|constructor].
  apply (HQ text (rng st)). now rewrite Hr.
Qed.

End Loops.

(** X13. A run of any of the six programs touches only the files of
    [pdf_files/] whose name ends with [.pdf], in lower case: any other
    name is after the run exactly where it was before, in each of the
    three folders. *)
Theorem unlisted_files_untouched pdfParse toBase64 Date_parse (p : Program) ok fs0 g f :
  pdf_files fs0 !! f = None \/ endsWith (js ".pdf") f = false ->
  exists o,
    main_of pdfParse toBase64 Date_parse p ok fs0 g = Some o /\ same_at f fs0 (files o).
Proof.
  intros Hf. apply not_listed in Hf.
  destruct (main_of_outcome pdfParse toBase64 Date_parse p ok fs0 g) as (batches & Hmain & _).
  cbv zeta in Hmain. eexists. split; [exact Hmain|]. cbn [files].
  destruct (process_files_other pdfParse toBase64 (parser_of Date_parse p) ok
              (pdf_listing fs0) (start fs0 g) f Hf) as [Hsame Hfl].
  cbn [start fs failedFiles] in Hsame, Hfl.
  set (st := process_files _ _ _ _ _ _) in *.
  destruct (uses_batches p); [|destruct (sweeps_up p)]; [| |exact Hsame].
  - eapply same_at_trans; [exact Hsame|]. apply move_to_failed_other.
    rewrite Hfl. apply not_elem_of_nil.
  - eapply same_at_trans; [exact Hsame|]. apply move_to_failed_other.
    intros Hin. apply elem_of_pdf_listing in Hin as [Hs He].
    destruct Hsame as (E & _). rewrite E in Hs.
    apply Hf, elem_of_pdf_listing. done.
Qed.

Lemma unlisted_files_untouched_witness :
  exists o,
    main_of text_files raw_bytes no_dates received_js always
      (incoming (js "notes.txt") (js "blank page")) (constant_rng 0) = Some o
    /\ same_at (js "notes.txt") (incoming (js "notes.txt") (js "blank page")) (files o).
Proof.
  apply (unlisted_files_untouched text_files raw_bytes no_dates received_js always
           (incoming (js "notes.txt") (js "blank page")) (constant_rng 0) (js "notes.txt")).
  right. vm_compute. reflexivity.
Defined.

Lemma main_of_keeps_files pdfParse toBase64 Date_parse (p : Program) ok fs0 g :
  exclusive fs0 ->
  exists o,
    main_of pdfParse toBase64 Date_parse p ok fs0 g = Some o
    /\ exclusive (files o)
    /\ forall f, whereabouts f (files o) = whereabouts f fs0.
Proof.
  intros Hex.
  destruct (main_of_outcome pdfParse toBase64 Date_parse p ok fs0 g) as (batches & Hmain & _).
  cbv zeta in Hmain. eexists. split; [exact Hmain|]. cbn [files].
  set (st := process_files _ _ _ _ _ _) in *.
  assert (Hex1 : exclusive (fs st)) by (now apply process_files_exclusive).
  assert (Hw1 : forall f, whereabouts f (fs st) = whereabouts f fs0)
    by (intros f; now apply (process_files_whereabouts _ _ _ _ _ (start fs0 g))).
  destruct (uses_batches p); [|destruct (sweeps_up p)]; [| |done].
  - split; [now apply move_to_failed_exclusive|].
    intros f. now rewrite move_to_failed_whereabouts.
  - split; [now apply move_to_failed_exclusive|].
    intros f. unfold moveFailedFiles. now rewrite move_to_failed_whereabouts.
Qed.

(** X14. When no name is in two of the three folders at the start, that
    still holds after a run of any of the six programs, and every name
    has, in the folder where it then is, the content it had: files are
    moved, never lost, copied or changed. *)
Theorem files_are_moved_not_lost pdfParse toBase64 Date_parse (p : Program) ok fs0 g :
  exclusive fs0 ->
  exists o,
    main_of pdfParse toBase64 Date_parse p ok fs0 g = Some o
    /\ exclusive (files o)
    /\ forall f, whereabouts f (files o) = whereabouts f fs0.
Proof. apply main_of_keeps_files. Qed.

Lemma files_are_moved_not_lost_witness :
  exists o,
    main_of text_files raw_bytes no_dates sent_js_1 always
      (incoming (js "a.pdf") sample_text) (constant_rng 0) = Some o
    /\ exclusive (files o)
    /\ forall f, whereabouts f (files o) = whereabouts f (incoming (js "a.pdf") sample_text).
Proof.
  apply (files_are_moved_not_lost text_files raw_bytes no_dates sent_js_1 always
           (incoming (js "a.pdf") sample_text) (constant_rng 0)).
  apply exclusive_incoming.
Defined.

Lemma reached_in_listing pdfParse toBase64 Date_parse (p : Program) ok fs0 g before f after c r g' :
  pdf_listing fs0 = before ++ f :: after ->
  pdf_files fs0 !! f = Some c ->
  accepted pdfParse (parser_of Date_parse p) c
    (rng_after pdfParse toBase64 (parser_of Date_parse p) ok before fs0 g) r g' ->
  let st := process_files pdfParse toBase64 (parser_of Date_parse p) ok (pdf_listing fs0)
              (start fs0 g) in
  complete_record r (Some (toBase64 c)) ∈ records st
  /\ (f ∉ failedFiles st)
  /\ (ok processedFolder f = true ->
      processed (fs st) !! f = Some c /\ pdf_files (fs st) !! f = None).
Proof.
  intros Hl Hc Hacc. cbv zeta.
  pose proof (NoDup_pdf_listing fs0) as Hnd. rewrite Hl in Hnd |- *.
  destruct (process_files_reached pdfParse toBase64 (parser_of Date_parse p) ok
              before f after c r g' (start fs0 g) Hnd Hc Hacc) as (H1 & H2 & H3).
  split; [exact H1|]. split; [|exact H3]. apply H2. apply not_elem_of_nil.
Qed.

(** X15. In each of the six programs, when the parse of a listed file
    yields a record as the loop reaches it, and the system carries out the
    move of the file, the file is after the run in [processed/] with its
    content, no longer in [pdf_files/], not put in the failed folder, and
    that record, with the bytes of the file in base64 as attachment, is
    among the records posted. *)
Theorem accepted_file_ends_in_processed
    pdfParse toBase64 Date_parse (p : Program) ok fs0 g before f after c r g' :
  pdf_listing fs0 = before ++ f :: after ->
  pdf_files fs0 !! f = Some c ->
  accepted pdfParse (parser_of Date_parse p) c
    (rng_after pdfParse toBase64 (parser_of Date_parse p) ok before fs0 g) r g' ->
  ok processedFolder f = true ->
  exists o,
    main_of pdfParse toBase64 Date_parse p ok fs0 g = Some o
    /\ complete_record r (Some (toBase64 c)) ∈ concat (uploads o)
    /\ processed (files o) !! f = Some c
    /\ pdf_files (files o) !! f = None
    /\ failed_uploads (files o) !! f = failed_uploads fs0 !! f.
Proof.
  intros Hl Hc Hacc Hok.
  destruct (reached_in_listing pdfParse toBase64 Date_parse p ok fs0 g before f after c r g'
              Hl Hc Hacc) as (Hr & Hnf & Hmoved).
  destruct (Hmoved Hok) as [Hp Hgone]. clear Hmoved.
  destruct (main_of_outcome pdfParse toBase64 Date_parse p ok fs0 g)
    as (batches & Hmain & Hcat & _).
  cbv zeta in Hmain, Hcat. eexists. split; [exact Hmain|]. cbn [files uploads].
  rewrite Hcat. split; [exact Hr|].
  pose proof (process_files_failed_uploads pdfParse toBase64 (parser_of Date_parse p) ok
                (pdf_listing fs0) (start fs0 g)) as Hfu. cbn [start fs] in Hfu.
  set (st := process_files _ _ _ _ _ _) in *.
  assert (Hfinal : forall l, f ∉ l ->
            processed (move_to_failed ok l (fs st)) !! f = Some c
            /\ pdf_files (move_to_failed ok l (fs st)) !! f = None
            /\ failed_uploads (move_to_failed ok l (fs st)) !! f = failed_uploads fs0 !! f).
  { intros l Hnl. destruct (move_to_failed_other ok l (fs st) f Hnl) as (-> & -> & ->).
    now rewrite Hfu. }
  destruct (uses_batches p); [|destruct (sweeps_up p)].
  - now apply Hfinal.
  - apply Hfinal. intros Hin. apply elem_of_pdf_listing in Hin as [[x Hx] _]. congruence.
  - now rewrite Hfu.
Qed.

Lemma accepted_file_ends_in_processed_witness :
  exists o,
    main_of text_files raw_bytes no_dates received_js always
      (incoming (js "a.pdf") sample_text) (constant_rng 0) = Some o
    /\ complete_record (ReceivedTo.candidate sample_text) (Some (raw_bytes sample_text))
         ∈ concat (uploads o)
    /\ processed (files o) !! js "a.pdf" = Some sample_text
    /\ pdf_files (files o) !! js "a.pdf" = None
    /\ failed_uploads (files o) !! js "a.pdf"
       = failed_uploads (incoming (js "a.pdf") sample_text) !! js "a.pdf".
Proof.
  apply (accepted_file_ends_in_processed text_files raw_bytes no_dates received_js always
           (incoming (js "a.pdf") sample_text) (constant_rng 0)
           [] (js "a.pdf") [] sample_text (ReceivedTo.candidate sample_text) (constant_rng 0)).
  - vm_compute. reflexivity.
  - apply lookup_singleton_eq.
  - exists sample_text. split; [reflexivity|]. split; [discriminate|]. vm_compute. reflexivity.
  - reflexivity.
Defined.

(** X16. When the system refuses the move to [processed/] of a listed
    file whose parse yields a record as the loop reaches it, that record,
    with the bytes of the file attached, is posted all the same. In
    received.js the sweep of [moveFailedFiles] then puts the file in the
    failed folder although it was uploaded; in the five other programs it
    stays in [pdf_files/], where the next run finds it again. *)
Theorem uploaded_file_whose_move_is_refused
    pdfParse toBase64 Date_parse (p : Program) ok fs0 g before f after c r g' :
  pdf_listing fs0 = before ++ f :: after ->
  pdf_files fs0 !! f = Some c ->
  accepted pdfParse (parser_of Date_parse p) c
    (rng_after pdfParse toBase64 (parser_of Date_parse p) ok before fs0 g) r g' ->
  ok processedFolder f = false ->
  ok failedFolder f = true ->
  exists o,
    main_of pdfParse toBase64 Date_parse p ok fs0 g = Some o
    /\ complete_record r (Some (toBase64 c)) ∈ concat (uploads o)
    /\ processed (files o) !! f = processed fs0 !! f
    /\ if sweeps_up p
       then failed_uploads (files o) !! f = Some c /\ pdf_files (files o) !! f = None
       else pdf_files (files o) !! f = Some c
            /\ failed_uploads (files o) !! f = failed_uploads fs0 !! f.
Proof.
  intros Hl Hc Hacc Hno Hok.
  assert (Hpdf : endsWith (js ".pdf") f = true).
  { assert (Hin : f ∈ pdf_listing fs0)
      by (rewrite Hl; apply elem_of_app; right; left).
    now apply elem_of_pdf_listing in Hin as [_ ?]. }
  destruct (reached_in_listing pdfParse toBase64 Date_parse p ok fs0 g before f after c r g'
              Hl Hc Hacc) as (Hr & Hnf & _).
  destruct (main_of_outcome pdfParse toBase64 Date_parse p ok fs0 g)
    as (batches & Hmain & Hcat & _).
  cbv zeta in Hmain, Hcat. eexists. split; [exact Hmain|]. cbn [files uploads].
  rewrite Hcat. split; [exact Hr|].
  destruct (process_files_refused pdfParse toBase64 (parser_of Date_parse p) ok
              (pdf_listing fs0) f (start fs0 g) Hno) as (E1 & E2 & E3).
  cbn [start fs] in E1, E2, E3.
  set (st := process_files _ _ _ _ _ _) in *.
  destruct p; cbn [uses_batches sweeps_up].
  1-4: destruct (move_to_failed_other ok (failedFiles st) (fs st) f Hnf) as (-> & -> & ->);
       rewrite E1, E2, E3; done.
  - rewrite E1, E2, E3. done.
  - unfold moveFailedFiles. rewrite move_to_failed_processed. split; [exact E2|].
    apply (move_to_failed_moves ok (pdf_listing (fs st)) (fs st) f c); [|congruence|exact Hok].
    apply elem_of_pdf_listing. rewrite E1, Hc. eauto.
Qed.

Lemma uploaded_file_whose_move_is_refused_witness :
  exists o,
    main_of text_files raw_bytes no_dates received_js only_to_failed
      (incoming (js "a.pdf") sample_text) (constant_rng 0) = Some o
    /\ complete_record (ReceivedTo.candidate sample_text) (Some (raw_bytes sample_text))
         ∈ concat (uploads o)
    /\ processed (files o) !! js "a.pdf" = processed (incoming (js "a.pdf") sample_text) !! js "a.pdf"
    /\ if sweeps_up received_js
       then failed_uploads (files o) !! js "a.pdf" = Some sample_text
            /\ pdf_files (files o) !! js "a.pdf" = None
       else pdf_files (files o) !! js "a.pdf" = Some sample_text
            /\ failed_uploads (files o) !! js "a.pdf"
               = failed_uploads (incoming (js "a.pdf") sample_text) !! js "a.pdf".
Proof.
  apply (uploaded_file_whose_move_is_refused text_files raw_bytes no_dates received_js
           only_to_failed (incoming (js "a.pdf") sample_text) (constant_rng 0)
           [] (js "a.pdf") [] sample_text (ReceivedTo.candidate sample_text) (constant_rng 0)).
  - vm_compute. reflexivity.
  - apply lookup_singleton_eq.
  - exists sample_text. split; [reflexivity|]. split; [discriminate|]. vm_compute. reflexivity.
  - reflexivity.
  - reflexivity.
Defined.

Lemma main_of_nothing_listed pdfParse toBase64 Date_parse (p : Program) ok fs0 g :
  pdf_listing fs0 = [] ->
  main_of pdfParse toBase64 Date_parse p ok fs0 g = Some {| uploads := []; files := fs0 |}.
Proof.
  intros Hl.
  destruct p; cbn [main_of];
    unfold SentExamDate.main, ReceivedNameOnly.main, SentTimestamp.main,
      SentTimestampPrevDay.main, ReceivedFrom.main, ReceivedTo.main,
      main_batch, main_sweep, main_no_failed_folder, prepareRecordsForUpload,
      prepareRecordsForUpload_no_list, moveFailedFiles;
    rewrite Hl; cbn; rewrite ?Hl; reflexivity.
Qed.

(** With every move carried out, the programs with a failed folder
    leave no listed name in [pdf_files/]. *)
Lemma main_of_drains pdfParse toBase64 Date_parse (p : Program) ok fs0 g :
  has_failed_folder p = true ->
  (forall folder file, ok folder file = true) ->
  exists o,
    main_of pdfParse toBase64 Date_parse p ok fs0 g = Some o
    /\ forall f, endsWith (js ".pdf") f = true -> pdf_files (files o) !! f = None.
Proof.
  intros Hp Hok.
  destruct (main_of_outcome pdfParse toBase64 Date_parse p ok fs0 g) as (batches & Hmain & _).
  cbv zeta in Hmain. eexists. split; [exact Hmain|]. cbn [files].
  set (st := process_files _ _ _ _ _ _) in *.
  intros f He.
  assert (Hstart : is_Some (pdf_files (fs st) !! f) -> f ∈ pdf_listing fs0).
  { intros Hs. apply elem_of_pdf_listing. split; [|exact He].
    destruct (pdf_files fs0 !! f) eqn:E; [eauto|].
    pose proof (process_files_absent_stays pdfParse toBase64 (parser_of Date_parse p) ok
                  (pdf_listing fs0) (start fs0 g) f E) as Hn.
    change (pdf_files (fs st) !! f = None) in Hn. rewrite Hn in Hs. by destruct Hs. }
  assert (Hleft : forall l,
            (is_Some (pdf_files (fs st) !! f) -> f ∈ l) ->
            pdf_files (move_to_failed ok l (fs st)) !! f = None).
  { intros l Hl. destruct (pdf_files (fs st) !! f) as [c|] eqn:Hc.
    - now destruct (move_to_failed_moves ok l (fs st) f c (Hl (mk_is_Some _ _ eq_refl)) Hc
                      (Hok _ _)).
    - now apply move_to_failed_absent_stays. }
  destruct p; try discriminate Hp; cbn [uses_batches sweeps_up].
  1-4: apply Hleft; intros Hs;
       apply (process_files_leaves_failed pdfParse toBase64 _ ok (pdf_listing fs0) f
                (start fs0 g)); [intros file; apply Hok|right; now apply Hstart|exact Hs].
  unfold moveFailedFiles. apply Hleft.
  intros Hs. apply elem_of_pdf_listing. split; [exact Hs|exact He].
Qed.

(** X17. In the five programs with a failed folder, when the system
    carries out every move, no [.pdf] file is left in [pdf_files/] after a
    run; a second run then finds nothing, posts nothing and moves
    nothing. *)
Theorem input_folder_is_emptied pdfParse toBase64 Date_parse (p : Program) ok fs0 g :
  has_failed_folder p = true ->
  (forall folder file, ok folder file = true) ->
  exists o,
    main_of pdfParse toBase64 Date_parse p ok fs0 g = Some o
    /\ pdf_listing (files o) = []
    /\ forall g',
         main_of pdfParse toBase64 Date_parse p ok (files o) g'
         = Some {| uploads := []; files := files o |}.
Proof.
  intros Hp Hok.
  destruct (main_of_drains pdfParse toBase64 Date_parse p ok fs0 g Hp Hok) as (o & Hmain & Hd).
  exists o. split; [exact Hmain|].
  enough (Hl : pdf_listing (files o) = [])
    by (split; [exact Hl|]; intros g'; now apply main_of_nothing_listed).
  apply elem_of_nil_inv. intros f Hin. apply elem_of_pdf_listing in Hin as [[x Hx] He].
  rewrite (Hd f He) in Hx. discriminate.
Qed.

Lemma input_folder_is_emptied_witness :
  exists o,
    main_of text_files raw_bytes no_dates sent_js_1 always
      (incoming (js "a.pdf") (js "blank page")) (constant_rng 0) = Some o
    /\ pdf_listing (files o) = []
    /\ forall g',
         main_of text_files raw_bytes no_dates sent_js_1 always (files o) g'
         = Some {| uploads := []; files := files o |}.
Proof.
  apply (input_folder_is_emptied text_files raw_bytes no_dates sent_js_1 always
           (incoming (js "a.pdf") (js "blank page")) (constant_rng 0)).
  - reflexivity.
  - reflexivity.
Defined.

(** X18. In the five programs with a failed folder, when no name is in two of
    the three folders at the start and the system carries out every move,
    every listed file is after the run out of [pdf_files/] and in exactly
    one of [processed/] and the failed folder, with its content. *)
Theorem every_listed_file_is_filed pdfParse toBase64 Date_parse (p : Program) ok fs0 g f c :
  has_failed_folder p = true ->
  exclusive fs0 ->
  (forall folder file, ok folder file = true) ->
  pdf_files fs0 !! f = Some c ->
  endsWith (js ".pdf") f = true ->
  exists o,
    main_of pdfParse toBase64 Date_parse p ok fs0 g = Some o
    /\ pdf_files (files o) !! f = None
    /\ ((processed (files o) !! f = Some c /\ failed_uploads (files o) !! f = None)
        \/ (processed (files o) !! f = None /\ failed_uploads (files o) !! f = Some c)).
Proof.
  intros Hp Hex Hok Hc He.
  destruct (main_of_drains pdfParse toBase64 Date_parse p ok fs0 g Hp Hok) as (o & Hmain & Hd).
  destruct (main_of_keeps_files pdfParse toBase64 Date_parse p ok fs0 g Hex)
    as (o' & Hmain' & Hex' & Hw).
  rewrite Hmain in Hmain'. injection Hmain' as <-.
  exists o. split; [exact Hmain|]. split; [exact (Hd f He)|].
  specialize (Hw f). unfold whereabouts in Hw. rewrite (Hd f He), Hc in Hw.
  destruct (Hex' f) as [_ Hpf].
  destruct (processed (files o) !! f) as [x|] eqn:E.
  - left. split; [exact Hw|]. apply Hpf. eauto.
  - right. split; [reflexivity|exact Hw].
Qed.

Lemma every_listed_file_is_filed_witness :
  exists o,
    main_of text_files raw_bytes no_dates received_js always
      (incoming (js "a.pdf") sample_text) (constant_rng 0) = Some o
    /\ pdf_files (files o) !! js "a.pdf" = None
    /\ ((processed (files o) !! js "a.pdf" = Some sample_text
         /\ failed_uploads (files o) !! js "a.pdf" = None)
        \/ (processed (files o) !! js "a.pdf" = None
            /\ failed_uploads (files o) !! js "a.pdf" = Some sample_text)).
Proof.
  apply (every_listed_file_is_filed text_files raw_bytes no_dates received_js always
           (incoming (js "a.pdf") sample_text) (constant_rng 0) (js "a.pdf") sample_text).
  - reflexivity.
  - apply exclusive_incoming.
  - reflexivity.
  - apply lookup_singleton_eq.
  - vm_compute. reflexivity.
Defined.

(** X19. Every run ends, and no request it posts is empty: when no file
    parses, nothing is posted. The four programs with [batchUpload] post at
    most 100 records in a request; received.js and part_001 post at most
    one request, with all the records. In every program the requests
    carry, in their order, the records [prepareRecordsForUpload]
    returned. *)
Theorem requests_are_never_empty pdfParse toBase64 Date_parse (p : Program) ok fs0 g :
  exists o,
    main_of pdfParse toBase64 Date_parse p ok fs0 g = Some o
    /\ Forall (fun batch => (0 < length batch)%nat) (uploads o)
    /\ (if uses_batches p
        then Forall (fun batch => (length batch <= 100)%nat) (uploads o)
        else (length (uploads o) <= 1)%nat)
    /\ concat (uploads o)
       = (prepare_of pdfParse toBase64 Date_parse p ok (pdf_listing fs0) fs0 g).1.1
    /\ ((prepare_of pdfParse toBase64 Date_parse p ok (pdf_listing fs0) fs0 g).1.1 = [] ->
        uploads o = []).
Proof.
  destruct (main_of_outcome pdfParse toBase64 Date_parse p ok fs0 g)
    as (batches & Hmain & Hcat & Hne & Hsize).
  cbv zeta in Hmain, Hcat.
  eexists. split; [exact Hmain|]. cbn [uploads].
  split; [exact Hne|]. split; [exact Hsize|].
  rewrite prepare_of_records. fold (start fs0 g). split; [exact Hcat|].
  intros Hnil. rewrite Hnil in Hcat.
  destruct batches as [|batch batches]; [reflexivity|].
  apply Forall_cons in Hne as [Hb _].
  destruct batch; [cbn in Hb; lia|discriminate Hcat].
Qed.

Lemma batchUpload_from_zero (records : list record) : forall fuel i,
  (i < length records)%nat -> batchUpload_from fuel records 0 i = None.
Proof.
  induction fuel as [|fuel IH]; intros i Hi; cbn [batchUpload_from];
    rewrite bool_decide_eq_true_2 by exact Hi; [reflexivity|].
  rewrite Nat.add_0_r, IH by exact Hi. reflexivity.
Qed.

(** X20. With a batch size of 0 and at least one record the loop of
    [batchUpload] never ends: [i] stays 0, however many iterations are
    run. *)
Theorem batchUpload_zero_never_ends (records : list record) (fuel : nat) :
  records <> [] -> batchUpload fuel records 0 = None.
Proof.
  intros Hne. apply batchUpload_from_zero. destruct records; [done|cbn; lia].
Qed.

Lemma batchUpload_zero_never_ends_witness :
  batchUpload 1000 [sample_record 1] 0 = None.
Proof. apply (batchUpload_zero_never_ends [sample_record 1] 1000). discriminate. Defined.

Lemma candidate_fixed_fields Date_parse (p : Program) text g r a :
  (parser_of Date_parse p text g).1 = Some r ->
  fixed_fields p (complete_record r (Some a)).
Proof.
  intros H. apply parser_of_candidate in H as [_ ->].
  destruct p; cbn [is_received];
    try (unfold SentExamDate.candidate; cbv zeta;
         destruct (SentExamDate.extract_createdAt (normalize text) g));
    repeat split; discriminate.
Qed.

(** X21. Every record posted by a run has the constant fields of its
    program: [type] Sent or Received, the subject, the fixed number on the
    side the program does not extract and, in the Sent programs, the fixed
    sender; its [file_extension] is [pdf] and its attachment is not
    [null]. *)
Theorem uploaded_records_fixed_fields pdfParse toBase64 Date_parse (p : Program) ok fs0 g :
  exists o,
    main_of pdfParse toBase64 Date_parse p ok fs0 g = Some o
    /\ Forall (Forall (fixed_fields p)) (uploads o).
Proof.
  destruct (main_of_outcome pdfParse toBase64 Date_parse p ok fs0 g)
    as (batches & Hmain & Hcat & _).
  cbv zeta in Hmain, Hcat. eexists. split; [exact Hmain|]. cbn [uploads].
  apply Forall_concat. rewrite Hcat.
  apply process_files_attached; [|constructor].
  intros text g1 r c Hr. exact (candidate_fixed_fields Date_parse p text g1 r _ Hr).
Qed.

Lemma process_file_record_of pdfParse toBase64 parse ok fs0 file st :
  pdf_files (fs st) !! file = pdf_files fs0 !! file ->
  records (process_file pdfParse toBase64 (pure_parser parse) ok file st)
  = records st ++ option_list (record_of pdfParse toBase64 parse fs0 file).
Proof.
  intros Hfs. unfold record_of, process_file, extractPdfText, fileToBase64, pure_parser.
  rewrite Hfs.
  destruct (pdf_files fs0 !! file) as [c|]; cbn; [|now rewrite app_nil_r].
  destruct (pdfParse c) as [[|x t]|]; cbn; try (now rewrite app_nil_r).
  destruct (parse (x :: t)); cbn; [reflexivity|now rewrite app_nil_r].
Qed.

(** The first loop on files it has not moved yet: one record for each
    file that parses, in the order of the list. *)
Lemma process_files_record_of pdfParse toBase64 parse ok fs0 l : forall st,
  NoDup l ->
  (forall f, f ∈ l -> pdf_files (fs st) !! f = pdf_files fs0 !! f) ->
  records (process_files pdfParse toBase64 (pure_parser parse) ok l st)
  = records st ++ omap (record_of pdfParse toBase64 parse fs0) l.
Proof.
  induction l as [|file l IH]; intros st Hnd Hfs; [now rewrite app_nil_r|].
  apply NoDup_cons in Hnd as [Hfile Hnd].
  change (process_files pdfParse toBase64 (pure_parser parse) ok (file :: l) st)
    with (process_files pdfParse toBase64 (pure_parser parse) ok l
            (process_file pdfParse toBase64 (pure_parser parse) ok file st)).
  rewrite IH; [|exact Hnd|].
  - rewrite (process_file_record_of pdfParse toBase64 parse ok fs0 file st) by (apply Hfs; left).
    rewrite <- app_assoc. f_equal. cbn [omap list_omap].
    now destruct (record_of pdfParse toBase64 parse fs0 file).
  - intros f Hin.
    assert (Hne : f <> file) by (intros ->; done).
    destruct (process_file_other pdfParse toBase64 (pure_parser parse) ok file st f Hne)
      as [(-> & _) _].
    apply Hfs. now right.
Qed.

(** X22. In the five programs whose parser draws no random number, the
    records posted by a run, batch after batch, are the records of the
    listed files that parse, one for each, in the order of the listing,
    each made from the file as it was before the run: what becomes of one
    file has no effect on the record of another. *)
Theorem uploads_follow_the_listing pdfParse toBase64 Date_parse (p : Program) ok fs0 g :
  draws_random p = false ->
  exists o,
    main_of pdfParse toBase64 Date_parse p ok fs0 g = Some o
    /\ concat (uploads o)
       = omap (record_of pdfParse toBase64 (fun text => (parser_of Date_parse p text g).1) fs0)
           (pdf_listing fs0).
Proof.
  intros Hp.
  destruct (main_of_outcome pdfParse toBase64 Date_parse p ok fs0 g)
    as (batches & Hmain & Hcat & _).
  cbv zeta in Hmain, Hcat. eexists. split; [exact Hmain|]. cbn [uploads]. rewrite Hcat.
  destruct p; try discriminate Hp; cbn [parser_of pure_parser fst];
    (rewrite process_files_record_of with (fs0 := fs0);
     [reflexivity|apply NoDup_pdf_listing|reflexivity]).
Qed.

Lemma uploads_follow_the_listing_witness :
  exists o,
    main_of text_files raw_bytes no_dates received_js always
      (incoming (js "a.pdf") sample_text) (constant_rng 0) = Some o
    /\ concat (uploads o)
       = omap (record_of text_files raw_bytes
                 (fun text => (parser_of no_dates received_js text (constant_rng 0)).1)
                 (incoming (js "a.pdf") sample_text))
           (pdf_listing (incoming (js "a.pdf") sample_text)).
Proof.
  apply (uploads_follow_the_listing text_files raw_bytes no_dates received_js always
           (incoming (js "a.pdf") sample_text) (constant_rng 0)).
  reflexivity.
Defined.

(** ** How far a capture goes *)

(** A greedy quantifier without upper bound, followed by nothing that can
    fail, takes the whole run. *)
Lemma rep_greedy {A} c (k : jsstring -> option A) :
  (forall s, k s <> None) ->
  forall s lo a, rep c lo None s k = Some a ->
  exists w s',
    s = w ++ s' /\ Forall (fun x => c x = true) w /\ (lo <= length w)%nat
    /\ match s' with [] => True | x :: _ => c x = false end
    /\ k s' = Some a.
Proof.
  intros Hk. induction s as [|x s IH]; intros lo a H; cbn [rep] in H.
  - case_bool_decide as Hlo; [|discriminate]. exists [], []. cbn. repeat split; try done. lia.
  - destruct (c x) eqn:Hx; cbn [andb fmap option_fmap option_map negb] in H.
    + rewrite bool_decide_eq_false_2 in H by discriminate. cbn [negb] in H.
      destruct (rep c (pred lo) None s k) as [a'|] eqn:E.
      * injection H as ->. destruct (IH _ _ E) as (w & s' & -> & Hw & Hlo & Hs' & Ha).
        exists (x :: w), s'. cbn. repeat split; try done; [now constructor|lia].
      * case_bool_decide as Hlo; [|discriminate]. subst lo. exfalso.
        refine (rep_complete c k s [] 0%nat None _ (Hk s) E).
        cbn. repeat split; try done.
    + case_bool_decide as Hlo; [|discriminate]. subst lo.
      exists [], (x :: s). cbn. repeat split; try done.
Qed.

(** The last piece of a concatenation is matched from where the pieces
    before it end. *)
Lemma rmatch_cat_last {A} (r : regex) : forall rs s caps (k : jsstring -> captures -> option A) a,
  rmatch (cat (rs ++ [r])) s caps k = Some a ->
  exists w s' caps', s = w ++ s' /\ rmatch r s' caps' k = Some a.
Proof.
  induction rs as [|r0 rs IH]; intros s caps k a H.
  - exists [], s, caps. done.
  - assert (E : cat ((r0 :: rs) ++ [r]) = Cat r0 (cat (rs ++ [r]))).
    { cbn. now destruct (rs ++ [r]) eqn:E; [destruct rs|]. }
    rewrite E in H. cbn [rmatch] in H.
    apply rmatch_sound in H as (w & s' & c1 & -> & _ & H).
    apply IH in H as (w' & s'' & caps' & -> & H).
    exists (w ++ w'), s'', caps'. now rewrite <- app_assoc.
Qed.

Lemma match_found r : forall s m,
  match_ r s = Some m -> exists pre s', s = pre ++ s' /\ match_here r s' = Some m.
Proof.
  induction s as [|x s IH]; intros m H; cbn [match_] in H.
  - destruct (match_here r []) eqn:E; [|discriminate]. injection H as ->. now exists [], [].
  - destruct (match_here r (x :: s)) eqn:E.
    + injection H as ->. now exists [], (x :: s).
    + apply IH in H as (pre & s' & -> & H). now exists (x :: pre), s'.
Qed.

(** A pattern that ends with a group on such a quantifier. *)
Lemma match_runs_on rs c lo text m :
  (1 <= lo)%nat ->
  match_ (cat (rs ++ [Cap 1 (Rep c lo None)])) text = Some m -> runs_on c text m.
Proof.
  intros Hlo H. apply match_found in H as (pre & s & -> & H).
  unfold match_here in H.
  apply rmatch_cat_last in H as (w & s1 & caps & -> & H).
  cbn [rmatch] in H.
  apply rep_greedy in H as (run & after & -> & Hrun & Hlen & Hafter & H); [|done].
  injection H as <-. unfold runs_on, group. cbn [groups whole capture].
  rewrite bool_decide_eq_true_2 by done.
  rewrite !length_app.
  replace (length run + length after - length after)%nat with (length run) by lia.
  replace (length w + (length run + length after) - length after)%nat
    with (length (w ++ run)) by (rewrite length_app; lia).
  rewrite take_app_length.
  rewrite (app_assoc w run after), take_app_length.
  exists pre, w, after. repeat split; try done.
  - now rewrite <- app_assoc.
  - intros ->. cbn in Hlen. lia.
Qed.

(** X23. The captures of the patterns on [Fax:], on [Fax:|To:] and on
    [PHYSICIAN NAME] go as far as their class goes: the capture is a
    non-empty run of the class that ends the match, and the code unit that
    follows it in the text, if there is one, is not of the class. So the
    digits taken after [Fax:] or [To:] in received.js include those of a
    number that follows after white space, and the name after
    [PHYSICIAN NAME] includes the words that follow, up to the first code
    unit that is no letter, white space, comma or dot. *)
Theorem captures_run_on (normalizedText : jsstring) :
  (forall m, match_ re_fax normalizedText = Some m ->
     runs_on (fun c => is_digit c || is_char "-" c) normalizedText m)
  /\ (forall m, match_ re_to normalizedText = Some m ->
        runs_on (fun c => is_digit c || is_space c || is_char "-" c) normalizedText m)
  /\ (forall m, match_ re_physician_name normalizedText = Some m ->
        runs_on name_char normalizedText m).
Proof.
  repeat split; intros m H.
  - exact (match_runs_on [lit_i "Fax:"; spaces] _ 1 _ m ltac:(lia) H).
  - exact (match_runs_on [alt [lit_i "Fax:"; lit_i "To:"; lit_i "FAX:"; lit_i "TO:"]; spaces]
             _ 1 _ m ltac:(lia) H).
  - exact (match_runs_on
             [lit_i "PHYSICIAN NAME"; spaces;
              Rep (fun c => is_char ":" c || is_char "-" c) 0 (Some 1%nat); spaces]
             _ 1 _ m ltac:(lia) H).
Qed.

(** ** The count of the processed files *)

Lemma endsWith_toLowerCase file :
  endsWith (js ".pdf") file = true -> endsWith (js ".pdf") (toLowerCase file) = true.
Proof.
  unfold endsWith, toLowerCase. intros H. apply bool_decide_eq_true_1 in H.
  apply bool_decide_eq_true_2. rewrite length_map, <- fmap_drop.
  rewrite H. reflexivity.
Qed.

Lemma countProcessedPDFs_processed fs1 fs2 :
  processed fs1 = processed fs2 -> countProcessedPDFs fs1 = countProcessedPDFs fs2.
Proof. unfold countProcessedPDFs. now intros ->. Qed.

Lemma countProcessedPDFs_renameSync ok file fs0 :
  exclusive fs0 -> endsWith (js ".pdf") file = true ->
  countProcessedPDFs (renameSync ok processedFolder file fs0)
  = (countProcessedPDFs fs0
     + if bool_decide (is_Some (pdf_files fs0 !! file)) && ok processedFolder file then 1 else 0)%nat.
Proof.
  intros Hex Hpdf. unfold renameSync.
  destruct (pdf_files fs0 !! file) as [c|] eqn:Hc.
  - rewrite bool_decide_eq_true_2 by eauto. cbn [andb].
    destruct (ok processedFolder file); [|lia].
    destruct (Hex file) as [Hin _]. destruct (Hin (mk_is_Some _ _ Hc)) as [Hp _].
    unfold countProcessedPDFs. cbn [processed].
    rewrite (map_to_list_insert (processed fs0) file c Hp). cbn [fmap list_fmap fst].
    rewrite filter_cons_True by (now apply endsWith_toLowerCase). cbn [length]. lia.
  - rewrite bool_decide_eq_false_2 by (intros [? ?]; discriminate). cbn. lia.
Qed.

(** Through the first loop the count grows with the records, when every
    move to [processed/] is carried out. *)
Lemma process_files_count pdfParse toBase64 parsePdfText ok l : forall st,
  exclusive (fs st) ->
  (forall file, ok processedFolder file = true) ->
  Forall (fun file => endsWith (js ".pdf") file = true) l ->
  let st' := process_files pdfParse toBase64 parsePdfText ok l st in
  (countProcessedPDFs (fs st') + length (records st)
   = countProcessedPDFs (fs st) + length (records st'))%nat.
Proof.
  induction l as [|file l IH]; intros st Hex Hok Hl; [done|].
  apply Forall_cons in Hl as [Hfile Hl]. cbv zeta.
  rewrite process_files_cons.
  specialize (IH (process_file pdfParse toBase64 parsePdfText ok file st)
                (process_file_exclusive _ _ _ _ _ _ Hex) Hok Hl).
  cbv zeta in IH.
  enough (countProcessedPDFs (fs (process_file pdfParse toBase64 parsePdfText ok file st))
          + length (records st)
          = countProcessedPDFs (fs st)
            + length (records (process_file pdfParse toBase64 parsePdfText ok file st)))%nat by lia.
  destruct (process_file_cases pdfParse toBase64 parsePdfText ok file st)
    as [(-> & -> & _)|(c & text & r & g' & Hc & _ & _ & _ & -> & -> & _)]; [done|].
  rewrite countProcessedPDFs_renameSync by done.
  rewrite Hc, Hok, bool_decide_eq_true_2 by eauto. cbn [andb]. rewrite length_app. cbn. lia.
Qed.

(** X24. When no name is in two of the three folders at the start and
    the system carries out every move to [processed/], the number
    [countProcessedPDFs] counts after a run is the number it counted
    before plus the number of records posted: every file the run moves to
    [processed/] has a name that ends with [.pdf] and is counted. *)
Theorem processed_count_grows pdfParse toBase64 Date_parse (p : Program) ok fs0 g :
  exclusive fs0 ->
  (forall file, ok processedFolder file = true) ->
  exists o,
    main_of pdfParse toBase64 Date_parse p ok fs0 g = Some o
    /\ countProcessedPDFs (files o)
       = (countProcessedPDFs fs0 + length (concat (uploads o)))%nat.
Proof.
  intros Hex Hok.
  destruct (main_of_outcome pdfParse toBase64 Date_parse p ok fs0 g)
    as (batches & Hmain & Hcat & _).
  cbv zeta in Hmain, Hcat. eexists. split; [exact Hmain|]. cbn [files uploads]. rewrite Hcat.
  pose proof (process_files_count pdfParse toBase64 (parser_of Date_parse p) ok (pdf_listing fs0)
                (start fs0 g) Hex Hok) as Hcount.
  cbv zeta in Hcount. cbn [start fs records length] in Hcount.
  rewrite Nat.add_0_r in Hcount.
  set (st := process_files _ _ _ _ _ _) in *.
  rewrite <- Hcount.
  - destruct (uses_batches p); [|destruct (sweeps_up p)]; [| |done];
      apply countProcessedPDFs_processed; unfold moveFailedFiles; apply move_to_failed_processed.
  - apply Forall_forall. intros f Hin. now apply elem_of_pdf_listing in Hin as [_ He].
Qed.

Lemma processed_count_grows_witness :
  exists o,
    main_of text_files raw_bytes no_dates part_000_2 always
      (incoming (js "a.pdf") sample_text) (constant_rng 0) = Some o
    /\ countProcessedPDFs (files o)
       = (countProcessedPDFs (incoming (js "a.pdf") sample_text)
          + length (concat (uploads o)))%nat.
Proof.
  apply (processed_count_grows text_files raw_bytes no_dates part_000_2 always
           (incoming (js "a.pdf") sample_text) (constant_rng 0)).
  - apply exclusive_incoming.
  - reflexivity.
Defined.

(** ** What a record needs *)

Lemma match_occurs r s m : match_ r s = Some m -> occurs r s.
Proof.
  intros H. apply match_sound in H as (pre & post & E & H).
  now exists pre, (whole m), post, (groups m).
Qed.

(** X25. A record is returned only when each pattern of the program matches
    somewhere in the normalized text: the pattern of the date, the pattern
    of the number and, in the three Received programs, one of the patterns
    of the name. A text that lacks one of them gives no record. *)
Theorem record_needs_every_pattern Date_parse (p : Program) text g r :
  (parser_of Date_parse p text g).1 = Some r ->
  occurs (date_pattern p) (normalize text)
  /\ occurs (number_pattern p) (normalize text)
  /\ (is_received p = true -> exists q, q ∈ name_patterns p /\ occurs q (normalize text)).
Proof.
  intros H. apply parser_of_candidate in H as [Hc Hr].
  destruct (complete_fields _ _ Hc) as ((c & Hcreated & _) & (n & Hparty & _) & (s & Hsender & _)).
  rewrite Hr in Hcreated, Hparty, Hsender. clear Hr Hc.
  destruct p; cbn [party_of date_pattern number_pattern checks_ten_digits is_received
                     name_patterns] in *.
  - rewrite SentExamDate_candidate_from in Hparty.
    unfold SentExamDate.candidate in Hcreated. cbv zeta in Hcreated.
    destruct (SentExamDate.extract_createdAt (normalize text) g) as [created g'] eqn:E.
    cbn [fst createdAt] in Hcreated. subst created.
    unfold SentExamDate.extract_createdAt in E.
    repeat split; [| |discriminate].
    + destruct (match_ SentExamDate.re_createdAt (normalize text)) as [m|] eqn:Em;
        [exact (match_occurs _ _ m Em)|discriminate].
    + unfold fax_any_length in Hparty.
      destruct (match_ re_fax (normalize text)) as [m|] eqn:Em;
        [exact (match_occurs _ _ m Em)|discriminate].
  - cbn [ReceivedNameOnly.candidate createdAt to sender] in *.
    unfold createdAt_of_timestamp in Hcreated. unfold fax_ten_digits in Hparty.
    unfold physician_name_only in Hsender.
    destruct (match_ re_timestamp (normalize text)) as [m1|] eqn:E1; [|discriminate].
    destruct (match_ re_to (normalize text)) as [m2|] eqn:E2; [|discriminate].
    destruct (match_ re_physician_name (normalize text)) as [m3|] eqn:E3; [|discriminate].
    repeat split; eauto using match_occurs.
    intros _. exists re_physician_name. split; [left|eauto using match_occurs].
  - cbn [SentTimestamp.candidate createdAt from] in *.
    unfold createdAt_of_timestamp in Hcreated. unfold fax_any_length in Hparty.
    destruct (match_ re_timestamp (normalize text)) as [m1|] eqn:E1; [|discriminate].
    destruct (match_ re_fax (normalize text)) as [m2|] eqn:E2; [|discriminate].
    repeat split; eauto using match_occurs. discriminate.
  - cbn [SentTimestampPrevDay.candidate createdAt from] in *.
    unfold SentTimestampPrevDay.extract_createdAt in Hcreated. unfold fax_any_length in Hparty.
    destruct (match_ re_timestamp (normalize text)) as [m1|] eqn:E1; [|discriminate].
    destruct (match_ re_fax (normalize text)) as [m2|] eqn:E2; [|discriminate].
    repeat split; eauto using match_occurs. discriminate.
  - cbn [ReceivedFrom.candidate createdAt from sender] in *.
    unfold ReceivedFrom.extract_createdAt in Hcreated. unfold fax_any_length in Hparty.
    unfold physician_with_fallback in Hsender.
    destruct (match_ ReceivedFrom.re_createdAt (normalize text)) as [m1|] eqn:E1; [|discriminate].
    destruct (match_ re_fax (normalize text)) as [m2|] eqn:E2; [|discriminate].
    repeat split; eauto using match_occurs. intros _.
    destruct (match_ re_physician_information (normalize text)) as [m3|] eqn:E3.
    + exists re_physician_information. split; [left|eauto using match_occurs].
    + destruct (match_ re_physician_name (normalize text)) as [m4|] eqn:E4; [|discriminate].
      exists re_physician_name. split; [right; left|eauto using match_occurs].
  - cbn [ReceivedTo.candidate createdAt to sender] in *.
    unfold createdAt_of_timestamp in Hcreated. unfold fax_ten_digits in Hparty.
    unfold physician_with_fallback in Hsender.
    destruct (match_ re_timestamp (normalize text)) as [m1|] eqn:E1; [|discriminate].
    destruct (match_ re_to (normalize text)) as [m2|] eqn:E2; [|discriminate].
    repeat split; eauto using match_occurs. intros _.
    destruct (match_ re_physician_information (normalize text)) as [m3|] eqn:E3.
    + exists re_physician_information. split; [left|eauto using match_occurs].
    + destruct (match_ re_physician_name (normalize text)) as [m4|] eqn:E4; [|discriminate].
      exists re_physician_name. split; [right; left|eauto using match_occurs].
Qed.

Lemma record_needs_every_pattern_witness :
  occurs (date_pattern received_js) (normalize sample_text)
  /\ occurs (number_pattern received_js) (normalize sample_text)
  /\ (is_received received_js = true ->
      exists q, q ∈ name_patterns received_js /\ occurs q (normalize sample_text)).
Proof.
  apply (record_needs_every_pattern no_dates received_js sample_text (constant_rng 0)
           (ReceivedTo.candidate sample_text)).
  vm_compute. reflexivity.
Defined.
